(** * recipe_backend: the browser client [script.js]

    A shallow embedding of the client script and the properties of its
    two-stage request pipeline.

    - JavaScript strings are modelled as [string]: the text in UTF-8, one
      byte per element.  On ASCII text a byte is a UTF-16 code unit.  [trim]
      knows the white space outside ASCII by its bytes; the regular
      expressions are modelled on the characters they name, and the facts
      that depend on how they read other characters are stated for ASCII
      text.
    - Numbers that the script uses as counters, lengths and status codes are
      integers and are modelled as [Z] or [nat].
    - The browser (DOM, [fetch], [setTimeout], [console], [FileReader]) is the
      environment: its answers are inputs of a run, its calls are recorded in
      a log of events.
    - An [async] function is a state-passing function that ends in [Ok v]
      (the promise resolves) or [Err e] (it rejects); [await] is sequencing. *)

From Stdlib Require Import String Ascii List ZArith Bool Arith Lia DecimalString.
Import ListNotations.
Open Scope string_scope.

(* ====================================================================== *)
(** * Strings as the script uses them *)
(* ====================================================================== *)

Module Str.

(** The double quote, for markup that contains attribute values. *)
Definition dq : string := String (ascii_of_nat 34) EmptyString.

(** [ class="c"], the one attribute the script's markup uses. *)
Definition cls (c : string) : string := " class=" ++ dq ++ c ++ dq.

Definition lf : ascii := ascii_of_nat 10.
Definition cr : ascii := ascii_of_nat 13.
Definition nl : string := String lf EmptyString.

Definition chars : string -> list ascii := list_ascii_of_string.
Definition of_chars : list ascii -> string := string_of_list_ascii.

(** Truthiness of a string: only the empty string is falsy. *)
Definition truthy (s : string) : bool :=
  match s with EmptyString => false | String _ _ => true end.

(** [s.startsWith(p)]. *)
Definition startsWith (p s : string) : bool := String.prefix p s.

(** White space as [String.prototype.trim] sees it: the WhiteSpace and
    LineTerminator characters of the language.  Within ASCII these are TAB,
    LF, VT, FF, CR and SPACE. *)
Definition is_space (c : ascii) : bool :=
  let n := nat_of_ascii c in
  ((9 <=? n)%nat && (n <=? 13)%nat) || (n =? 32)%nat.

(** Outside ASCII, in UTF-8: the no-break space U+00A0 is the two bytes
    C2 A0. *)
Definition is_space2 (a b : ascii) : bool :=
  (nat_of_ascii a =? 194)%nat && (nat_of_ascii b =? 160)%nat.

(** The no-break space, as a string. *)
Definition nbsp : string :=
  String (ascii_of_nat 194) (String (ascii_of_nat 160) EmptyString).

(** The others take three bytes: U+1680 (E1 9A 80), U+2000 to U+200A
    (E2 80 80 to E2 80 8A), the line and paragraph separators U+2028 and
    U+2029 (E2 80 A8, E2 80 A9), U+202F (E2 80 AF), U+205F (E2 81 9F),
    U+3000 (E3 80 80) and the byte order mark U+FEFF (EF BB BF). *)
Definition is_space3 (a b c : ascii) : bool :=
  let x := nat_of_ascii a in
  let y := nat_of_ascii b in
  let z := nat_of_ascii c in
  ((x =? 225) && (y =? 154) && (z =? 128))%nat
  || ((x =? 226) && (y =? 128)
      && (((128 <=? z) && (z <=? 138))
          || (z =? 168) || (z =? 169) || (z =? 175)))%nat
  || ((x =? 226) && (y =? 129) && (z =? 159))%nat
  || ((x =? 227) && (y =? 128) && (z =? 128))%nat
  || ((x =? 239) && (y =? 187) && (z =? 191))%nat.

(** Remove the white space characters at the front of [l]; [sp2] and [sp3]
    recognise the characters of two and of three bytes. *)
Fixpoint strip (sp2 : ascii -> ascii -> bool)
  (sp3 : ascii -> ascii -> ascii -> bool) (l : list ascii) : list ascii :=
  match l with
  | [] => []
  | a :: l1 =>
      if is_space a then strip sp2 sp3 l1
      else
        match l1 with
        | [] => l
        | b :: l2 =>
            if sp2 a b then strip sp2 sp3 l2
            else
              match l2 with
              | [] => l
              | c :: l3 => if sp3 a b c then strip sp2 sp3 l3 else l
              end
        end
  end.

Definition trim_start (l : list ascii) : list ascii :=
  strip is_space2 is_space3 l.

(** The same from the end, on the reversed text: the bytes of a character
    come in reverse order. *)
Definition trim_end_rev (l : list ascii) : list ascii :=
  strip (fun b a => is_space2 a b) (fun c b a => is_space3 a b c) l.

(** [s.trim()]. *)
Definition trim (s : string) : string :=
  of_chars (rev (trim_end_rev (rev (trim_start (chars s))))).

(** [s.split(sep)] for a one-character separator: the pieces between the
    separators, always at least one piece. *)
Fixpoint split_chars (sep : ascii) (cur : list ascii) (l : list ascii)
  : list string :=
  match l with
  | [] => [of_chars (rev cur)]
  | c :: l' =>
      if Ascii.eqb c sep
      then of_chars (rev cur) :: split_chars sep [] l'
      else split_chars sep (c :: cur) l'
  end.

Definition split (sep : ascii) (s : string) : list string :=
  split_chars sep [] (chars s).

(** No character of [s] is [c]. *)
Definition lacks (c : ascii) (s : string) : bool :=
  forallb (fun x => negb (Ascii.eqb x c)) (chars s).

(** [a.join(sep)]. *)
Fixpoint join (sep : string) (l : list string) : string :=
  match l with
  | [] => ""
  | [x] => x
  | x :: l' => x ++ sep ++ join sep l'
  end.

(** [String(n)] for an integer. *)
Definition of_Z (z : Z) : string := NilZero.string_of_int (Z.to_int z).
Definition of_nat (n : nat) : string := of_Z (Z.of_nat n).

(** [s.includes(p)]. *)
Definition includes (p s : string) : bool :=
  match String.index 0 p s with Some _ => true | None => false end.

(** The first occurrence of [a] in [s] starts before the first occurrence
    of [b]. *)
Definition precedes (a b s : string) : bool :=
  match String.index 0 a s, String.index 0 b s with
  | Some i, Some j => (i <? j)%nat
  | _, _ => false
  end.

(** Number of (non-overlapping, left to right) occurrences of [p]. *)
Fixpoint count_from (fuel : nat) (p s : string) : nat :=
  match fuel with
  | O => 0
  | S fuel' =>
      match String.index 0 p s with
      | None => 0
      | Some i =>
          let step := i + Nat.max 1 (String.length p) in
          S (count_from fuel' p
               (String.substring step (String.length s - step) s))
      end
  end.

Definition count (p s : string) : nat :=
  match p with
  | EmptyString => 0
  | _ => count_from (String.length s) p s
  end.

End Str.

(* ====================================================================== *)
(** * Regular expressions: the fragment [simpleMarkdownToHtml] uses *)
(* ====================================================================== *)

(** A backtracking matcher in the style of the ECMAScript specification:
    a pattern is matched against a continuation, alternatives are tried in
    the order the language prescribes (greedy: one more iteration first;
    lazy: the continuation first). *)
Module Regex.

Inductive regex : Type :=
| Eps                                   (* the empty pattern *)
| Chr (c : ascii)                       (* a literal character *)
| Dot                                   (* [.] *)
| Bol                                   (* [^] *)
| Eol                                   (* [$] *)
| Seq (r1 r2 : regex)
| Group (n : nat) (r : regex)           (* capturing group number [n] *)
| Star (greedy : bool) (r : regex)      (* [r*] and [r*?] *)
| Opt (greedy : bool) (r : regex).      (* [r?] and [r??] *)

(** [r+] and [r+?]: one [r], then [r*]. *)
Definition Plus (greedy : bool) (r : regex) : regex :=
  Seq r (Star greedy r).

(** A literal string. *)
Fixpoint lit (s : string) : regex :=
  match s with
  | EmptyString => Eps
  | String c s' => Seq (Chr c) (lit s')
  end.

Fixpoint seqs (rs : list regex) : regex :=
  match rs with
  | [] => Eps
  | [r] => r
  | r :: rs' => Seq r (seqs rs')
  end.

Record flags : Type := { multiline : bool; dotAll : bool }.

(** A match in progress: the position reached and the groups captured so
    far, each as (number, (start, end)). *)
Record mstate : Type := { pos : nat; caps : list (nat * (nat * nat)) }.

Definition is_line_terminator (c : ascii) : bool :=
  Ascii.eqb c Str.lf || Ascii.eqb c Str.cr.

Fixpoint groups_of (r : regex) : list nat :=
  match r with
  | Seq r1 r2 => groups_of r1 ++ groups_of r2
  | Group n r' => n :: groups_of r'
  | Star _ r' | Opt _ r' => groups_of r'
  | _ => []
  end.

Definition clear_caps (gs : list nat) (s : mstate) : mstate :=
  {| pos := pos s;
     caps := filter (fun c => negb (existsb (Nat.eqb (fst c)) gs)) (caps s) |}.

Definition set_cap (n b e : nat) (s : mstate) : mstate :=
  {| pos := pos s;
     caps := (n, (b, e)) :: filter (fun c => negb (fst c =? n)%nat) (caps s) |}.

Section Match.
Variable fl : flags.
Variable inp : list ascii.

Definition at_bol (p : nat) : bool :=
  match p with
  | O => true
  | S p' =>
      multiline fl &&
      match nth_error inp p' with
      | Some c => is_line_terminator c
      | None => false
      end
  end.

Definition at_eol (p : nat) : bool :=
  match nth_error inp p with
  | None => true
  | Some c => multiline fl && is_line_terminator c
  end.

(** [rmatch r k s]: match [r] at [s], then the rest of the pattern [k]. *)
Fixpoint rmatch (r : regex) (k : mstate -> option mstate) (s : mstate)
  {struct r} : option mstate :=
  match r with
  | Eps => k s
  | Chr c =>
      match nth_error inp (pos s) with
      | Some c' =>
          if Ascii.eqb c c'
          then k {| pos := S (pos s); caps := caps s |}
          else None
      | None => None
      end
  | Dot =>
      match nth_error inp (pos s) with
      | Some c' =>
          if dotAll fl || negb (is_line_terminator c')
          then k {| pos := S (pos s); caps := caps s |}
          else None
      | None => None
      end
  | Bol => if at_bol (pos s) then k s else None
  | Eol => if at_eol (pos s) then k s else None
  | Seq r1 r2 => rmatch r1 (rmatch r2 k) s
  | Group n r' =>
      rmatch r' (fun s' => k (set_cap n (pos s) (pos s') s')) s
  | Star greedy r' =>
      (* An iteration that consumes nothing is rejected, so at most
         [length inp - pos s] iterations can follow one another. *)
      (fix loop (n : nat) (s : mstate) {struct n} : option mstate :=
         match n with
         | O => k s
         | S n' =>
             let again (_ : unit) :=
               rmatch r'
                 (fun s' => if (pos s <? pos s')%nat then loop n' s' else None)
                 (clear_caps (groups_of r') s) in
             if greedy
             then match again tt with Some m => Some m | None => k s end
             else match k s with Some m => Some m | None => again tt end
         end) (length inp - pos s) s
  | Opt greedy r' =>
      if greedy
      then match rmatch r' k (clear_caps (groups_of r') s) with
           | Some m => Some m
           | None => k s
           end
      else match k s with
           | Some m => Some m
           | None => rmatch r' k (clear_caps (groups_of r') s)
           end
  end.

(** One match attempt anchored at position [p]. *)
Definition match_at (r : regex) (p : nat) : option mstate :=
  rmatch r (fun s => Some s) {| pos := p; caps := [] |}.

(** [exec]: the first position from [lastIndex] on where [r] matches. *)
Fixpoint search (r : regex) (fuel : nat) (p : nat)
  : option (nat * mstate) :=
  match match_at r p with
  | Some m => Some (p, m)
  | None =>
      match fuel with
      | O => None
      | S fuel' => search r fuel' (S p)
      end
  end.

Definition exec (r : regex) (lastIndex : nat) : option (nat * mstate) :=
  if (length inp <? lastIndex)%nat then None
  else search r (length inp - lastIndex) lastIndex.

End Match.

(** A replacement string: text, [$n] and [$&]. *)
Inductive titem : Type :=
| TLit (s : string)
| TGroup (n : nat)
| TMatch.

Definition slice (inp : list ascii) (b e : nat) : list ascii :=
  firstn (e - b) (skipn b inp).

Definition expand_item (inp : list ascii) (b : nat) (m : mstate) (t : titem)
  : list ascii :=
  match t with
  | TLit s => Str.chars s
  | TMatch => slice inp b (pos m)
  | TGroup n =>
      match find (fun c => (fst c =? n)%nat) (caps m) with
      | Some (_, (gb, ge)) => slice inp gb ge
      | None => []
      end
  end.

Definition expand (inp : list ascii) (b : nat) (m : mstate)
  (tpl : list titem) : list ascii :=
  flat_map (expand_item inp b m) tpl.

(** [String.prototype.replace] with a global pattern: every match from left
    to right, the search resuming where the previous match ended (one
    further when that match was empty). *)
Fixpoint replace_loop (fl : flags) (r : regex) (tpl : list titem)
  (inp : list ascii) (fuel : nat) (lastIndex nextSource : nat)
  : list ascii :=
  match fuel with
  | O => skipn nextSource inp
  | S fuel' =>
      match exec fl inp r lastIndex with
      | None => skipn nextSource inp
      | Some (b, m) =>
          let e := pos m in
          slice inp nextSource b ++ expand inp b m tpl ++
          replace_loop fl r tpl inp fuel'
            (if (e =? b)%nat then S e else e) e
      end
  end.

Definition replace_all (fl : flags) (r : regex) (tpl : list titem)
  (s : string) : string :=
  let inp := Str.chars s in
  Str.of_chars (replace_loop fl r tpl inp (length inp + 2) 0 0).

Definition g : flags := {| multiline := false; dotAll := false |}.
Definition gm : flags := {| multiline := true; dotAll := false |}.
Definition gs : flags := {| multiline := false; dotAll := true |}.

End Regex.


(* ====================================================================== *)
(** * [simpleMarkdownToHtml] *)
(* ====================================================================== *)

Module Markdown.
Import Regex.

(** [/^### (.+)$/gm], [/^## (.+)$/gm] and [/^# (.+)$/gm]. *)
Definition re_heading (hashes : string) : regex :=
  seqs [Bol; lit hashes; Chr " "; Group 1 (Plus true Dot); Eol].

(** [/^\* (.+)$/gm]. *)
Definition re_item : regex :=
  seqs [Bol; lit "* "; Group 1 (Plus true Dot); Eol].

(** [/(<li>.*<\/li>\n?)+/gs]. *)
Definition re_items : regex :=
  Plus true
    (Group 1 (seqs [lit "<li>"; Star true Dot; lit "</li>";
                    Opt true (Chr Str.lf)])).

(** [/^---$/gm]. *)
Definition re_rule : regex := seqs [Bol; lit "---"; Eol].

(** [/\*\*(.+?)\*\*/g]. *)
Definition re_bold : regex :=
  seqs [lit "**"; Group 1 (Plus false Dot); lit "**"].

(** [/\*(.+?)\*/g]. *)
Definition re_italic : regex :=
  seqs [lit "*"; Group 1 (Plus false Dot); lit "*"].

Definition tag (name attrs : string) : list titem :=
  [TLit ("<" ++ name ++ Str.cls attrs ++ ">"); TGroup 1;
   TLit ("</" ++ name ++ ">")].

(** The [map] callback of the last step:
    [line.trim() && !line.startsWith('<') ? `<p class="mb-2">${line}</p>` : line]. *)
Definition paragraph (line : string) : string :=
  if Str.truthy (Str.trim line) && negb (Str.startsWith "<" line)
  then "<p" ++ Str.cls "mb-2" ++ ">" ++ line ++ "</p>"
  else line.

Definition simpleMarkdownToHtml (text : string) : string :=
  let t1 := replace_all gm (re_heading "###")
              (tag "h3" "text-xl font-semibold mt-4 mb-2") text in
  let t2 := replace_all gm (re_heading "##")
              (tag "h2" "text-2xl font-bold mt-6 mb-3 text-blue-800") t1 in
  let t3 := replace_all gm (re_heading "#")
              (tag "h1" "text-3xl font-extrabold mt-8 mb-4") t2 in
  let t4 := replace_all gm re_item (tag "li" "ml-6") t3 in
  let t5 := replace_all gs re_items
              [TLit ("<ul" ++ Str.cls "list-disc my-2" ++ ">"); TMatch;
               TLit "</ul>"] t4 in
  let t6 := replace_all gm re_rule
              [TLit ("<hr" ++ Str.cls "border-t-2 border-gray-200 my-6" ++ "/>")]
              t5 in
  let t7 := replace_all g re_bold
              [TLit "<strong>"; TGroup 1; TLit "</strong>"] t6 in
  let t8 := replace_all g re_italic [TLit "<em>"; TGroup 1; TLit "</em>"] t7 in
  Str.join Str.nl (map paragraph (Str.split Str.lf t8)).

End Markdown.


(* ====================================================================== *)
(** * Effects: promises, exceptions and the state they run in *)
(* ====================================================================== *)

Module Js.

(** How a call or an awaited promise ends. *)
Inductive Result (E A : Type) : Type :=
| Ok (v : A)
| Err (e : E).
Arguments Ok {E A} v.
Arguments Err {E A} e.

(** A computation over a state [S] that may throw an [E].  A throw keeps the
    state reached: nothing is rolled back. *)
Definition M (S E A : Type) : Type := S -> Result E A * S.

Definition ret {S E A} (v : A) : M S E A := fun s => (Ok v, s).

Definition throw {S E A} (e : E) : M S E A := fun s => (Err e, s).

Definition bind {S E A B} (c : M S E A) (k : A -> M S E B) : M S E B :=
  fun s =>
    match c s with
    | (Ok v, s') => k v s'
    | (Err e, s') => (Err e, s')
    end.

(** A statement that only changes the state. *)
Definition effect {S E} (f : S -> S) : M S E unit := fun s => (Ok tt, f s).

(** [try { body } catch (e) { handler }]. *)
Definition try_catch {S E A} (body : M S E A) (handler : E -> M S E A)
  : M S E A :=
  fun s =>
    match body s with
    | (Ok v, s') => (Ok v, s')
    | (Err e, s') => handler e s'
    end.

(** [try { body } finally { cleanup }]: the cleanup runs however the body
    ends; the body's outcome stands unless the cleanup itself throws. *)
Definition try_finally {S E A} (body : M S E A) (cleanup : M S E unit)
  : M S E A :=
  fun s =>
    match body s with
    | (r, s') =>
        match cleanup s' with
        | (Ok _, s'') => (r, s'')
        | (Err e, s'') => (Err e, s'')
        end
    end.

(** [p.catch(() => v)]. *)
Definition catch_with {S E A} (c : M S E A) (v : A) : M S E A :=
  try_catch c (fun _ => ret v).

(** [await new Promise(resolve => setTimeout(resolve, delay))] in a state
    [S]: the task is suspended for [delay] milliseconds. *)
Class Timer (S : Type) : Type := sleep : Z -> S -> S.

End Js.

Declare Scope js_scope.
Delimit Scope js_scope with js.
Notation "x <- c ;; k" := (Js.bind c (fun x => k))
  (at level 61, c at next level, right associativity) : js_scope.
Notation "c ;; k" := (Js.bind c (fun _ => k))
  (at level 61, right associativity) : js_scope.

(* ====================================================================== *)
(** * [withExponentialBackoff] *)
(* ====================================================================== *)

Module Backoff.
Import Js.

Section Executor.
Context {St E A : Type} `{Timer St}.

(** [Math.pow(2, i) * 1000], the number handed to [setTimeout]: an integer
    for every counter value [i >= 0], taken here without the range limit of
    the number type. *)
Definition delay (i : Z) : Z := 2 ^ i * 1000.

(** The [for] loop from its counter [i] on; [n] bounds the iterations left.
    [maxRetries] is an integer.
    [Ok None] is the function ending without a [return]: its promise
    resolves with [undefined]. *)
Fixpoint loop (fn : M St E A) (maxRetries : Z) (n : nat) (i : Z)
  : M St E (option A) :=
  match n with
  | O => ret None
  | S n' =>
      if (i <? maxRetries)%Z then
        fun s =>
          match fn s with
          | (Ok v, s') => (Ok (Some v), s')                  (* return await fn() *)
          | (Err error, s') =>                               (* catch (error) *)
              if (i =? maxRetries - 1)%Z then (Err error, s')   (* throw error *)
              else loop fn maxRetries n' (i + 1) (sleep (delay i) s')
          end
      else ret None
  end.

Definition withExponentialBackoff (fn : M St E A) (maxRetries : Z)
  : M St E (option A) :=
  loop fn maxRetries (Z.to_nat maxRetries) 0.

End Executor.

(** The default of the second parameter. *)
Definition default_maxRetries : Z := 3.

(** ** Observing the executor

    To count invocations and delays of an arbitrary operation on an arbitrary
    state [St], the state is paired with a trace: each call of the operation
    and each delay adds an entry. *)
Inductive entry : Type :=
| Invoke
| Delay (ms : Z).

Definition traced {St E A} (fn : M St E A) : M (St * list entry) E A :=
  fun st =>
    match fn (fst st) with
    | (r, s') => (r, (s', (snd st ++ [Invoke])%list))
    end.

#[global] Instance traced_timer {St} : Timer (St * list entry) :=
  fun ms st => (fst st, (snd st ++ [Delay ms])%list).

Definition invocations (tr : list entry) : nat :=
  length (filter (fun e => match e with Invoke => true | _ => false end) tr).

(** The state after [k] calls of [fn] in a row. *)
Fixpoint state_after {St E A} (fn : M St E A) (s : St) (k : nat) : St :=
  match k with
  | O => s
  | S k' => snd (fn (state_after fn s k'))
  end.

(** How call number [k] (from 0) of [fn] ends. *)
Definition attempt {St E A} (fn : M St E A) (s : St) (k : nat) : Result E A :=
  fst (fn (state_after fn s k)).

(** The trace of a run whose calls 0 .. k-1 failed and were retried, up to
    and including call [k]. *)
Fixpoint retries (i : Z) (k : nat) : list entry :=
  match k with
  | O => [Invoke]
  | S k' => Invoke :: Delay (2 ^ i * 1000) :: retries (i + 1) k'
  end.

End Backoff.


(* ====================================================================== *)
(** * The browser and the two services, as the script sees them *)
(* ====================================================================== *)

Module Browser.
Import Js.

(** An exception value; the script only ever reads its [message]. *)
Record JsError : Type := mkError { message : string }.

(** A user-selected file. *)
Record File : Type := { fileName : string; fileType : string; bytes : string }.

(** Modelled from the spec: the services' code is not part of the client; the
    JSON bodies have the fields of the two response shapes
    [{ success, ingredients?, error? }] and
    [{ success, recipes?: [{ title, ingredients }], total_found?, error? }].
    A field that is absent reads as [undefined], here [None]; [success] is
    the truthiness of the field. *)
Record Recipe : Type := {
  title : string;
  recipe_ingredients : option (list string)
}.

Record Body : Type := {
  success : bool;
  ingredients : option (list string);
  recipes : option (list Recipe);
  total_found : option Z;
  error : option string
}.

(** The object [{}]. *)
Definition empty_object : Body :=
  {| success := false; ingredients := None; recipes := None;
     total_found := None; error := None |}.

(** What [response.json()] gives: the parsed body, or a rejection when the
    body is not JSON. *)
Inductive JsonOutcome : Type :=
| Parsed (b : Body)
| Unparsable (e : JsError).

Record Response : Type := {
  status : Z;
  statusText : string;
  json : JsonOutcome
}.

(** [response.ok]: the status is in the range 200-299. *)
Definition ok (r : Response) : bool :=
  ((200 <=? status r) && (status r <=? 299))%Z.

(** [fetch] resolves with a response of any status, or rejects when the
    request itself fails (network error). *)
Inductive FetchOutcome : Type :=
| Resolves (r : Response)
| Rejects (e : JsError).

Inductive FormValue : Type :=
| FileEntry (f : File)
| TextEntry (s : string).

Inductive RequestBody : Type :=
| FormData (entries : list (string * FormValue))
| Text (s : string).

Record Request : Type := {
  url : string;
  method : string;
  headers : list (string * string);
  body : RequestBody
}.

(** What [FileReader.readAsDataURL] ends in: [onload] with [reader.result],
    or [onerror]. *)
Inductive ReadOutcome : Type :=
| Loaded (result : string)
| ReadFailed (e : JsError).

(** Everything a run does to the outside, in the order it happens. *)
Inductive Event : Type :=
| EvFetch (req : Request)
| EvTimeout (ms : Z)
| EvDisabled (b : bool)
| EvButtonText (s : string)
| EvOutput (html : string)
| EvConsoleError (msg : string)
| EvReadAsDataURL (f : File).

(** The page: [recipeContent.innerHTML], [recipeButton.disabled], the content
    of [buttonText], and the log of the run. *)
Record World : Type := {
  outputHTML : string;
  disabled : bool;
  buttonText : string;
  log : list Event
}.

(** The inputs of a run: the value of [foodPrompt], [imageInput.files], and
    the answers of the network (to the n-th [fetch] of the run, given its
    request) and of the file reader. *)
Record Env : Type := {
  promptValue : string;
  files : list File;
  network : nat -> Request -> FetchOutcome;
  reader : File -> ReadOutcome
}.

Definition emit (e : Event) (w : World) : World :=
  {| outputHTML := outputHTML w; disabled := disabled w;
     buttonText := buttonText w; log := (log w ++ [e])%list |}.

Definition is_fetch (e : Event) : bool :=
  match e with EvFetch _ => true | _ => false end.

Definition fetches (l : list Event) : list Event := filter is_fetch l.

(** [outputDiv.innerHTML = html]. *)
Definition set_output (html : string) : M World JsError unit :=
  effect (fun w =>
    emit (EvOutput html)
      {| outputHTML := html; disabled := disabled w;
         buttonText := buttonText w; log := log w |}).

(** [button.disabled = b]. *)
Definition set_disabled (b : bool) : M World JsError unit :=
  effect (fun w =>
    emit (EvDisabled b)
      {| outputHTML := outputHTML w; disabled := b;
         buttonText := buttonText w; log := log w |}).

(** [buttonText.innerHTML = s] and [buttonText.textContent = s]. *)
Definition set_buttonText (s : string) : M World JsError unit :=
  effect (fun w =>
    emit (EvButtonText s)
      {| outputHTML := outputHTML w; disabled := disabled w;
         buttonText := s; log := log w |}).

(** [console.error('Analysis error:', error)]. *)
Definition console_error (msg : string) : M World JsError unit :=
  effect (emit (EvConsoleError msg)).

(** [await fetch(url, init)]. *)
Definition fetch (env : Env) (req : Request) : M World JsError Response :=
  fun w =>
    match network env (length (fetches (log w))) req with
    | Resolves r => (Ok r, emit (EvFetch req) w)
    | Rejects e => (Err e, emit (EvFetch req) w)
    end.

(** [await response.json()]. *)
Definition response_json (r : Response) : M World JsError Body :=
  match json r with
  | Parsed b => ret b
  | Unparsable e => throw e
  end.

#[global] Instance world_timer : Timer World :=
  fun ms w => emit (EvTimeout ms) w.

(** [a || b] where [a] is a string or [undefined]. *)
Definition or_else (a : option string) (b : string) : string :=
  match a with
  | Some s => if Str.truthy s then s else b
  | None => b
  end.

(** [`${v}`] for a number or [undefined]. *)
Definition show_number (v : option Z) : string :=
  match v with
  | Some z => Str.of_Z z
  | None => "undefined"
  end.

(** The page before a run: any content, an empty log. *)
Definition page (html : string) (dis : bool) (label : string) : World :=
  {| outputHTML := html; disabled := dis; buttonText := label; log := [] |}.

End Browser.


(* ====================================================================== *)
(** * The markup [getRecipes] writes *)
(* ====================================================================== *)

Module Render.
Import Browser.

(** [l.map((x, idx) => f(x, idx))]. *)
Fixpoint map_idx {A B} (f : A -> nat -> B) (idx : nat) (l : list A) : list B :=
  match l with
  | [] => []
  | x :: l' => f x idx :: map_idx f (S idx) l'
  end.

Definition validation_html : string :=
  "<p" ++ Str.cls "text-red-600 font-medium" ++ ">⚠️ Please enter a prompt or upload an image.</p>".

Definition loading_dot (inner : string) : string :=
  "<span" ++ Str.cls "loading-dot" ++ ">" ++ inner ++ "</span>".

Definition analyzing_label : string :=
  "Analyzing" ++ loading_dot "." ++ loading_dot "." ++ loading_dot ".".

Definition analyzing_html : string :=
  "<div" ++ Str.cls "text-center py-8" ++ "><p" ++ Str.cls "text-lg text-blue-600" ++ ">🔍 Analyzing ingredients...</p></div>".

Definition no_ingredients_html : string :=
  "<p" ++ Str.cls "text-yellow-600" ++ ">No ingredients detected. Try a different image or prompt.</p>".

(** [ingredientsList.map(ingredient => `<li ...>${ingredient}</li>`).join('')]. *)
Definition ingredientsHTML (ingredientsList : list string) : string :=
  String.concat ""
    (map (fun ingredient =>
            "<li" ++ Str.cls "py-2 px-3 bg-gray-50 rounded" ++ ">" ++ ingredient ++ "</li>")
       ingredientsList).

(** The intermediate state: ingredients found, recipes being looked up. *)
Definition detected_html (ingredientsList : list string) : string :=
  "
                <div" ++ Str.cls "space-y-4" ++ ">
                    <h3" ++ Str.cls "text-xl font-semibold text-gray-800" ++ ">Detected Ingredients (" ++ Str.of_nat (length ingredientsList) ++ "):</h3>
                    <ul" ++ Str.cls "space-y-2" ++ ">
                        " ++ ingredientsHTML ingredientsList ++ "
                    </ul>
                    <p" ++ Str.cls "text-blue-600 font-medium" ++ ">Finding recipes...</p>
                </div>
            ".

Definition finding_label : string :=
  "Finding Recipes " ++ loading_dot "" ++ loading_dot "" ++ loading_dot "".

Definition no_recipes_html (ingredientsList : list string) : string :=
  "
                        <div" ++ Str.cls "space-y-4" ++ ">
                            <h3" ++ Str.cls "text-xl font-semibold text-gray-800" ++ ">Detected Ingredients (" ++ Str.of_nat (length ingredientsList) ++ "):</h3>
                            <ul" ++ Str.cls "space-y-2" ++ ">
                                " ++ ingredientsHTML ingredientsList ++ "
                            </ul>
                            <p" ++ Str.cls "text-yellow-600 font-medium mt-4" ++ ">No recipes found matching your ingredients. Try adding more common ingredients!</p>
                        </div>
                    ".

(** [recipeIngredients.length > 8 ? recipeIngredients.length - 8 : 0]. *)
Definition moreCount (recipeIngredients : list string) : nat :=
  if (8 <? length recipeIngredients)%nat then length recipeIngredients - 8 else 0.

Definition ingredient_line (ing : string) : string :=
  "<li" ++ Str.cls "text-sm text-gray-600" ++ ">• " ++ ing ++ "</li>".

Definition more_line (n : nat) : string :=
  "<li" ++ Str.cls "text-sm text-gray-500 italic" ++ ">+ " ++ Str.of_nat n ++ " more ingredients</li>".

(** The callback of [recipes.map((recipe, idx) => ...)]: one recipe card. *)
Definition recipe_card (recipe : Recipe) (idx : nat) : string :=
  let recipeIngredients :=
    match recipe_ingredients recipe with Some l => l | None => [] end in
  let ingredientsListHTML :=
    String.concat "" (map ingredient_line (firstn 8 recipeIngredients)) in
  "
                            <div" ++ Str.cls "border border-gray-200 rounded-lg p-4 bg-white shadow-sm" ++ ">
                                <h4" ++ Str.cls "text-lg font-semibold text-blue-700 mb-2" ++ ">" ++ Str.of_nat (idx + 1) ++ ". " ++ title recipe ++ "</h4>
                                <ul" ++ Str.cls "space-y-1" ++ ">
                                    " ++ ingredientsListHTML ++ "
                                    " ++ (if (0 <? moreCount recipeIngredients)%nat
                                          then more_line (moreCount recipeIngredients)
                                          else "") ++ "
                                </ul>
                            </div>
                        ".

Definition recipesHTML (recipes : list Recipe) : string :=
  String.concat "" (map_idx recipe_card 0 recipes).

Definition recipes_html (ingredientsList : list string)
  (recipes : list Recipe) (total_found : option Z) : string :=
  "
                        <div" ++ Str.cls "space-y-4" ++ ">
                            <h3" ++ Str.cls "text-xl font-semibold text-gray-800" ++ ">Your Ingredients (" ++ Str.of_nat (length ingredientsList) ++ "):</h3>
                            <ul" ++ Str.cls "space-y-2 mb-4" ++ ">
                                " ++ ingredientsHTML ingredientsList ++ "
                            </ul>
                            <h3" ++ Str.cls "text-xl font-semibold text-green-700" ++ ">Top 5 Recipes (from " ++ show_number total_found ++ " matches):</h3>
                            <div" ++ Str.cls "space-y-3" ++ ">
                                " ++ recipesHTML recipes ++ "
                            </div>
                        </div>
                    ".

Definition error_html (msg : string) : string :=
  "
            <div" ++ Str.cls "text-red-600 p-4 bg-red-50 rounded-lg" ++ ">
                <p" ++ Str.cls "font-medium mb-2" ++ ">❌ Error: " ++ msg ++ "</p>
                <p" ++ Str.cls "text-sm" ++ ">Troubleshooting tips:</p>
                <ul" ++ Str.cls "text-sm list-disc ml-4 mt-1" ++ ">
                    <li>Make sure your Vercel backend is deployed</li>
                    <li>Check that API_URL points to the correct endpoint</li>
                    <li>Verify CORS is configured correctly in your backend</li>
                    <li>Check browser console for detailed error messages</li>
                </ul>
            </div>
        ".

(** The ways a run ends, and what the page shows for each. *)
Inductive PipelineOutcome : Type :=
| ValidationFailed
| IngredientsEmpty
| RecipesEmpty (ingredientsList : list string)
| Success (ingredientsList : list string) (recipes : list Recipe)
    (total_found : option Z)
| Failed (reason : string).

Definition render (o : PipelineOutcome) : string :=
  match o with
  | ValidationFailed => validation_html
  | IngredientsEmpty => no_ingredients_html
  | RecipesEmpty l => no_recipes_html l
  | Success l rs n => recipes_html l rs n
  | Failed reason => error_html reason
  end.

(** The run has ended in [o]: this is what the page shows. *)
Definition Terminal (w : World) (o : PipelineOutcome) : Prop :=
  outputHTML w = render o.

End Render.


(* ====================================================================== *)
(** * [fileToBase64] and [getRecipes] *)
(* ====================================================================== *)

Module Controller.
Import Js Browser Render Backoff.
Open Scope js_scope.

Definition API_URL : string :=
  "https://ingredient-analyzer-beta.vercel.app/api/analyze".

Definition recipesUrl : string := "http://localhost:5000/get_recipes".

(** [fileToBase64(file)]: the promise resolves with
    [reader.result.split(',')[1]] ([undefined], here [None], when the result
    has no comma) and rejects when the read fails. *)
Definition fileToBase64 (env : Env) (file : File)
  : M World JsError (option string) :=
  fun w =>
    let w' := emit (EvReadAsDataURL file) w in
    match reader env file with
    | Loaded result => (Ok (nth_error (Str.split "," result) 1), w')
    | ReadFailed e => (Err e, w')
    end.

(** The [FormData] of the first request: [image] when a file is selected,
    then [prompt] when the trimmed prompt is not empty. *)
Definition formData (imageFile : option File) (prompt : string)
  : list (string * FormValue) :=
  (match imageFile with
   | Some f => [("image", FileEntry f)]
   | None => []
   end ++
   if Str.truthy prompt then [("prompt", TextEntry prompt)] else [])%list.

Definition analyze_request (imageFile : option File) (prompt : string)
  : Request :=
  {| url := API_URL; method := "POST"; headers := [];
     body := FormData (formData imageFile prompt) |}.

(** [JSON.stringify({})]. *)
Definition stringify_empty_object : string := "{}".

Definition recipes_request : Request :=
  {| url := recipesUrl; method := "POST";
     headers := [("Content-Type", "application/json")];
     body := Text stringify_empty_object |}.

(** Reading [.ok] of [undefined]. *)
Definition undefined_ok : JsError :=
  mkError "Cannot read properties of undefined (reading 'ok')".

(** The second half of the [try] block: from "Now get recipes using those
    ingredients" on. *)
Definition find_recipes (env : Env) (ingredientsList : list string)
  : M World JsError unit :=
  set_buttonText finding_label ;;
  recipesResponse <-
    withExponentialBackoff (fetch env recipes_request) default_maxRetries ;;
  match recipesResponse with
  | None => throw undefined_ok
  | Some recipesResponse =>
      if negb (ok recipesResponse) then
        throw (mkError ("Recipe fetch failed: " ++ statusText recipesResponse))
      else
        recipesResult <- response_json recipesResponse ;;
        match success recipesResult, recipes recipesResult with
        | true, Some recipes =>
            if (length recipes =? 0)%nat
            then set_output (no_recipes_html ingredientsList)
            else set_output
                   (recipes_html ingredientsList recipes
                      (total_found recipesResult))
        | _, _ =>
            throw (mkError (or_else (error recipesResult)
                              "Failed to get recipes"))
        end
  end.

(** The [try] block after its first [await]: what is done with the response
    of the ingredient service. *)
Definition ingredients_received (env : Env) (response : Response)
  : M World JsError unit :=
  if negb (ok response) then
    errorData <- catch_with (response_json response) empty_object ;;
    throw (mkError (or_else (error errorData)
                      ("Server error: " ++ Str.of_Z (status response) ++ " "
                       ++ statusText response)))
  else
    result <- response_json response ;;
    match success result, ingredients result with
    | true, Some ingredientsList =>
        if (length ingredientsList =? 0)%nat
        then set_output no_ingredients_html              (* return *)
        else
          set_output (detected_html ingredientsList) ;;
          find_recipes env ingredientsList
    | _, _ =>
        throw (mkError (or_else (error result) "Unknown error from backend"))
    end.

(** The [try] block. *)
Definition analyze (env : Env) (imageFile : option File) (prompt : string)
  : M World JsError unit :=
  response <- fetch env (analyze_request imageFile prompt) ;;
  ingredients_received env response.

(** The [catch] block. *)
Definition report (error : JsError) : M World JsError unit :=
  console_error (message error) ;;
  set_output (error_html (message error)).

(** The [finally] block. *)
Definition reset_button : M World JsError unit :=
  set_disabled false ;;
  set_buttonText "Get Recipes".

(** [getRecipes()].  A [return] ends the function: the one in the validation
    test skips everything below it; the one inside [try] ends the [try]
    block, after which [finally] runs and the function ends. *)
Definition getRecipes (env : Env) : M World JsError unit :=
  let prompt := Str.trim (promptValue env) in
  let imageFile := hd_error (files env) in
  match Str.truthy prompt, imageFile with
  | false, None =>                                    (* !prompt && !imageFile *)
      set_output validation_html                      (* return *)
  | _, _ =>
      set_disabled true ;;
      set_buttonText analyzing_label ;;
      set_output analyzing_html ;;
      try_finally
        (try_catch (analyze env imageFile prompt) report)
        reset_button
  end.

(** One run on a page: how the call ends and the page it leaves. *)
Definition run (env : Env) (w : World) : Result JsError unit * World :=
  getRecipes env w.

End Controller.


(* ====================================================================== *)
(** * [displayFileName] *)
(* ====================================================================== *)

Module FileDisplay.
Import Browser.

(** [file.size]: the number of bytes of the file. *)
Definition size (f : File) : nat := String.length (bytes f).

(** [(n / 1024).toFixed(2)], counted in hundredths.  [n / 1024] is exact for
    a byte count (a division by a power of two), and [toFixed(2)] takes the
    integer [q] with [q / 100] nearest to it, the larger one at a tie: [q] is
    [25 n / 256] rounded half up. *)
Definition hundredths (n : nat) : nat := (25 * n + 128) / 256.

Definition two_digits (k : nat) : string :=
  (if (k <? 10)%nat then "0" else "") ++ Str.of_nat k.

Definition toFixed2 (q : nat) : string :=
  Str.of_nat (q / 100) ++ "." ++ two_digits (q mod 100).

(** The text of the two elements the function writes. *)
Record Labels : Type := { fileNameDisplay : string; imageStatus : string }.

(** [displayFileName(input)], given [input.files]. *)
Definition displayFileName (selected : list File) : Labels :=
  match hd_error selected with
  | Some file =>
      {| fileNameDisplay := fileName file;
         imageStatus :=
           "File selected: " ++ fileName file ++ " ("
           ++ toFixed2 (hundredths (size file)) ++ " KB)" |}
  | None =>
      {| fileNameDisplay := "Upload/Capture Photo";
         imageStatus := "No image selected." |}
  end.

End FileDisplay.

(* ====================================================================== *)
(** * The connection test run when the page has loaded *)
(* ====================================================================== *)

Module Health.
Import Js Browser.

(** [s.replace(pat, rep)] for a string pattern: the first occurrence only;
    [rep] has no [$]. *)
Definition replace_first (pat rep s : string) : string :=
  match String.index 0 pat s with
  | Some i =>
      String.substring 0 i s ++ rep
      ++ String.substring (i + String.length pat)
           (String.length s - (i + String.length pat)) s
  | None => s
  end.

(** [API_URL.replace('/analyze', '/health')]. *)
Definition healthUrl : string :=
  replace_first "/analyze" "/health" Controller.API_URL.

(** What the listener does to the outside: one request (a plain [fetch(url)],
    so a GET without body) and console messages. *)
Inductive ProbeEvent : Type :=
| Requested (url : string)
| ConsoleLog (msg : string)
| ConsoleWarn (label msg : string).

(** The listener of [DOMContentLoaded]; [answer] is what the network gives
    for a URL. *)
Definition probe (answer : string -> FetchOutcome)
  : M (list ProbeEvent) JsError unit :=
  try_catch
    (bind
       (fun s =>
          match answer healthUrl with
          | Resolves r => (Ok r, (s ++ [Requested healthUrl])%list)
          | Rejects e => (Err e, (s ++ [Requested healthUrl])%list)
          end)
       (fun response =>
          if ok response
          then effect (fun s =>
                 (s ++ [ConsoleLog "✅ Backend API is reachable"])%list)
          else ret tt))
    (fun error =>
       effect (fun s =>
         (s ++ [ConsoleWarn "⚠️ Could not reach backend API:"
                  (message error)])%list)).

End Health.

(* ====================================================================== *)
(** * Properties of the backoff executor *)
(* ====================================================================== *)

Module BackoffFacts.
Import Js Backoff.

Section Facts.
Context {St E A : Type}.
Variable fn : M St E A.

Lemma state_after_shift (s : St) (k : nat) :
  state_after fn s (S k) = state_after fn (snd (fn s)) k.
Proof.
  induction k as [|k IH]; [reflexivity|].
  change (snd (fn (state_after fn s (S k)))
          = snd (fn (state_after fn (snd (fn s)) k))).
  now rewrite IH.
Qed.

Lemma attempt_shift (s : St) (k : nat) :
  attempt fn s (S k) = attempt fn (snd (fn s)) k.
Proof. unfold attempt. now rewrite state_after_shift. Qed.

Lemma traced_step (s : St) (tr : list entry) :
  traced fn (s, tr) = (fst (fn s), (snd (fn s), (tr ++ [Invoke])%list)).
Proof. unfold traced; simpl. now destruct (fn s). Qed.

Lemma invocations_app (l1 l2 : list entry) :
  invocations (l1 ++ l2) = invocations l1 + invocations l2.
Proof. unfold invocations. now rewrite filter_app, length_app. Qed.

Lemma invocations_retries (i : Z) (k : nat) :
  invocations (retries i k) = S k.
Proof.
  revert i; induction k as [|k IH]; intros i; [reflexivity|].
  change (invocations (retries i (S k)))
    with (S (invocations (retries (i + 1) k))).
  now rewrite IH.
Qed.

(** The loop, entered at counter [i] with the iterations it still needs:
    it stops at some call [k] (counted from the entry), every call before
    [k] failed and was followed by its delay, and call [k] either succeeded
    or was the last one allowed. *)
Lemma loop_traced (maxRetries : Z) :
  forall (n : nat) (i : Z) (s : St) (tr : list entry),
    (0 <= i < maxRetries)%Z ->
    n = Z.to_nat (maxRetries - i) ->
    exists k : nat,
      (i + Z.of_nat k < maxRetries)%Z /\
      (forall j, j < k -> exists e, attempt fn s j = Err e) /\
      snd (snd (loop (traced fn) maxRetries n i (s, tr)))
        = (tr ++ retries i k)%list /\
      fst (snd (loop (traced fn) maxRetries n i (s, tr)))
        = state_after fn s (S k) /\
      ((exists v, attempt fn s k = Ok v /\
                  fst (loop (traced fn) maxRetries n i (s, tr)) = Ok (Some v))
       \/
       ((i + Z.of_nat k = maxRetries - 1)%Z /\
        exists e, attempt fn s k = Err e /\
                  fst (loop (traced fn) maxRetries n i (s, tr)) = Err e)).
Proof.
  induction n as [|n IH]; intros i s tr Hi Hn; [lia|].
  cbn [loop].
  destruct (Z.ltb_spec i maxRetries) as [_|]; [|lia].
  rewrite traced_step.
  destruct (fn s) as [[v|e] s1] eqn:Hfn; cbn [fst snd].
  - exists 0. repeat split.
    + lia.
    + intros j Hj; lia.
    + cbn [state_after]. now rewrite Hfn.
    + left. exists v. unfold attempt; cbn [state_after]. now rewrite Hfn.
  - destruct (Z.eqb_spec i (maxRetries - 1)) as [Hlast|Hmore].
    + exists 0. repeat split.
      * lia.
      * intros j Hj; lia.
      * cbn [state_after]. now rewrite Hfn.
      * right. split; [lia|]. exists e.
        unfold attempt; cbn [state_after]. now rewrite Hfn.
    + destruct (IH (i + 1)%Z s1 ((tr ++ [Invoke]) ++ [Delay (delay i)])%list)
        as (k & Hk & Hfail & Htr & Hst & Hend); [lia|lia|].
      change (sleep (delay i) (s1, (tr ++ [Invoke])%list))
        with (s1, ((tr ++ [Invoke]) ++ [Delay (delay i)])%list).
      assert (Hs1 : s1 = snd (fn s)) by now rewrite Hfn.
      exists (S k). repeat split.
      * lia.
      * intros [|j] Hj.
        -- exists e. unfold attempt; cbn [state_after]. now rewrite Hfn.
        -- rewrite attempt_shift, <- Hs1. apply Hfail. lia.
      * rewrite Htr. cbn [retries]. unfold delay.
        now rewrite <- !app_assoc.
      * rewrite Hst, (state_after_shift s (S k)). now rewrite Hs1.
      * rewrite attempt_shift, <- Hs1.
        destruct Hend as [(v & Hv & Hr)|(Hlast & e' & He' & Hr)].
        -- left. now exists v.
        -- right. split; [lia|]. now exists e'.
Qed.

End Facts.

(** The bound [n] of [loop] never cuts the loop short: from counter [i] on,
    any bound of at least [maxRetries - i] gives the same run, so the loop
    only ever ends by its own test, a [return] or a [throw]. *)
Section Bound.
Context {St E A : Type} `{Timer St}.
Variable fn : M St E A.

Lemma loop_bound_irrelevant (maxRetries : Z) :
  forall (n m : nat) (i : Z) (s : St),
    Z.to_nat (maxRetries - i) <= n ->
    Z.to_nat (maxRetries - i) <= m ->
    loop fn maxRetries n i s = loop fn maxRetries m i s.
Proof.
  induction n as [|n IH]; intros m i s Hn Hm.
  - destruct m as [|m]; [reflexivity|].
    cbn [loop]. destruct (Z.ltb_spec i maxRetries); [lia|reflexivity].
  - destruct m as [|m].
    + cbn [loop]. destruct (Z.ltb_spec i maxRetries); [lia|reflexivity].
    + cbn [loop]. destruct (Z.ltb_spec i maxRetries); [|reflexivity].
      destruct (fn s) as [[v|e] s1]; [reflexivity|].
      destruct (i =? maxRetries - 1)%Z; [reflexivity|].
      apply IH; lia.
Qed.

End Bound.

(** Where the entries of [retries] stand: call [j] at place [2j], its delay
    right after it. *)
Lemma retries_nth (k : nat) :
  forall (i : Z) (j : nat),
    j < k ->
    nth_error (retries i k) (2 * j) = Some Invoke /\
    nth_error (retries i k) (2 * j + 1)
      = Some (Delay (2 ^ (i + Z.of_nat j) * 1000)).
Proof.
  induction k as [|k IH]; intros i j Hj; [lia|].
  destruct j as [|j].
  - cbn. now rewrite Z.add_0_r.
  - replace (2 * S j) with (S (S (2 * j))) by lia.
    cbn [retries Nat.add nth_error].
    destruct (IH (i + 1)%Z j) as [H1 H2]; [lia|].
    split; [exact H1|].
    rewrite H2.
    now replace (i + Z.of_nat (S j))%Z with (i + 1 + Z.of_nat j)%Z
      by lia.
Qed.

Lemma retries_last (k : nat) :
  forall i : Z,
    nth_error (retries i k) (2 * k) = Some Invoke /\
    length (retries i k) = 2 * k + 1.
Proof.
  induction k as [|k IH]; intros i; [now split|].
  replace (2 * S k) with (S (S (2 * k))) by lia.
  cbn [retries nth_error length].
  destruct (IH (i + 1)%Z) as [H1 H2]. split; [exact H1|lia].
Qed.

End BackoffFacts.


(* ====================================================================== *)
(** * What a run may do: a logic of emitted events *)
(* ====================================================================== *)

Module Emits.
Import Js Browser Render Backoff Controller.

(** [emits Q c]: whatever the state, [c] only adds events to the log, and
    every event it adds satisfies [Q]. *)
Definition emits {A} (Q : Event -> Prop) (c : M World JsError A) : Prop :=
  forall w, exists l, log (snd (c w)) = (log w ++ l)%list /\ Forall Q l.

Section Rules.
Variable Q : Event -> Prop.

Lemma emits_ret {A} (v : A) : emits Q (ret v).
Proof. intros w; exists []. now rewrite app_nil_r. Qed.

Lemma emits_throw {A} (e : JsError) : emits Q (@throw World JsError A e).
Proof. intros w; exists []. now rewrite app_nil_r. Qed.

Lemma emits_bind {A B} (c : M World JsError A) (k : A -> M World JsError B) :
  emits Q c -> (forall v, emits Q (k v)) -> emits Q (bind c k).
Proof.
  intros Hc Hk w. unfold bind.
  destruct (Hc w) as (l1 & E1 & F1).
  destruct (c w) as [[v|e] w1]; cbn [snd] in *.
  - destruct (Hk v w1) as (l2 & E2 & F2).
    exists (l1 ++ l2)%list. split.
    + now rewrite E2, E1, app_assoc.
    + now apply Forall_app.
  - now exists l1.
Qed.

Lemma emits_try_catch {A} (c : M World JsError A)
  (h : JsError -> M World JsError A) :
  emits Q c -> (forall e, emits Q (h e)) -> emits Q (try_catch c h).
Proof.
  intros Hc Hh w. unfold try_catch.
  destruct (Hc w) as (l1 & E1 & F1).
  destruct (c w) as [[v|e] w1]; cbn [snd] in *.
  - now exists l1.
  - destruct (Hh e w1) as (l2 & E2 & F2).
    exists (l1 ++ l2)%list. split.
    + now rewrite E2, E1, app_assoc.
    + now apply Forall_app.
Qed.

Lemma emits_try_finally {A} (c : M World JsError A)
  (f : M World JsError unit) :
  emits Q c -> emits Q f -> emits Q (try_finally c f).
Proof.
  intros Hc Hf w. unfold try_finally.
  destruct (Hc w) as (l1 & E1 & F1).
  destruct (c w) as [r w1]; cbn [snd] in *.
  destruct (Hf w1) as (l2 & E2 & F2).
  exists (l1 ++ l2)%list. split.
  - destruct (f w1) as [[u|e] w2]; cbn [snd] in *;
      now rewrite E2, E1, app_assoc.
  - now apply Forall_app.
Qed.

Lemma emits_emit (ev : Event) (f : World -> World) :
  (forall w, log (f w) = log w) -> Q ev ->
  emits Q (effect (fun w => emit ev (f w))).
Proof.
  intros Hf Hq w. exists [ev]. cbn. rewrite Hf. split; [reflexivity|].
  now constructor.
Qed.

Lemma emits_set_output (html : string) :
  Q (EvOutput html) -> emits Q (set_output html).
Proof. intros H. now apply emits_emit. Qed.

Lemma emits_set_disabled (b : bool) :
  Q (EvDisabled b) -> emits Q (set_disabled b).
Proof. intros H. now apply emits_emit. Qed.

Lemma emits_set_buttonText (s : string) :
  Q (EvButtonText s) -> emits Q (set_buttonText s).
Proof. intros H. now apply emits_emit. Qed.

Lemma emits_console_error (msg : string) :
  Q (EvConsoleError msg) -> emits Q (console_error msg).
Proof.
  intros H. apply (emits_emit (EvConsoleError msg) (fun w => w)); auto.
Qed.

Lemma emits_fetch (env : Env) (req : Request) :
  Q (EvFetch req) -> emits Q (fetch env req).
Proof.
  intros H w. exists [EvFetch req]. unfold fetch.
  destruct (network env _ req); cbn; (split; [reflexivity|now constructor]).
Qed.

Lemma emits_response_json (r : Response) : emits Q (response_json r).
Proof.
  unfold response_json. destruct (json r); [apply emits_ret|apply emits_throw].
Qed.

Lemma emits_loop {A} (fn : M World JsError A) (maxRetries : Z) :
  emits Q fn -> (forall ms, Q (EvTimeout ms)) ->
  forall n i, emits Q (loop fn maxRetries n i).
Proof.
  intros Hfn Ht. induction n as [|n IH]; intros i; [apply emits_ret|].
  cbn [loop]. destruct (i <? maxRetries)%Z; [|apply emits_ret].
  intros w. destruct (Hfn w) as (l1 & E1 & F1).
  destruct (fn w) as [[v|e] w1]; cbn [snd] in *; [now exists l1|].
  destruct (i =? maxRetries - 1)%Z; [now exists l1|].
  destruct (IH (i + 1)%Z (sleep (delay i) w1)) as (l2 & E2 & F2).
  exists (l1 ++ EvTimeout (delay i) :: l2)%list. split.
  - rewrite E2. cbn. rewrite E1. now rewrite <- !app_assoc.
  - apply Forall_app. split; [assumption|]. constructor; auto.
Qed.

Lemma emits_withExponentialBackoff {A} (fn : M World JsError A)
  (maxRetries : Z) :
  emits Q fn -> (forall ms, Q (EvTimeout ms)) ->
  emits Q (withExponentialBackoff fn maxRetries).
Proof. intros; now apply emits_loop. Qed.

End Rules.

(** The events of a run of [getRecipes]: page updates, console messages,
    delays, and requests that are one of the two the script builds.  No file
    is ever read. *)
Definition allowed (env : Env) (e : Event) : Prop :=
  match e with
  | EvFetch req =>
      req = analyze_request (hd_error (files env))
              (Str.trim (promptValue env))
      \/ req = recipes_request
  | EvReadAsDataURL _ => False
  | _ => True
  end.

Lemma emits_find_recipes (env : Env) (l : list string) :
  emits (allowed env) (find_recipes env l).
Proof.
  unfold find_recipes.
  apply emits_bind; [now apply emits_set_buttonText|intros _].
  apply emits_bind.
  - apply emits_withExponentialBackoff; [|now intros].
    apply emits_fetch. now right.
  - intros [r|]; [|apply emits_throw].
    destruct (negb (ok r)); [apply emits_throw|].
    apply emits_bind; [apply emits_response_json|intros b].
    destruct (success b); [|apply emits_throw].
    destruct (recipes b) as [rs|]; [|apply emits_throw].
    destruct (length rs =? 0)%nat; now apply emits_set_output.
Qed.

Lemma emits_ingredients_received (env : Env) (r : Response) :
  emits (allowed env) (ingredients_received env r).
Proof.
  unfold ingredients_received.
  destruct (negb (ok r)).
  - apply emits_bind; [|intros; apply emits_throw].
    apply emits_try_catch; [apply emits_response_json|intros; apply emits_ret].
  - apply emits_bind; [apply emits_response_json|intros b].
    destruct (success b); [|apply emits_throw].
    destruct (ingredients b) as [l|]; [|apply emits_throw].
    destruct (length l =? 0)%nat; [now apply emits_set_output|].
    apply emits_bind; [now apply emits_set_output|intros _].
    apply emits_find_recipes.
Qed.

Lemma emits_analyze (env : Env) :
  emits (allowed env)
    (analyze env (hd_error (files env)) (Str.trim (promptValue env))).
Proof.
  unfold analyze.
  apply emits_bind; [apply emits_fetch; now left|intros r].
  apply emits_ingredients_received.
Qed.

(** The [try] block starts with the request to the ingredient service. *)
Lemma analyze_log (env : Env) (w : World) :
  exists l,
    log (snd (analyze env (hd_error (files env))
                (Str.trim (promptValue env)) w))
    = (log w
       ++ EvFetch (analyze_request (hd_error (files env))
                     (Str.trim (promptValue env))) :: l)%list
    /\ Forall (allowed env) l.
Proof.
  unfold analyze, bind, fetch.
  destruct (network env _ _) as [r|e].
  - destruct (emits_ingredients_received env r
                (emit (EvFetch (analyze_request (hd_error (files env))
                                  (Str.trim (promptValue env)))) w))
      as (l & E & F).
    exists l. split; [|exact F].
    destruct (ingredients_received env r _) as [res w1]; cbn [snd] in *.
    rewrite E. cbn. now rewrite <- app_assoc.
  - exists []. split; [reflexivity|constructor].
Qed.

Lemma emits_report (env : Env) (e : JsError) : emits (allowed env) (report e).
Proof.
  apply emits_bind; [now apply emits_console_error|intros _].
  now apply emits_set_output.
Qed.

Lemma emits_reset_button (env : Env) : emits (allowed env) reset_button.
Proof.
  apply emits_bind; [now apply emits_set_disabled|intros _].
  now apply emits_set_buttonText.
Qed.

Lemma emits_getRecipes (env : Env) : emits (allowed env) (getRecipes env).
Proof.
  unfold getRecipes.
  assert (H : emits (allowed env)
                (set_disabled true ;; set_buttonText analyzing_label ;;
                 set_output analyzing_html ;;
                 try_finally
                   (try_catch
                      (analyze env (hd_error (files env))
                         (Str.trim (promptValue env))) report)
                   reset_button)%js).
  { apply emits_bind; [now apply emits_set_disabled|intros _].
    apply emits_bind; [now apply emits_set_buttonText|intros _].
    apply emits_bind; [now apply emits_set_output|intros _].
    apply emits_try_finally; [|apply emits_reset_button].
    apply emits_try_catch; [apply emits_analyze|apply emits_report]. }
  destruct (Str.truthy _); [exact H|].
  destruct (hd_error _); [exact H|].
  now apply emits_set_output.
Qed.

(** On a page with an empty log, every event of the run is an allowed one. *)
Lemma run_allowed (env : Env) (html : string) (dis : bool) (label : string) :
  Forall (allowed env) (log (snd (run env (page html dis label)))).
Proof.
  destruct (emits_getRecipes env (page html dis label)) as (l & E & F).
  unfold run. now rewrite E.
Qed.

End Emits.


(* ====================================================================== *)
(** * The backoff executor: claims *)
(* ====================================================================== *)

Import Js Backoff BackoffFacts.

(** C3.  For every operation and every maxAttempts >= 1, the executor stops
    at some call k < maxAttempts: it has then invoked the operation k+1
    times, so at most maxAttempts times; every call before k failed and was
    followed by a delay of exactly 2^j * 1000 ms (j its 0-based number)
    before the next call; and call k either succeeded, then its value is
    returned (the first success), or failed as call maxAttempts-1, then its
    error is thrown unchanged. *)
Theorem withExponentialBackoff_attempts
  {St E A : Type} (fn : M St E A) (maxAttempts : Z) (s : St) :
  (1 <= maxAttempts)%Z ->
  let out := withExponentialBackoff (traced fn) maxAttempts (s, []) in
  let tr := snd (snd out) in
  exists k : nat,
    (Z.of_nat k < maxAttempts)%Z /\
    invocations tr = S k /\
    (Z.of_nat (invocations tr) <= maxAttempts)%Z /\
    length tr = 2 * k + 1 /\
    (forall j, j < k ->
       (exists e, attempt fn s j = Err e) /\
       nth_error tr (2 * j) = Some Invoke /\
       nth_error tr (2 * j + 1) = Some (Delay (2 ^ Z.of_nat j * 1000))) /\
    nth_error tr (2 * k) = Some Invoke /\
    fst (snd out) = state_after fn s (S k) /\
    ((exists v, attempt fn s k = Ok v /\ fst out = Ok (Some v))
     \/
     (Z.of_nat k = (maxAttempts - 1)%Z /\
      exists e, attempt fn s k = Err e /\ fst out = Err e)).
Proof.
  intros Hmax out tr.
  destruct (loop_traced fn maxAttempts (Z.to_nat maxAttempts) 0 s [])
    as (k & Hk & Hfail & Htr & Hst & Hend); [lia|f_equal; lia|].
  fold (withExponentialBackoff (traced fn) maxAttempts) in Htr, Hst, Hend.
  fold out in Htr, Hst, Hend. fold tr in Htr.
  cbn [app] in Htr.
  exists k. rewrite Htr, invocations_retries.
  destruct (retries_last k 0) as [Hlast Hlen].
  split; [lia|]. split; [reflexivity|]. split; [lia|].
  split; [exact Hlen|]. split; [|split; [exact Hlast|split; [exact Hst|]]].
  - intros j Hj. split; [now apply Hfail|].
    destruct (retries_nth k 0 j Hj) as [H1 H2].
    split; [exact H1|]. now rewrite H2, Z.add_0_l.
  - destruct Hend as [?|(Hl & ?)]; [now left|right]. split; [lia|assumption].
Qed.

(** An operation that fails twice, then succeeds: its state counts the calls. *)
Definition flaky : M nat string nat :=
  fun calls =>
    (if (calls <? 2)%nat then Err "service down" else Ok calls,
     S calls).

Lemma withExponentialBackoff_attempts_witness :
  (1 <= 3)%Z /\
  exists k : nat,
    invocations
      (snd (snd (withExponentialBackoff (traced flaky) 3 (0, []))))
    = S k.
Proof.
  split; [lia|].
  destruct (withExponentialBackoff_attempts flaky 3 0 ltac:(lia))
    as (k & _ & Hk & _).
  exists k. exact Hk.
Defined.

(** The delays of three failed calls, and the run of [flaky] in full. *)
Example backoff_delays_1000_2000_4000 :
  retries 0 3
  = [Invoke; Delay 1000; Invoke; Delay 2000; Invoke; Delay 4000; Invoke].
Proof. reflexivity. Qed.

Example flaky_third_call_succeeds :
  withExponentialBackoff (traced flaky) 3 (0, [])
  = (Ok (Some 2), (3, [Invoke; Delay 1000; Invoke; Delay 2000; Invoke])).
Proof. reflexivity. Qed.

(** C10.  With maxAttempts 0 or negative the loop body never runs: the
    result is [undefined], the state is the one the call started in, and the
    operation is not invoked. *)
Theorem withExponentialBackoff_no_attempts
  {St E A : Type} `{Timer St} (fn : M St E A) (maxAttempts : Z) (s : St) :
  (maxAttempts <= 0)%Z ->
  withExponentialBackoff fn maxAttempts s = (Ok None, s) /\
  withExponentialBackoff (traced fn) maxAttempts (s, []) = (Ok None, (s, [])) /\
  invocations
    (snd (snd (withExponentialBackoff (traced fn) maxAttempts (s, [])))) = 0.
Proof.
  intros Hmax. unfold withExponentialBackoff.
  replace (Z.to_nat maxAttempts) with 0 by lia.
  repeat split.
Qed.

Lemma withExponentialBackoff_no_attempts_witness :
  (0 <= 0)%Z /\
  withExponentialBackoff (traced flaky) 0 (0, []) = (Ok None, (0, [])).
Proof.
  split; [lia|].
  exact (proj1 (withExponentialBackoff_no_attempts
                  (traced flaky) 0 (0, []) ltac:(lia))).
Defined.


(* ====================================================================== *)
(** * Runs of [getRecipes] *)
(* ====================================================================== *)

Module RunFacts.
Import Browser Render Controller Emits.
Open Scope js_scope.

(** The validation test lets the run through: [!(!prompt && !imageFile)]. *)
Definition passes_validation (env : Env) : bool :=
  Str.truthy (Str.trim (promptValue env))
  || match hd_error (files env) with Some _ => true | None => false end.

(** The first request of the run of [env]. *)
Definition first_request (env : Env) : Request :=
  analyze_request (hd_error (files env)) (Str.trim (promptValue env)).

Definition is_timeout (e : Event) : bool :=
  match e with EvTimeout _ => true | _ => false end.

Definition timeouts (l : list Event) : list Event := filter is_timeout l.

Lemma getRecipes_valid (env : Env) :
  passes_validation env = true ->
  getRecipes env
  = (set_disabled true ;;
     set_buttonText analyzing_label ;;
     set_output analyzing_html ;;
     try_finally
       (try_catch
          (analyze env (hd_error (files env)) (Str.trim (promptValue env)))
          report)
       reset_button).
Proof.
  unfold passes_validation, getRecipes.
  destruct (Str.truthy _); [reflexivity|].
  destruct (hd_error _); [reflexivity|discriminate].
Qed.

Lemma getRecipes_invalid (env : Env) :
  passes_validation env = false ->
  getRecipes env = set_output validation_html.
Proof.
  unfold passes_validation, getRecipes.
  destruct (Str.truthy _); [discriminate|].
  destruct (hd_error _); [discriminate|reflexivity].
Qed.

(** The markup is kept folded while a run is stepped through. *)
#[local] Opaque validation_html analyzing_label analyzing_html
  no_ingredients_html detected_html finding_label no_recipes_html
  recipes_html error_html Str.trim Str.of_Z String.append.

Ltac step :=
  unfold try_finally, try_catch, catch_with, analyze, ingredients_received,
    find_recipes, report,
    reset_button, withExponentialBackoff, default_maxRetries, bind, ret,
    throw, fetch, response_json, set_output, set_disabled, set_buttonText,
    console_error, effect, sleep, world_timer, emit, page;
  change (Z.to_nat 3) with 3%nat;
  cbn.

(** The log of a run that reaches the recipe lookup: everything up to the
    first stage-2 request, what follows it, and the [finally] block. *)
Definition lookup_log (env : Env) (ingredientsList : list string)
  (tail : list Event) : list Event :=
  ([EvDisabled true; EvButtonText analyzing_label; EvOutput analyzing_html;
    EvFetch (first_request env); EvOutput (detected_html ingredientsList);
    EvButtonText finding_label; EvFetch recipes_request]
   ++ tail ++ [EvDisabled false; EvButtonText "Get Recipes"])%list.

(** The page at the end of a run that got through validation. *)
Definition final_page (html : string) (l : list Event) : World :=
  {| outputHTML := html; disabled := false; buttonText := "Get Recipes";
     log := l |}.

(** The run ends with the error message [msg] on the page. *)
Definition failure_tail (msg : string) : list Event :=
  [EvConsoleError msg; EvOutput (error_html msg)].

Lemma run_invalid (env : Env) (w : World) :
  passes_validation env = false ->
  run env w
  = (Ok tt,
     {| outputHTML := validation_html; disabled := disabled w;
        buttonText := buttonText w;
        log := (log w ++ [EvOutput validation_html])%list |}).
Proof.
  intros H. unfold run. now rewrite getRecipes_invalid.
Qed.

(** Stage 1 answers with a success status and a body whose [success] flag is
    set and that carries an ingredient list. *)
Section Stage1.
Variables (env : Env) (html : string) (dis : bool) (label : string).
Variables (r1 : Response) (b1 : Body) (ingredientsList : list string).
Hypothesis Hvalid : passes_validation env = true.
Hypothesis Hnet1 : network env 0 (first_request env) = Resolves r1.
Hypothesis Hok1 : ok r1 = true.
Hypothesis Hjson1 : json r1 = Parsed b1.
Hypothesis Hsuccess1 : success b1 = true.
Hypothesis Hingredients : ingredients b1 = Some ingredientsList.

Ltac stage1 :=
  unfold run, first_request in *;
  rewrite getRecipes_valid by assumption; step;
  rewrite Hnet1; cbn; rewrite Hok1; cbn; rewrite Hjson1; cbn;
  rewrite Hsuccess1, Hingredients.

(** An empty ingredient list ends the run after the first request. *)
Lemma run_no_ingredients :
  ingredientsList = [] ->
  run env (page html dis label)
  = (Ok tt,
     final_page no_ingredients_html
       [EvDisabled true; EvButtonText analyzing_label;
        EvOutput analyzing_html; EvFetch (first_request env);
        EvOutput no_ingredients_html;
        EvDisabled false; EvButtonText "Get Recipes"]).
Proof.
  intros ->. stage1. reflexivity.
Qed.

Hypothesis Hnonempty : ingredientsList <> [].

Ltac stage2 :=
  stage1; destruct ingredientsList as [|i l]; [congruence|]; cbn.

(** A non-success status of the first stage-2 response ends the run: the
    request is not repeated. *)
Lemma lookup_status_failure (r2 : Response) :
  network env 1 recipes_request = Resolves r2 ->
  ok r2 = false ->
  run env (page html dis label)
  = (Ok tt,
     final_page (error_html ("Recipe fetch failed: " ++ statusText r2))
       (lookup_log env ingredientsList
          (failure_tail ("Recipe fetch failed: " ++ statusText r2)))).
Proof.
  intros Hnet2 Hok2. stage2.
  rewrite Hnet2. cbn. rewrite Hok2. reflexivity.
Qed.

(** A first stage-2 response with recipes ends the run in [Success]. *)
Lemma lookup_success (r2 : Response) (b2 : Body) (rs : list Recipe) :
  network env 1 recipes_request = Resolves r2 ->
  ok r2 = true -> json r2 = Parsed b2 -> success b2 = true ->
  recipes b2 = Some rs -> rs <> [] ->
  run env (page html dis label)
  = (Ok tt,
     final_page (recipes_html ingredientsList rs (total_found b2))
       (lookup_log env ingredientsList
          [EvOutput (recipes_html ingredientsList rs (total_found b2))])).
Proof.
  intros Hnet2 Hok2 Hjson2 Hsuccess2 Hrecipes Hrs. stage2.
  rewrite Hnet2. cbn. rewrite Hok2. cbn. rewrite Hjson2. cbn.
  rewrite Hsuccess2, Hrecipes.
  destruct rs as [|rc rs']; [congruence|]. reflexivity.
Qed.

(** A stage-2 request that is rejected (the request itself fails) is
    repeated after its delay: two rejections, then recipes. *)
Lemma lookup_rejections_retried (e1 e2 : JsError) (r2 : Response) (b2 : Body)
  (rs : list Recipe) :
  network env 1 recipes_request = Rejects e1 ->
  network env 2 recipes_request = Rejects e2 ->
  network env 3 recipes_request = Resolves r2 ->
  ok r2 = true -> json r2 = Parsed b2 -> success b2 = true ->
  recipes b2 = Some rs -> rs <> [] ->
  run env (page html dis label)
  = (Ok tt,
     final_page (recipes_html ingredientsList rs (total_found b2))
       (lookup_log env ingredientsList
          [EvTimeout 1000; EvFetch recipes_request;
           EvTimeout 2000; EvFetch recipes_request;
           EvOutput (recipes_html ingredientsList rs (total_found b2))])).
Proof.
  intros Hn1 Hn2 Hn3 Hok2 Hjson2 Hsuccess2 Hrecipes Hrs. stage2.
  rewrite Hn1. cbn. rewrite Hn2. cbn. rewrite Hn3. cbn.
  rewrite Hok2. cbn. rewrite Hjson2. cbn.
  rewrite Hsuccess2, Hrecipes.
  destruct rs as [|rc rs']; [congruence|]. reflexivity.
Qed.

(** Three rejections: the third error is the one reported. *)
Lemma lookup_rejected_three_times (e1 e2 e3 : JsError) :
  network env 1 recipes_request = Rejects e1 ->
  network env 2 recipes_request = Rejects e2 ->
  network env 3 recipes_request = Rejects e3 ->
  run env (page html dis label)
  = (Ok tt,
     final_page (error_html (message e3))
       (lookup_log env ingredientsList
          ([EvTimeout 1000; EvFetch recipes_request;
            EvTimeout 2000; EvFetch recipes_request]
           ++ failure_tail (message e3)))).
Proof.
  intros Hn1 Hn2 Hn3. stage2.
  rewrite Hn1. cbn. rewrite Hn2. cbn. rewrite Hn3. reflexivity.
Qed.

End Stage1.

(** Whatever the network answers, a run that got through validation ends
    normally, with the control enabled; its log starts with the control
    being disabled, then the first request, and ends with the [finally]
    block; all its events are allowed ones. *)
Lemma run_valid_shape (env : Env) (html : string) (dis : bool)
  (label : string) :
  passes_validation env = true ->
  exists (out : string) (l : list Event),
    Forall (allowed env) l /\
    run env (page html dis label)
    = (Ok tt,
       final_page out
         ([EvDisabled true; EvButtonText analyzing_label;
           EvOutput analyzing_html; EvFetch (first_request env)]
          ++ l ++ [EvDisabled false; EvButtonText "Get Recipes"])%list).
Proof.
  intros Hvalid. unfold run. rewrite getRecipes_valid by assumption.
  unfold bind at 1 2 3. unfold set_disabled, set_buttonText, set_output,
    effect, emit, page. cbn [log outputHTML disabled buttonText app].
  match goal with |- context [try_finally _ _ ?w] => set (w0 := w) end.
  unfold try_finally, try_catch.
  destruct (analyze_log env w0) as (l1 & E1 & F1).
  destruct (analyze env (hd_error (files env)) (Str.trim (promptValue env)) w0)
    as [[[]|e] w1]; cbn [snd] in E1; step; rewrite E1; subst w0; cbn.
  - exists (outputHTML w1), l1. split; [exact F1|].
    unfold final_page. now rewrite <- !app_assoc.
  - exists (error_html (message e)), (l1 ++ failure_tail (message e))%list.
    split.
    + apply Forall_app. split; [exact F1|]. now repeat constructor.
    + unfold final_page, failure_tail. cbn. now rewrite <- !app_assoc.
Qed.

End RunFacts.

(* ====================================================================== *)
(** * [split] on text with a single separator *)
(* ====================================================================== *)

Module StrFacts.
Import Str.

Lemma chars_app (a b : string) : chars (a ++ b) = (chars a ++ chars b)%list.
Proof.
  unfold chars. induction a as [|c a IH]; [reflexivity|].
  cbn [append list_ascii_of_string app]. now rewrite IH.
Qed.

Lemma of_chars_chars (s : string) : of_chars (chars s) = s.
Proof. apply string_of_list_ascii_of_string. Qed.

Lemma split_chars_lacks (sep : ascii) (l cur : list ascii) :
  forallb (fun x => negb (Ascii.eqb x sep)) l = true ->
  split_chars sep cur l = [of_chars (rev cur ++ l)].
Proof.
  revert cur; induction l as [|c l IH]; intros cur H.
  - cbn. now rewrite app_nil_r.
  - cbn in H. apply andb_true_iff in H as [Hc Hl].
    cbn [split_chars]. destruct (Ascii.eqb c sep); [discriminate|].
    rewrite IH by assumption. cbn [rev]. now rewrite <- app_assoc.
Qed.

Lemma split_chars_first (sep : ascii) (l rest cur : list ascii) :
  forallb (fun x => negb (Ascii.eqb x sep)) l = true ->
  split_chars sep cur (l ++ sep :: rest)
  = of_chars (rev cur ++ l) :: split_chars sep [] rest.
Proof.
  revert cur; induction l as [|c l IH]; intros cur H.
  - cbn. rewrite Ascii.eqb_refl. now rewrite app_nil_r.
  - cbn in H. apply andb_true_iff in H as [Hc Hl].
    cbn [split_chars app]. destruct (Ascii.eqb c sep); [discriminate|].
    rewrite IH by assumption. cbn [rev]. now rewrite <- app_assoc.
Qed.

(** Text with exactly one separator splits into the two parts around it. *)
Lemma split_once (sep : ascii) (a b : string) :
  lacks sep a = true -> lacks sep b = true ->
  split sep (a ++ String sep b) = [a; b].
Proof.
  unfold lacks, split. intros Ha Hb.
  rewrite chars_app. cbn [chars list_ascii_of_string].
  rewrite split_chars_first by assumption.
  rewrite split_chars_lacks by assumption.
  cbn [rev app]. now rewrite !of_chars_chars.
Qed.

End StrFacts.


(* ====================================================================== *)
(** * The pipeline: scenarios *)
(* ====================================================================== *)

Import Browser Render Controller Emits RunFacts.

(** The page before the first run. *)
Definition blank : World := page "" false "Get Recipes".

(** A 200 response with body [b]. *)
Definition answer (b : Body) : Response :=
  {| status := 200; statusText := "OK"; json := Parsed b |}.

(** [{ success: true, ingredients: l }]. *)
Definition detected (l : list string) : Body :=
  {| success := true; ingredients := Some l; recipes := None;
     total_found := None; error := None |}.

(** [{ success: true, recipes: rs, total_found: n }]. *)
Definition found (rs : list Recipe) (n : Z) : Body :=
  {| success := true; ingredients := None; recipes := Some rs;
     total_found := Some n; error := None |}.

(** A 503 response with an HTML body. *)
Definition unavailable : Response :=
  {| status := 503; statusText := "Service Unavailable";
     json := Unparsable (mkError "Unexpected token < in JSON at position 0") |}.

(** A network that gives its answers in order, whatever the request, and
    fails every request after the last. *)
Definition scripted (answers : list FetchOutcome)
  : nat -> Request -> FetchOutcome :=
  fun n _ => nth n answers (Rejects (mkError "Failed to fetch")).

(** A reader that gives every file the data URL of the eight bytes of the
    PNG signature. *)
Definition png_reader (f : File) : ReadOutcome :=
  Loaded "data:image/png;base64,iVBORw0KGgo=".

Definition session (prompt : string) (selected : list File)
  (answers : list FetchOutcome) : Env :=
  {| promptValue := prompt; files := selected; network := scripted answers;
     reader := png_reader |}.

Definition pancakes : Recipe :=
  {| title := "Pancakes";
     recipe_ingredients := Some ["egg"; "flour"; "milk"] |}.

Definition photo : File :=
  {| fileName := "fridge.png"; fileType := "image/png";
     bytes := Str.of_chars
                (map ascii_of_nat [137; 80; 78; 71; 13; 10; 26; 10]) |}.

(** The recipe service answers 503 twice, then with a recipe. *)
Definition lookup_down_twice : Env :=
  session "eggs and flour" []
    [Resolves (answer (detected ["egg"; "flour"]));
     Resolves unavailable; Resolves unavailable;
     Resolves (answer (found [pancakes] 1))].

(** Both services answer at once. *)
Definition pancake_session : Env :=
  session "eggs and flour" []
    [Resolves (answer (detected ["egg"; "flour"]));
     Resolves (answer (found [pancakes] 1))].

(** A photo and no prompt; no ingredient is found in it. *)
Definition photo_session : Env :=
  session "" [photo] [Resolves (answer (detected []))].

(** Nothing entered, nothing selected. *)
Definition empty_session : Env := session "   " [] [].

(** The opening tags of a recipe card and of one of its ingredient lines. *)
Definition card_open : string :=
  "<div" ++ Str.cls "border border-gray-200 rounded-lg p-4 bg-white shadow-sm" ++ ">".

Definition ingredient_open : string :=
  "<li" ++ Str.cls "text-sm text-gray-600" ++ ">".

(* ====================================================================== *)
(** * The pipeline: claims *)
(* ====================================================================== *)

(** C1.  The run in which the recipe service answers 503, 503 and then a
    recipe: the script checks the status only after the executor has
    returned, so the first 503 ends the run in Failed("Recipe fetch failed:
    Service Unavailable") after one stage-2 request and no delay, although
    the third answer would have been a success. *)
Theorem lookup_status_failure_ends_run :
  let w := snd (run lookup_down_twice blank) in
  network lookup_down_twice 3 recipes_request
    = Resolves (answer (found [pancakes] 1)) /\
  Terminal w (Failed "Recipe fetch failed: Service Unavailable") /\
  fetches (log w)
    = [EvFetch (first_request lookup_down_twice); EvFetch recipes_request] /\
  timeouts (log w) = [].
Proof. vm_compute. repeat split. Qed.

(** Rejected requests, by contrast, are retried: two network errors, then
    a recipe. *)
Example lookup_network_errors_retried :
  let env :=
    session "eggs and flour" []
      [Resolves (answer (detected ["egg"; "flour"]));
       Rejects (mkError "Failed to fetch"); Rejects (mkError "Failed to fetch");
       Resolves (answer (found [pancakes] 1))] in
  let w := snd (run env blank) in
  Terminal w (Success ["egg"; "flour"] [pancakes] (Some 1%Z)) /\
  length (fetches (log w)) = 4 /\
  timeouts (log w) = [EvTimeout 1000; EvTimeout 2000].
Proof. vm_compute. repeat split. Qed.




(** A prompt of white space only is blank, also when the white space is
    not ASCII: the no-break space, the ideographic space, the byte order
    mark. *)
Example blank_prompts :
  Str.trim (Str.nbsp ++ " " ++ Str.nl) = "" /\
  Str.trim (Str.of_chars (map ascii_of_nat [227; 128; 128])) = "" /\
  Str.trim (Str.of_chars (map ascii_of_nat [239; 187; 191])) = "" /\
  Str.trim (Str.nbsp ++ "crème" ++ Str.nbsp) = "crème" /\
  let w := snd (run (session Str.nbsp [] []) blank) in
  Terminal w ValidationFailed /\ fetches (log w) = [].
Proof. vm_compute. repeat split. Qed.



(** C7.  When the ingredient service answers with a success status, a set
    success flag and an empty ingredient list, the run ends in
    IngredientsEmpty and its only request is the first one: the recipe
    service is never called. *)
Theorem empty_ingredients_no_lookup
  (env : Env) (html : string) (dis : bool) (label : string)
  (r : Response) (b : Body) :
  passes_validation env = true ->
  network env 0 (first_request env) = Resolves r ->
  ok r = true ->
  json r = Parsed b ->
  success b = true ->
  ingredients b = Some [] ->
  let w := snd (run env (page html dis label)) in
  Terminal w IngredientsEmpty /\
  fetches (log w) = [EvFetch (first_request env)] /\
  ~ In (EvFetch recipes_request) (log w).
Proof.
  intros Hvalid Hnet Hok Hjson Hsuccess Hing w. subst w.
  rewrite (run_no_ingredients env html dis label r b [] Hvalid Hnet Hok Hjson
             Hsuccess Hing eq_refl).
  cbn [snd final_page log]. repeat split.
  cbn. intros [H|[H|[H|[H|[H|[H|[H|[]]]]]]]]; try discriminate H.
Qed.

Lemma empty_ingredients_no_lookup_witness :
  passes_validation photo_session = true /\
  fetches (log (snd (run photo_session blank)))
    = [EvFetch (first_request photo_session)].
Proof.
  split; [reflexivity|].
  exact (proj1 (proj2 (empty_ingredients_no_lookup photo_session
                         "" false "Get Recipes" (answer (detected []))
                         (detected []) eq_refl eq_refl eq_refl eq_refl
                         eq_refl eq_refl))).
Defined.

(** C5, as stated, fails: at the end of the run with the two responses of
    the claim, the page no longer shows "Detected Ingredients (2)". *)
Lemma final_page_lacks_detected_heading :
  Str.includes "Detected Ingredients (2)"
    (outputHTML (snd (run pancake_session blank))) = false.
Proof. vm_compute. reflexivity. Qed.

(** C5, amended.  With the two responses of the claim, "Detected Ingredients
    (2)" is the heading of the intermediate state, written before the recipe
    lookup; the final page is that of Success: it shows "Your Ingredients (2)"
    and after it "Top 5 Recipes (from 1 matches)", one recipe card, three
    ingredient lines and no "more ingredients" line. *)
Theorem pancakes_rendered
  (env : Env) (html : string) (dis : bool) (label : string)
  (r1 r2 : Response) :
  passes_validation env = true ->
  network env 0 (first_request env) = Resolves r1 ->
  ok r1 = true ->
  json r1 = Parsed (detected ["egg"; "flour"]) ->
  network env 1 recipes_request = Resolves r2 ->
  ok r2 = true ->
  json r2 = Parsed (found [pancakes] 1) ->
  let w := snd (run env (page html dis label)) in
  let shown := outputHTML w in
  Terminal w (Success ["egg"; "flour"] [pancakes] (Some 1%Z)) /\
  (exists before after,
     log w = (before ++ EvOutput (detected_html ["egg"; "flour"])
                :: EvButtonText finding_label
                :: EvFetch recipes_request :: after)%list) /\
  Str.includes "Detected Ingredients (2)" (detected_html ["egg"; "flour"])
    = true /\
  Str.includes "Detected Ingredients" shown = false /\
  Str.precedes "Your Ingredients (2)" "Top 5 Recipes (from 1 matches)" shown
    = true /\
  Str.count card_open shown = 1 /\
  Str.count ingredient_open shown = 3 /\
  Str.includes (ingredient_line "egg" ++ ingredient_line "flour"
                ++ ingredient_line "milk") shown = true /\
  Str.includes "more ingredients" shown = false.
Proof.
  intros Hvalid Hnet1 Hok1 Hjson1 Hnet2 Hok2 Hjson2 w shown.
  subst shown w.
  rewrite (lookup_success env html dis label r1 (detected ["egg"; "flour"])
             ["egg"; "flour"] Hvalid Hnet1 Hok1 Hjson1 eq_refl eq_refl
             ltac:(discriminate) r2 (found [pancakes] 1) [pancakes]
             Hnet2 Hok2 Hjson2 eq_refl eq_refl ltac:(discriminate)).
  cbn [snd final_page outputHTML log found total_found].
  split; [reflexivity|].
  split.
  { exists [EvDisabled true; EvButtonText analyzing_label;
            EvOutput analyzing_html; EvFetch (first_request env)].
    eexists. unfold lookup_log. cbn [app]. reflexivity. }
  repeat split; vm_compute; reflexivity.
Qed.

Lemma pancakes_rendered_witness :
  passes_validation pancake_session = true /\
  Terminal (snd (run pancake_session blank))
    (Success ["egg"; "flour"] [pancakes] (Some 1%Z)).
Proof.
  split; [reflexivity|].
  exact (proj1 (pancakes_rendered pancake_session "" false "Get Recipes"
                  (answer (detected ["egg"; "flour"]))
                  (answer (found [pancakes] 1))
                  eq_refl eq_refl eq_refl eq_refl eq_refl eq_refl eq_refl)).
Defined.

(** C8.  Any request to the recipe service, in any run, is the same fixed
    request; its body is the text of the empty JSON object.  So two runs
    cannot differ in what they send there, whatever their prompts, images
    and detected ingredients. *)
Theorem recipe_request_is_constant
  (env1 env2 : Env) (html1 html2 : string) (dis1 dis2 : bool)
  (label1 label2 : string) (req1 req2 : Request) :
  In (EvFetch req1) (log (snd (run env1 (page html1 dis1 label1)))) ->
  url req1 = recipesUrl ->
  In (EvFetch req2) (log (snd (run env2 (page html2 dis2 label2)))) ->
  url req2 = recipesUrl ->
  req1 = req2 /\ body req1 = Text "{}".
Proof.
  assert (fixed : forall env html dis label req,
             In (EvFetch req) (log (snd (run env (page html dis label)))) ->
             url req = recipesUrl -> req = recipes_request).
  { intros env html dis label req Hin Hurl.
    pose proof (run_allowed env html dis label) as Hall.
    rewrite Forall_forall in Hall. specialize (Hall _ Hin).
    destruct Hall as [->| ->]; [discriminate Hurl|reflexivity]. }
  intros H1 U1 H2 U2.
  rewrite (fixed _ _ _ _ _ H1 U1), (fixed _ _ _ _ _ H2 U2).
  split; reflexivity.
Qed.

(** Two runs that reach the lookup with different prompts and different
    detected ingredients. *)
Definition tomato_session : Env :=
  session "tomato soup" [photo]
    [Resolves (answer (detected ["tomato"; "basil"; "garlic"]));
     Resolves (answer (found [] 0))].

Lemma recipe_request_is_constant_witness :
  In (EvFetch recipes_request) (log (snd (run pancake_session blank))) /\
  In (EvFetch recipes_request) (log (snd (run tomato_session blank))) /\
  body recipes_request = Text "{}".
Proof.
  assert (H1 : In (EvFetch recipes_request)
                 (log (snd (run pancake_session blank)))).
  { vm_compute. do 6 right. left. reflexivity. }
  assert (H2 : In (EvFetch recipes_request)
                 (log (snd (run tomato_session blank)))).
  { vm_compute. do 6 right. left. reflexivity. }
  split; [exact H1|]. split; [exact H2|].
  exact (proj2 (recipe_request_is_constant pancake_session tomato_session
                  "" "" false false "Get Recipes" "Get Recipes"
                  recipes_request recipes_request H1 eq_refl H2 eq_refl)).
Defined.

(** C9, as stated, fails: a run that stops at validation never disables
    the control (and so never re-enables it). *)
Lemma invalid_run_never_disables :
  let w := snd (run empty_session blank) in
  log w = [EvOutput validation_html] /\
  ~ In (EvDisabled true) (log w).
Proof.
  cbv zeta. split; [reflexivity|].
  intros [H|[]]. discriminate H.
Qed.

(** C9, amended.  Every run ends normally.  A run that passes validation
    disables the control first, before its first request, and its [finally]
    block enables it again as the last thing but one, whatever happened in
    between (any answers, any failure): the control is enabled at the end.
    A run that stops at validation leaves the control as it found it. *)
Theorem busy_flag_discipline
  (env : Env) (html : string) (dis : bool) (label : string) :
  let out := run env (page html dis label) in
  let w := snd out in
  fst out = Ok tt /\
  if passes_validation env then
    disabled w = false /\
    exists l,
      log w
      = ([EvDisabled true; EvButtonText analyzing_label;
          EvOutput analyzing_html; EvFetch (first_request env)]
         ++ l ++ [EvDisabled false; EvButtonText "Get Recipes"])%list
  else
    disabled w = dis /\ log w = [EvOutput validation_html].
Proof.
  cbv zeta. destruct (passes_validation env) eqn:Hvalid.
  - destruct (run_valid_shape env html dis label Hvalid)
      as (shown & l & _ & Hrun).
    rewrite Hrun. cbn [fst snd final_page disabled log].
    repeat split. now exists l.
  - rewrite (run_invalid env _ Hvalid). cbn [fst snd disabled log page app].
    repeat split.
Qed.

(** The control is enabled after a run in which both services fail. *)
Example control_enabled_after_failure :
  let env := session "eggs" [] [] in
  let w := snd (run env (page "" true "Get Recipes")) in
  Terminal w (Failed "Failed to fetch") /\ disabled w = false.
Proof. vm_compute. repeat split. Qed.

(** A recipe with ten ingredients: eight lines and "+ 2 more ingredients". *)
Example ten_ingredients_truncated :
  let card :=
    recipe_card
      {| title := "Stew";
         recipe_ingredients :=
           Some ["a"; "b"; "c"; "d"; "e"; "f"; "g"; "h"; "i"; "j"] |} 0 in
  Str.count ingredient_open card = 8 /\
  Str.includes "+ 2 more ingredients" card = true.
Proof. vm_compute. repeat split. Qed.

(** C2, as stated, fails: in a run with a photo selected, no file is read
    (the encoder is not called) and the [image] field of the request is the
    file itself. *)
Lemma photo_run_never_encodes :
  let w := snd (run photo_session blank) in
  hd_error (files photo_session) = Some photo /\
  ~ In (EvReadAsDataURL photo) (log w) /\
  fetches (log w)
  = [EvFetch {| url := API_URL; method := "POST"; headers := [];
                body := FormData [("image", FileEntry photo)] |}].
Proof.
  cbv zeta. split; [reflexivity|]. split; [|reflexivity].
  vm_compute. intros H.
  repeat (destruct H as [H|H]; [discriminate H|]). exact H.
Qed.

(** C2, amended.  In every run with a file selected, no file is read at any
    point; the first request carries the file itself as its [image] field,
    followed by the prompt when there is one.  The encoder, when it is
    called on a file whose data URL has one comma, gives the text after
    that comma: the data URL without its prefix. *)
Theorem image_sent_as_file
  (env : Env) (html : string) (dis : bool) (label : string) (f : File) :
  hd_error (files env) = Some f ->
  let w := snd (run env (page html dis label)) in
  let prompt := Str.trim (promptValue env) in
  (forall g, ~ In (EvReadAsDataURL g) (log w)) /\
  (exists l, fetches (log w) = EvFetch (first_request env) :: l) /\
  body (first_request env)
  = FormData (("image", FileEntry f)
              :: if Str.truthy prompt then [("prompt", TextEntry prompt)]
                 else []) /\
  (forall (w0 : World) (prefix payload : string),
     reader env f = Loaded (prefix ++ "," ++ payload) ->
     Str.lacks "," prefix = true ->
     Str.lacks "," payload = true ->
     fileToBase64 env f w0 = (Js.Ok (Some payload), emit (EvReadAsDataURL f) w0)).
Proof.
  intros Hfile w prompt. subst w prompt.
  assert (Hvalid : passes_validation env = true).
  { unfold passes_validation. rewrite Hfile. apply orb_true_r. }
  split; [|split; [|split]].
  - intros g Hin.
    pose proof (run_allowed env html dis label) as Hall.
    rewrite Forall_forall in Hall. exact (Hall _ Hin).
  - destruct (run_valid_shape env html dis label Hvalid)
      as (shown & l & _ & Hrun).
    rewrite Hrun. cbn [snd final_page log app fetches filter is_fetch].
    eexists. reflexivity.
  - unfold first_request, analyze_request, formData. rewrite Hfile.
    reflexivity.
  - intros w0 prefix payload Hread Hprefix Hpayload.
    unfold fileToBase64. rewrite Hread.
    change (prefix ++ "," ++ payload) with (prefix ++ String "," payload).
    now rewrite (StrFacts.split_once "," prefix payload Hprefix Hpayload).
Qed.

Lemma image_sent_as_file_witness :
  hd_error (files photo_session) = Some photo /\
  fst (fileToBase64 photo_session photo blank) = Js.Ok (Some "iVBORw0KGgo=").
Proof.
  split; [reflexivity|].
  pose proof (image_sent_as_file photo_session "" false "Get Recipes" photo
                eq_refl) as H.
  cbv zeta in H. destruct H as (_ & _ & _ & H).
  rewrite (H blank "data:image/png;base64" "iVBORw0KGgo="
             eq_refl eq_refl eq_refl).
  reflexivity.
Defined.

(* ====================================================================== *)
(** * The markdown transform: claims *)
(* ====================================================================== *)

Import Markdown.

(** The input of the round-trip example: a heading, two list items and a
    bold word, on four lines. *)
Definition sample_markdown : string :=
  "## Title" ++ Str.nl ++ "* a" ++ Str.nl ++ "* b" ++ Str.nl ++ "**bold**".

(** C4.  On the sample the transform gives the heading, the two list items
    and the strong span, each once, but no list container: the items are
    written as [<li class="ml-6">], which the pattern [<li>] of the wrapping
    step does not match, so no [<ul>] is ever produced. *)
Theorem sample_markdown_rendered :
  simpleMarkdownToHtml sample_markdown
  = "<h2" ++ Str.cls "text-2xl font-bold mt-6 mb-3 text-blue-800" ++ ">Title</h2>"
    ++ Str.nl ++ "<li" ++ Str.cls "ml-6" ++ ">a</li>"
    ++ Str.nl ++ "<li" ++ Str.cls "ml-6" ++ ">b</li>"
    ++ Str.nl ++ "<strong>bold</strong>"
  /\ Str.includes "<ul" (simpleMarkdownToHtml sample_markdown) = false
  /\ Str.count "<li" (simpleMarkdownToHtml sample_markdown) = 2.
Proof. vm_compute. repeat split. Qed.

(** The wrapping step does wrap items that are written as plain [<li>]. *)
Example plain_items_are_wrapped :
  Regex.replace_all Regex.gs re_items
    [Regex.TLit "<ul>"; Regex.TMatch; Regex.TLit "</ul>"]
    ("<li>a</li>" ++ Str.nl ++ "<li>b</li>")
  = "<ul><li>a</li>" ++ Str.nl ++ "<li>b</li></ul>".
Proof. vm_compute. reflexivity. Qed.


(* ====================================================================== *)
(** * More on the backoff executor *)
(* ====================================================================== *)

Module BackoffMore.
Import Js Backoff BackoffFacts.

(** The milliseconds of all delays of a trace. *)
Fixpoint total_delay (tr : list entry) : Z :=
  match tr with
  | [] => 0
  | Invoke :: tr' => total_delay tr'
  | Delay ms :: tr' => ms + total_delay tr'
  end.

Lemma total_delay_retries (k : nat) :
  forall i : Z,
    (0 <= i)%Z ->
    total_delay (retries i k) = (2 ^ i * (2 ^ Z.of_nat k - 1) * 1000)%Z.
Proof.
  induction k as [|k IH]; intros i Hi.
  - cbn. lia.
  - cbn [retries total_delay]. rewrite IH by lia.
    rewrite Nat2Z.inj_succ, Z.pow_succ_r by lia.
    rewrite Z.pow_add_r by lia. lia.
Qed.

Section Generic.
Context {St E A : Type} `{Timer St}.
Variable fn : M St E A.

(** Entered with an iteration left, the loop ends by a [return] or a
    [throw], never by running off its end. *)
Lemma loop_defined (maxRetries : Z) :
  forall (n : nat) (i : Z) (s : St),
    (0 <= i < maxRetries)%Z ->
    n = Z.to_nat (maxRetries - i) ->
    fst (loop fn maxRetries n i s) <> Ok None.
Proof.
  induction n as [|n IH]; intros i s Hi Hn; [lia|].
  cbn [loop]. destruct (Z.ltb_spec i maxRetries) as [_|]; [|lia].
  destruct (fn s) as [[v|e] s1]; cbn [fst]; [discriminate|].
  destruct (Z.eqb_spec i (maxRetries - 1)); cbn [fst]; [discriminate|].
  apply IH; lia.
Qed.

End Generic.

End BackoffMore.

Import BackoffMore.

(** X1.  When every attempt fails, the executor has invoked the operation
    exactly maxAttempts times, the delays it asked for add up to
    (2^(maxAttempts-1) - 1) * 1000 ms, and the last entry of its trace is the
    final call: there is no delay after the attempt whose error it throws. *)
Theorem withExponentialBackoff_gives_up
  {St E A : Type} (fn : M St E A) (maxAttempts : Z) (s : St) :
  (1 <= maxAttempts)%Z ->
  (forall j : nat, (Z.of_nat j < maxAttempts)%Z ->
                   exists e, attempt fn s j = Err e) ->
  let out := withExponentialBackoff (traced fn) maxAttempts (s, []) in
  let tr := snd (snd out) in
  Z.of_nat (invocations tr) = maxAttempts /\
  total_delay tr = ((2 ^ (maxAttempts - 1) - 1) * 1000)%Z /\
  nth_error tr (length tr - 1) = Some Invoke /\
  exists e, attempt fn s (Z.to_nat (maxAttempts - 1)) = Err e /\
            fst out = Err e.
Proof.
  intros Hmax Hfail out tr.
  destruct (loop_traced fn maxAttempts (Z.to_nat maxAttempts) 0 s [])
    as (k & Hk & _ & Htr & _ & Hend); [lia|f_equal; lia|].
  fold (withExponentialBackoff (traced fn) maxAttempts) in Htr, Hend.
  fold out in Htr, Hend. fold tr in Htr. cbn [app] in Htr.
  assert (Hlast : (Z.of_nat k = maxAttempts - 1)%Z).
  { destruct Hend as [(v & Hv & _)|(Hl & _)]; [|lia].
    destruct (Hfail k) as (e & He); [lia|]. congruence. }
  destruct Hend as [(v & Hv & _)|(_ & e & He & Hout)].
  { destruct (Hfail k) as (e & He); [lia|]. congruence. }
  rewrite Htr, invocations_retries, total_delay_retries by lia.
  destruct (retries_last k 0) as [Hnth Hlen].
  rewrite Hlen. replace (2 * k + 1 - 1) with (2 * k) by lia.
  replace (Z.to_nat (maxAttempts - 1)) with k by lia.
  rewrite <- Hlast.
  split; [lia|]. split; [lia|]. split; [exact Hnth|].
  now exists e.
Qed.

(** An operation that always fails. *)
Definition broken : M nat string nat :=
  fun calls => (Err "service down", S calls).

Lemma withExponentialBackoff_gives_up_witness :
  (1 <= 3)%Z /\
  total_delay
    (snd (snd (withExponentialBackoff (traced broken) 3 (0, [])))) = 3000%Z.
Proof.
  split; [lia|].
  refine (proj1 (proj2 (withExponentialBackoff_gives_up broken 3 0
                          ltac:(lia) _))).
  intros j _. exists "service down". reflexivity.
Defined.

(** X2.  With maxAttempts >= 1 the executor never resolves with
    [undefined]: it returns a value of the operation or throws. *)
Theorem withExponentialBackoff_defined
  {St E A : Type} `{Timer St} (fn : M St E A) (maxAttempts : Z) (s : St) :
  (1 <= maxAttempts)%Z ->
  fst (withExponentialBackoff fn maxAttempts s) <> Ok None.
Proof.
  intros Hmax. unfold withExponentialBackoff.
  apply loop_defined; [lia|f_equal; lia].
Qed.

Lemma withExponentialBackoff_defined_witness :
  (1 <= 3)%Z /\
  fst (withExponentialBackoff (traced flaky) 3 (0, [])) <> Ok None.
Proof.
  split; [lia|].
  exact (withExponentialBackoff_defined (traced flaky) 3 (0, []) ltac:(lia)).
Defined.


(* ====================================================================== *)
(** * The other branches of [getRecipes] *)
(* ====================================================================== *)

Module BranchFacts.
Import Browser Render Controller Emits RunFacts.
Open Scope js_scope.

#[local] Opaque validation_html analyzing_label analyzing_html
  no_ingredients_html detected_html finding_label no_recipes_html
  recipes_html error_html Str.trim Str.of_Z String.append.

(** The log of a run that ends before the recipe lookup: everything up to
    the first request, what follows it, and the [finally] block. *)
Definition stage1_log (env : Env) (tail : list Event) : list Event :=
  ([EvDisabled true; EvButtonText analyzing_label; EvOutput analyzing_html;
    EvFetch (first_request env)]
   ++ tail ++ [EvDisabled false; EvButtonText "Get Recipes"])%list.

(** The message shown when the ingredient service answers with a
    non-success status: the [error] of the body if it has one, else the
    status line. *)
Definition server_error (r : Response) : string :=
  or_else
    (match json r with Parsed b => error b | Unparsable _ => None end)
    ("Server error: " ++ Str.of_Z (status r) ++ " " ++ statusText r).

Section Stage1.
Variables (env : Env) (html : string) (dis : bool) (label : string).
Hypothesis Hvalid : passes_validation env = true.

Ltac enter :=
  unfold run, first_request in *;
  rewrite getRecipes_valid by assumption; step.

Lemma analyze_rejected (e : JsError) :
  network env 0 (first_request env) = Rejects e ->
  run env (page html dis label)
  = (Ok tt,
     final_page (error_html (message e))
       (stage1_log env (failure_tail (message e)))).
Proof. intros Hnet. enter. rewrite Hnet. reflexivity. Qed.

Lemma analyze_status_failure (r : Response) :
  network env 0 (first_request env) = Resolves r ->
  ok r = false ->
  run env (page html dis label)
  = (Ok tt,
     final_page (error_html (server_error r))
       (stage1_log env (failure_tail (server_error r)))).
Proof.
  intros Hnet Hok. enter. rewrite Hnet. cbn. rewrite Hok. cbn.
  unfold server_error. destruct (json r); reflexivity.
Qed.

Lemma analyze_unparsable (r : Response) (e : JsError) :
  network env 0 (first_request env) = Resolves r ->
  ok r = true -> json r = Unparsable e ->
  run env (page html dis label)
  = (Ok tt,
     final_page (error_html (message e))
       (stage1_log env (failure_tail (message e)))).
Proof.
  intros Hnet Hok Hjson. enter. rewrite Hnet. cbn. rewrite Hok. cbn.
  rewrite Hjson. reflexivity.
Qed.

Lemma analyze_refused (r : Response) (b : Body) :
  network env 0 (first_request env) = Resolves r ->
  ok r = true -> json r = Parsed b ->
  success b = false \/ ingredients b = None ->
  run env (page html dis label)
  = (Ok tt,
     final_page (error_html (or_else (error b) "Unknown error from backend"))
       (stage1_log env
          (failure_tail (or_else (error b) "Unknown error from backend")))).
Proof.
  intros Hnet Hok Hjson Hb. enter. rewrite Hnet. cbn. rewrite Hok. cbn.
  rewrite Hjson. cbn.
  destruct Hb as [Hb|Hb]; rewrite Hb; [reflexivity|].
  destruct (success b); reflexivity.
Qed.

End Stage1.

(** Stage 1 has given a non-empty ingredient list; the recipe service gives
    a response with a success status to the first request. *)
Section Stage2.
Variables (env : Env) (html : string) (dis : bool) (label : string).
Variables (r1 r2 : Response) (b1 : Body) (ingredientsList : list string).
Hypothesis Hvalid : passes_validation env = true.
Hypothesis Hnet1 : network env 0 (first_request env) = Resolves r1.
Hypothesis Hok1 : ok r1 = true.
Hypothesis Hjson1 : json r1 = Parsed b1.
Hypothesis Hsuccess1 : success b1 = true.
Hypothesis Hingredients : ingredients b1 = Some ingredientsList.
Hypothesis Hnonempty : ingredientsList <> [].
Hypothesis Hnet2 : network env 1 recipes_request = Resolves r2.
Hypothesis Hok2 : ok r2 = true.

Ltac enter2 :=
  unfold run, first_request in *;
  rewrite getRecipes_valid by assumption; step;
  rewrite Hnet1; cbn; rewrite Hok1; cbn; rewrite Hjson1; cbn;
  rewrite Hsuccess1, Hingredients;
  destruct ingredientsList as [|i l]; [congruence|]; cbn;
  rewrite Hnet2; cbn; rewrite Hok2; cbn.

Lemma lookup_unparsable (e : JsError) :
  json r2 = Unparsable e ->
  run env (page html dis label)
  = (Ok tt,
     final_page (error_html (message e))
       (lookup_log env ingredientsList (failure_tail (message e)))).
Proof. intros Hjson2. enter2. rewrite Hjson2. reflexivity. Qed.

Lemma lookup_refused (b2 : Body) :
  json r2 = Parsed b2 ->
  success b2 = false \/ recipes b2 = None ->
  run env (page html dis label)
  = (Ok tt,
     final_page (error_html (or_else (error b2) "Failed to get recipes"))
       (lookup_log env ingredientsList
          (failure_tail (or_else (error b2) "Failed to get recipes")))).
Proof.
  intros Hjson2 Hb. enter2. rewrite Hjson2. cbn.
  destruct Hb as [Hb|Hb]; rewrite Hb; [reflexivity|].
  destruct (success b2); reflexivity.
Qed.

Lemma lookup_no_recipes (b2 : Body) :
  json r2 = Parsed b2 -> success b2 = true -> recipes b2 = Some [] ->
  run env (page html dis label)
  = (Ok tt,
     final_page (no_recipes_html ingredientsList)
       (lookup_log env ingredientsList
          [EvOutput (no_recipes_html ingredientsList)])).
Proof.
  intros Hjson2 Hs Hr. enter2. rewrite Hjson2. cbn. rewrite Hs, Hr.
  reflexivity.
Qed.

End Stage2.

End BranchFacts.


(* ====================================================================== *)
(** * Every run, whatever the services answer *)
(* ====================================================================== *)

Module Outcomes.
Import Browser Render Controller Emits RunFacts.
Open Scope js_scope.

#[local] Opaque validation_html analyzing_label analyzing_html
  no_ingredients_html detected_html finding_label no_recipes_html
  recipes_html error_html Str.trim Str.of_Z String.append.

(** The requests of a run: none, or the first request followed by at most
    three requests to the recipe service. *)
Definition within_budget (env : Env) (l : list Event) : Prop :=
  fetches l = [] \/
  exists k, k <= 3 /\
    fetches l = EvFetch (first_request env) :: repeat (EvFetch recipes_request) k.

(** The delays of a run: none, 1000 ms, or 1000 ms and then 2000 ms. *)
Definition delays_doubling (l : list Event) : Prop :=
  timeouts l = [] \/ timeouts l = [EvTimeout 1000] \/
  timeouts l = [EvTimeout 1000; EvTimeout 2000].

Ltac branch :=
  match goal with
  | |- context [network ?e ?n ?r] => destruct (network e n r)
  | |- context [ok ?r] => destruct (ok r)
  | |- context [json ?r] => destruct (json r)
  | |- context [success ?b] => destruct (success b)
  | |- context [ingredients ?b] => destruct (ingredients b) as [[|? ?]|]
  | |- context [recipes ?b] => destruct (recipes b) as [[|? ?]|]
  end; cbn.

Ltac outcome :=
  first [ exists ValidationFailed; reflexivity
        | exists IngredientsEmpty; reflexivity
        | eexists (RecipesEmpty _); reflexivity
        | eexists (Success _ _ _); reflexivity
        | eexists (Failed _); reflexivity ].

Ltac budget :=
  first [ left; reflexivity
        | right; exists 0; split; [lia|reflexivity]
        | right; exists 1; split; [lia|reflexivity]
        | right; exists 2; split; [lia|reflexivity]
        | right; exists 3; split; [lia|reflexivity] ].

Ltac delays :=
  first [ left; reflexivity | right; left; reflexivity
        | right; right; reflexivity ].

Lemma run_summary (env : Env) (html : string) (dis : bool) (label : string) :
  fst (run env (page html dis label)) = Js.Ok tt /\
  (exists o, Terminal (snd (run env (page html dis label))) o) /\
  within_budget env (log (snd (run env (page html dis label)))) /\
  delays_doubling (log (snd (run env (page html dis label)))).
Proof.
  unfold within_budget, delays_doubling, Terminal.
  destruct (passes_validation env) eqn:Hvalid.
  - unfold run, first_request. rewrite getRecipes_valid by assumption. step.
    repeat branch.
    all: cbn; (split; [reflexivity|]); (split; [outcome|]);
      (split; [budget|delays]).
  - rewrite (run_invalid env _ Hvalid). cbn.
    split; [reflexivity|]. split; [outcome|]. split; [budget|delays].
Qed.

End Outcomes.


(* ====================================================================== *)
(** * The pipeline: further properties *)
(* ====================================================================== *)

Import BranchFacts Outcomes.

Ltac read_log :=
  unfold Terminal, stage1_log, lookup_log, failure_tail, final_page;
  cbn [fst snd outputHTML log disabled app fetches timeouts filter is_fetch
       is_timeout render In];
  repeat split; auto.

(** X3.  A non-success status of the ingredient service ends the run in
    Failed after that one request, with no delay: the message is the
    [error] field of the response body when the body is JSON and has a
    non-empty one, and "Server error: <status> <statusText>" otherwise, in
    particular when the body cannot be parsed. *)
Theorem ingredient_service_status_failure
  (env : Env) (html : string) (dis : bool) (label : string) (r : Response) :
  passes_validation env = true ->
  network env 0 (first_request env) = Resolves r ->
  ok r = false ->
  let w := snd (run env (page html dis label)) in
  let fallback :=
    "Server error: " ++ Str.of_Z (status r) ++ " " ++ statusText r in
  Terminal w (Failed (server_error r)) /\
  fetches (log w) = [EvFetch (first_request env)] /\
  timeouts (log w) = [] /\
  (forall b msg, json r = Parsed b -> error b = Some msg ->
                 Str.truthy msg = true -> server_error r = msg) /\
  (forall b, json r = Parsed b -> error b = None \/ error b = Some "" ->
             server_error r = fallback) /\
  (forall e, json r = Unparsable e -> server_error r = fallback).
Proof.
  intros Hvalid Hnet Hok w fallback. subst w fallback.
  rewrite (analyze_status_failure env html dis label Hvalid r Hnet Hok).
  read_log; unfold server_error.
  - intros b msg -> -> Hmsg. cbn. now rewrite Hmsg.
  - intros b -> [-> | ->]; reflexivity.
  - intros e ->. reflexivity.
Qed.

(** The ingredient service is down: 502 with an HTML body. *)
Definition bad_gateway : Response :=
  {| status := 502; statusText := "Bad Gateway";
     json := Unparsable (mkError "Unexpected token < in JSON at position 0") |}.

Lemma ingredient_service_status_failure_witness :
  passes_validation (session "eggs" [] [Resolves bad_gateway]) = true /\
  Terminal (snd (run (session "eggs" [] [Resolves bad_gateway]) blank))
    (Failed "Server error: 502 Bad Gateway").
Proof.
  split; [reflexivity|].
  exact (proj1 (ingredient_service_status_failure
                  (session "eggs" [] [Resolves bad_gateway])
                  "" false "Get Recipes" bad_gateway
                  eq_refl eq_refl eq_refl)).
Defined.

(** X4.  When the first request itself fails (the promise of [fetch]
    rejects), the run ends in Failed with the message of that error after
    the one request: the first stage is never retried and never waits. *)
Theorem ingredient_request_rejected
  (env : Env) (html : string) (dis : bool) (label : string) (e : JsError) :
  passes_validation env = true ->
  network env 0 (first_request env) = Rejects e ->
  let w := snd (run env (page html dis label)) in
  Terminal w (Failed (message e)) /\
  fetches (log w) = [EvFetch (first_request env)] /\
  timeouts (log w) = [] /\
  In (EvConsoleError (message e)) (log w).
Proof.
  intros Hvalid Hnet w. subst w.
  rewrite (analyze_rejected env html dis label Hvalid e Hnet).
  read_log. do 4 right. now left.
Qed.

Lemma ingredient_request_rejected_witness :
  passes_validation (session "eggs" [] []) = true /\
  Terminal (snd (run (session "eggs" [] []) blank)) (Failed "Failed to fetch").
Proof.
  split; [reflexivity|].
  exact (proj1 (ingredient_request_rejected (session "eggs" [] [])
                  "" false "Get Recipes" (mkError "Failed to fetch")
                  eq_refl eq_refl)).
Defined.

(** X5.  A response of the ingredient service with a success status whose
    body is not JSON ends the run in Failed with the message of the parse
    error, after the one request. *)
Theorem ingredient_response_unparsable
  (env : Env) (html : string) (dis : bool) (label : string)
  (r : Response) (e : JsError) :
  passes_validation env = true ->
  network env 0 (first_request env) = Resolves r ->
  ok r = true ->
  json r = Unparsable e ->
  let w := snd (run env (page html dis label)) in
  Terminal w (Failed (message e)) /\
  fetches (log w) = [EvFetch (first_request env)] /\
  timeouts (log w) = [].
Proof.
  intros Hvalid Hnet Hok Hjson w. subst w.
  rewrite (analyze_unparsable env html dis label Hvalid r e Hnet Hok Hjson).
  read_log.
Qed.

(** A 200 response with an HTML body. *)
Definition html_page : Response :=
  {| status := 200; statusText := "OK";
     json := Unparsable (mkError "Unexpected token < in JSON at position 0") |}.

Lemma ingredient_response_unparsable_witness :
  passes_validation (session "eggs" [] [Resolves html_page]) = true /\
  Terminal (snd (run (session "eggs" [] [Resolves html_page]) blank))
    (Failed "Unexpected token < in JSON at position 0").
Proof.
  split; [reflexivity|].
  exact (proj1 (ingredient_response_unparsable
                  (session "eggs" [] [Resolves html_page])
                  "" false "Get Recipes" html_page _
                  eq_refl eq_refl eq_refl eq_refl)).
Defined.

(** X6.  When the ingredient service answers with a success status but its
    body has no set [success] flag or no [ingredients], the run ends in
    Failed with the body's [error] (or "Unknown error from backend" when
    that is absent or empty), and the recipe service is never called. *)
Theorem ingredient_service_refusal
  (env : Env) (html : string) (dis : bool) (label : string)
  (r : Response) (b : Body) :
  passes_validation env = true ->
  network env 0 (first_request env) = Resolves r ->
  ok r = true ->
  json r = Parsed b ->
  success b = false \/ ingredients b = None ->
  let w := snd (run env (page html dis label)) in
  Terminal w (Failed (or_else (error b) "Unknown error from backend")) /\
  fetches (log w) = [EvFetch (first_request env)] /\
  timeouts (log w) = [].
Proof.
  intros Hvalid Hnet Hok Hjson Hb w. subst w.
  rewrite (analyze_refused env html dis label Hvalid r b Hnet Hok Hjson Hb).
  read_log.
Qed.

(** [{ success: false, error: msg }]. *)
Definition refusal (msg : string) : Body :=
  {| success := false; ingredients := None; recipes := None;
     total_found := None; error := Some msg |}.

Lemma ingredient_service_refusal_witness :
  let env := session "eggs" [] [Resolves (answer (refusal "No API key"))] in
  passes_validation env = true /\
  Terminal (snd (run env blank)) (Failed "No API key").
Proof.
  split; [reflexivity|].
  exact (proj1 (ingredient_service_refusal
                  (session "eggs" [] [Resolves (answer (refusal "No API key"))])
                  "" false "Get Recipes" _ (refusal "No API key")
                  eq_refl eq_refl eq_refl eq_refl (or_introl eq_refl))).
Defined.

(** X7.  When the recipe service answers its first request with a success
    status, a set [success] flag and an empty recipe list, the run ends in
    RecipesEmpty, which still shows the detected ingredients; the recipe
    service was called once, with no delay. *)
Theorem no_recipes_found
  (env : Env) (html : string) (dis : bool) (label : string)
  (r1 r2 : Response) (b1 b2 : Body) (ingredientsList : list string) :
  passes_validation env = true ->
  network env 0 (first_request env) = Resolves r1 ->
  ok r1 = true -> json r1 = Parsed b1 -> success b1 = true ->
  ingredients b1 = Some ingredientsList -> ingredientsList <> [] ->
  network env 1 recipes_request = Resolves r2 ->
  ok r2 = true -> json r2 = Parsed b2 -> success b2 = true ->
  recipes b2 = Some [] ->
  let w := snd (run env (page html dis label)) in
  Terminal w (RecipesEmpty ingredientsList) /\
  fetches (log w) = [EvFetch (first_request env); EvFetch recipes_request] /\
  timeouts (log w) = [].
Proof.
  intros Hvalid Hnet1 Hok1 Hjson1 Hs1 Hing Hne Hnet2 Hok2 Hjson2 Hs2 Hrs w.
  subst w.
  rewrite (lookup_no_recipes env html dis label r1 r2 b1 ingredientsList
             Hvalid Hnet1 Hok1 Hjson1 Hs1 Hing Hne Hnet2 Hok2 b2 Hjson2 Hs2
             Hrs).
  read_log.
Qed.

Lemma no_recipes_found_witness :
  passes_validation tomato_session = true /\
  Terminal (snd (run tomato_session blank))
    (RecipesEmpty ["tomato"; "basil"; "garlic"]).
Proof.
  split; [reflexivity|].
  exact (proj1 (no_recipes_found tomato_session "" false "Get Recipes"
                  _ _ (detected ["tomato"; "basil"; "garlic"]) (found [] 0)
                  ["tomato"; "basil"; "garlic"]
                  eq_refl eq_refl eq_refl eq_refl eq_refl eq_refl
                  ltac:(discriminate)
                  eq_refl eq_refl eq_refl eq_refl eq_refl)).
Defined.

(** X8.  When the recipe service answers its first request with a success
    status but its body has no set [success] flag or no [recipes], the run
    ends in Failed with the body's [error] (or "Failed to get recipes");
    this answer is not retried: one request to the recipe service, no
    delay. *)
Theorem recipe_service_refusal
  (env : Env) (html : string) (dis : bool) (label : string)
  (r1 r2 : Response) (b1 b2 : Body) (ingredientsList : list string) :
  passes_validation env = true ->
  network env 0 (first_request env) = Resolves r1 ->
  ok r1 = true -> json r1 = Parsed b1 -> success b1 = true ->
  ingredients b1 = Some ingredientsList -> ingredientsList <> [] ->
  network env 1 recipes_request = Resolves r2 ->
  ok r2 = true -> json r2 = Parsed b2 ->
  success b2 = false \/ recipes b2 = None ->
  let w := snd (run env (page html dis label)) in
  Terminal w (Failed (or_else (error b2) "Failed to get recipes")) /\
  fetches (log w) = [EvFetch (first_request env); EvFetch recipes_request] /\
  timeouts (log w) = [].
Proof.
  intros Hvalid Hnet1 Hok1 Hjson1 Hs1 Hing Hne Hnet2 Hok2 Hjson2 Hb w.
  subst w.
  rewrite (lookup_refused env html dis label r1 r2 b1 ingredientsList
             Hvalid Hnet1 Hok1 Hjson1 Hs1 Hing Hne Hnet2 Hok2 b2 Hjson2 Hb).
  read_log.
Qed.

(** The recipe service refuses, without a message. *)
Definition refused_lookup : Env :=
  session "eggs" []
    [Resolves (answer (detected ["egg"]));
     Resolves (answer empty_object)].

Lemma recipe_service_refusal_witness :
  passes_validation refused_lookup = true /\
  Terminal (snd (run refused_lookup blank)) (Failed "Failed to get recipes").
Proof.
  split; [reflexivity|].
  exact (proj1 (recipe_service_refusal refused_lookup "" false "Get Recipes"
                  _ _ (detected ["egg"]) empty_object ["egg"]
                  eq_refl eq_refl eq_refl eq_refl eq_refl eq_refl
                  ltac:(discriminate)
                  eq_refl eq_refl eq_refl (or_introl eq_refl))).
Defined.

(** X9.  When all three requests to the recipe service fail (their promises
    reject), the run ends in Failed with the message of the third error;
    the service was asked three times, with a delay of 1000 ms after the
    first failure, 2000 ms after the second and none after the third. *)
Theorem recipe_requests_all_rejected
  (env : Env) (html : string) (dis : bool) (label : string)
  (r1 : Response) (b1 : Body) (ingredientsList : list string)
  (e1 e2 e3 : JsError) :
  passes_validation env = true ->
  network env 0 (first_request env) = Resolves r1 ->
  ok r1 = true -> json r1 = Parsed b1 -> success b1 = true ->
  ingredients b1 = Some ingredientsList -> ingredientsList <> [] ->
  network env 1 recipes_request = Rejects e1 ->
  network env 2 recipes_request = Rejects e2 ->
  network env 3 recipes_request = Rejects e3 ->
  let w := snd (run env (page html dis label)) in
  Terminal w (Failed (message e3)) /\
  fetches (log w)
  = [EvFetch (first_request env); EvFetch recipes_request;
     EvFetch recipes_request; EvFetch recipes_request] /\
  timeouts (log w) = [EvTimeout 1000; EvTimeout 2000] /\
  exists before,
    log w = (before ++ [EvFetch recipes_request; EvConsoleError (message e3);
                        EvOutput (error_html (message e3));
                        EvDisabled false; EvButtonText "Get Recipes"])%list.
Proof.
  intros Hvalid Hnet1 Hok1 Hjson1 Hs1 Hing Hne Hn1 Hn2 Hn3 w. subst w.
  rewrite (lookup_rejected_three_times env html dis label r1 b1
             ingredientsList Hvalid Hnet1 Hok1 Hjson1 Hs1 Hing Hne
             e1 e2 e3 Hn1 Hn2 Hn3).
  read_log.
  exists [EvDisabled true; EvButtonText analyzing_label;
          EvOutput analyzing_html; EvFetch (first_request env);
          EvOutput (detected_html ingredientsList); EvButtonText finding_label;
          EvFetch recipes_request; EvTimeout 1000; EvFetch recipes_request;
          EvTimeout 2000].
  reflexivity.
Qed.

(** The recipe service cannot be reached. *)
Definition unreachable_lookup : Env :=
  session "eggs" [] [Resolves (answer (detected ["egg"]))].

Lemma recipe_requests_all_rejected_witness :
  passes_validation unreachable_lookup = true /\
  timeouts (log (snd (run unreachable_lookup blank)))
  = [EvTimeout 1000; EvTimeout 2000].
Proof.
  split; [reflexivity|].
  exact (proj1 (proj2 (proj2
           (recipe_requests_all_rejected unreachable_lookup
              "" false "Get Recipes" _ (detected ["egg"]) ["egg"]
              (mkError "Failed to fetch") (mkError "Failed to fetch")
              (mkError "Failed to fetch")
              eq_refl eq_refl eq_refl eq_refl eq_refl eq_refl
              ltac:(discriminate) eq_refl eq_refl eq_refl)))).
Defined.

(** X10.  A request to the recipe service that fails (its promise rejects)
    is repeated after its delay: after two such failures and a third answer
    with recipes, the run ends in Success with the recipes of the third
    answer, having asked three times and waited 1000 ms and 2000 ms. *)
Theorem recipe_request_retried_after_rejections
  (env : Env) (html : string) (dis : bool) (label : string)
  (r1 r2 : Response) (b1 b2 : Body) (ingredientsList : list string)
  (rs : list Recipe) (e1 e2 : JsError) :
  passes_validation env = true ->
  network env 0 (first_request env) = Resolves r1 ->
  ok r1 = true -> json r1 = Parsed b1 -> success b1 = true ->
  ingredients b1 = Some ingredientsList -> ingredientsList <> [] ->
  network env 1 recipes_request = Rejects e1 ->
  network env 2 recipes_request = Rejects e2 ->
  network env 3 recipes_request = Resolves r2 ->
  ok r2 = true -> json r2 = Parsed b2 -> success b2 = true ->
  recipes b2 = Some rs -> rs <> [] ->
  let w := snd (run env (page html dis label)) in
  Terminal w (Success ingredientsList rs (total_found b2)) /\
  fetches (log w)
  = [EvFetch (first_request env); EvFetch recipes_request;
     EvFetch recipes_request; EvFetch recipes_request] /\
  timeouts (log w) = [EvTimeout 1000; EvTimeout 2000].
Proof.
  intros Hvalid Hnet1 Hok1 Hjson1 Hs1 Hing Hne Hn1 Hn2 Hn3 Hok2 Hjson2 Hs2
    Hrs Hrne w.
  subst w.
  rewrite (lookup_rejections_retried env html dis label r1 b1 ingredientsList
             Hvalid Hnet1 Hok1 Hjson1 Hs1 Hing Hne e1 e2 r2 b2 rs
             Hn1 Hn2 Hn3 Hok2 Hjson2 Hs2 Hrs Hrne).
  read_log.
Qed.

(** The recipe service is reached at the third request. *)
Definition lookup_unreachable_twice : Env :=
  session "eggs and flour" []
    [Resolves (answer (detected ["egg"; "flour"]));
     Rejects (mkError "Failed to fetch"); Rejects (mkError "Failed to fetch");
     Resolves (answer (found [pancakes] 1))].

Lemma recipe_request_retried_after_rejections_witness :
  passes_validation lookup_unreachable_twice = true /\
  Terminal (snd (run lookup_unreachable_twice blank))
    (Success ["egg"; "flour"] [pancakes] (Some 1%Z)).
Proof.
  split; [reflexivity|].
  exact (proj1 (recipe_request_retried_after_rejections
                  lookup_unreachable_twice "" false "Get Recipes"
                  _ _ (detected ["egg"; "flour"]) (found [pancakes] 1)
                  ["egg"; "flour"] [pancakes]
                  (mkError "Failed to fetch") (mkError "Failed to fetch")
                  eq_refl eq_refl eq_refl eq_refl eq_refl eq_refl
                  ltac:(discriminate) eq_refl eq_refl eq_refl
                  eq_refl eq_refl eq_refl eq_refl ltac:(discriminate))).
Defined.

(** X11.  Whatever is entered and whatever the two services answer, the
    call of [getRecipes] ends normally (its promise resolves, no error
    escapes) and the page then shows one of the five outcomes: the
    "Analyzing" and "Finding recipes" states are never left on the page. *)
Theorem every_run_reaches_an_outcome
  (env : Env) (html : string) (dis : bool) (label : string) :
  fst (run env (page html dis label)) = Js.Ok tt /\
  exists o, Terminal (snd (run env (page html dis label))) o.
Proof.
  destruct (run_summary env html dis label) as (Hok & Hout & _).
  now split.
Qed.


(** X13.  A run reads of its inputs only the trimmed prompt, the first of
    the selected files and the answers of the network: white space around
    the prompt (of ASCII or not), further selected files and the file reader
    change nothing. *)
Theorem run_reads_only
  (env1 env2 : Env) (w : World) :
  Str.trim (promptValue env1) = Str.trim (promptValue env2) ->
  hd_error (files env1) = hd_error (files env2) ->
  network env1 = network env2 ->
  run env1 w = run env2 w.
Proof.
  intros Hprompt Hfile Hnet. unfold run, getRecipes.
  rewrite Hprompt, Hfile.
  unfold analyze, ingredients_received, find_recipes, fetch.
  rewrite Hnet. reflexivity.
Qed.

Lemma run_reads_only_witness :
  let answers := [Resolves (answer (detected []))] in
  let typed := Str.nbsp ++ " eggs" ++ Str.nbsp ++ Str.nl in
  Str.trim typed = Str.trim "eggs" /\
  run (session typed [photo; photo] answers) blank
  = run (session "eggs" [photo] answers) blank.
Proof.
  cbv zeta. split; [reflexivity|].
  exact (run_reads_only
           (session (Str.nbsp ++ " eggs" ++ Str.nbsp ++ Str.nl)
              [photo; photo] [Resolves (answer (detected []))])
           (session "eggs" [photo] [Resolves (answer (detected []))])
           blank eq_refl eq_refl eq_refl).
Defined.


(* ====================================================================== *)
(** * The renderer, the encoder, the file label and the connection test *)
(* ====================================================================== *)

Module StrMore.
Import Str StrFacts.

Lemma append_assoc (a b c : string) : (a ++ b) ++ c = a ++ b ++ c.
Proof.
  induction a as [|x a IH]; [reflexivity|]. cbn. now rewrite IH.
Qed.

Lemma split_lacks (sep : ascii) (s : string) :
  lacks sep s = true -> split sep s = [s].
Proof.
  intros H. unfold split. rewrite split_chars_lacks by exact H.
  cbn [rev app]. now rewrite of_chars_chars.
Qed.

(** The first two pieces of a text with at least two separators. *)
Lemma split_twice (sep : ascii) (a b c : string) :
  lacks sep a = true -> lacks sep b = true ->
  exists rest,
    split sep (a ++ String sep (b ++ String sep c)) = a :: b :: rest.
Proof.
  unfold lacks, split. intros Ha Hb.
  rewrite chars_app. cbn [chars list_ascii_of_string].
  rewrite split_chars_first by assumption.
  change (list_ascii_of_string (b ++ String sep c))
    with (chars (b ++ String sep c)).
  rewrite chars_app. cbn [chars list_ascii_of_string].
  rewrite split_chars_first by assumption.
  cbn [rev app]. rewrite !of_chars_chars. eexists. reflexivity.
Qed.

End StrMore.

(** X14.  A response of the recipe service without [total_found] still ends
    the run in Success; the heading of the recipe list then reads "Top 5
    Recipes (from undefined matches)". *)
Theorem missing_total_found_shown_as_undefined
  (env : Env) (html : string) (dis : bool) (label : string)
  (r1 r2 : Response) (b1 b2 : Body) (ingredientsList : list string)
  (rs : list Recipe) :
  passes_validation env = true ->
  network env 0 (first_request env) = Resolves r1 ->
  ok r1 = true -> json r1 = Parsed b1 -> success b1 = true ->
  ingredients b1 = Some ingredientsList -> ingredientsList <> [] ->
  network env 1 recipes_request = Resolves r2 ->
  ok r2 = true -> json r2 = Parsed b2 -> success b2 = true ->
  recipes b2 = Some rs -> rs <> [] ->
  total_found b2 = None ->
  let w := snd (run env (page html dis label)) in
  Terminal w (Success ingredientsList rs None) /\
  exists before after,
    outputHTML w
    = before ++ "Top 5 Recipes (from undefined matches):</h3>" ++ after.
Proof.
  intros Hvalid Hnet1 Hok1 Hjson1 Hs1 Hing Hne Hnet2 Hok2 Hjson2 Hs2 Hrs
    Hrne Htotal w.
  subst w.
  rewrite (lookup_success env html dis label r1 b1 ingredientsList
             Hvalid Hnet1 Hok1 Hjson1 Hs1 Hing Hne r2 b2 rs
             Hnet2 Hok2 Hjson2 Hs2 Hrs Hrne).
  rewrite Htotal. cbn [snd final_page outputHTML].
  split; [reflexivity|].
  unfold recipes_html, show_number.
  match goal with
  | |- exists before after,
         ?a ++ ?b ++ ?c ++ ?d ++ ?e ++ ?f ++ ?g ++ ?h ++ ?i ++ ?j ++ ?k
         ++ ?m ++ ?n ++ ?o ++ ?p ++ ?q = _ =>
      exists (a ++ b ++ c ++ d ++ e ++ f ++ g ++ h ++ i ++ j ++ k ++ m
              ++ ">"),
             (String.substring 15 (String.length p - 15) p ++ q)
  end.
  rewrite !StrMore.append_assoc. reflexivity.
Qed.

(** [{ success: true, recipes: rs }]. *)
Definition found_uncounted (rs : list Recipe) : Body :=
  {| success := true; ingredients := None; recipes := Some rs;
     total_found := None; error := None |}.

Definition uncounted_session : Env :=
  session "eggs and flour" []
    [Resolves (answer (detected ["egg"; "flour"]));
     Resolves (answer (found_uncounted [pancakes]))].

Lemma missing_total_found_shown_as_undefined_witness :
  passes_validation uncounted_session = true /\
  Terminal (snd (run uncounted_session blank))
    (Success ["egg"; "flour"] [pancakes] None).
Proof.
  split; [reflexivity|].
  exact (proj1 (missing_total_found_shown_as_undefined
                  uncounted_session "" false "Get Recipes"
                  _ _ (detected ["egg"; "flour"]) (found_uncounted [pancakes])
                  ["egg"; "flour"] [pancakes]
                  eq_refl eq_refl eq_refl eq_refl eq_refl eq_refl
                  ltac:(discriminate) eq_refl eq_refl eq_refl eq_refl
                  eq_refl ltac:(discriminate) eq_refl)).
Defined.

Import FileDisplay Health.

(** X16.  When the data URL the reader gives has no comma, the encoder
    resolves with [undefined]: it does not fail. *)
Theorem fileToBase64_without_comma
  (env : Env) (f : File) (w : World) (result : string) :
  reader env f = Loaded result ->
  Str.lacks "," result = true ->
  fileToBase64 env f w = (Js.Ok None, emit (EvReadAsDataURL f) w).
Proof.
  intros Hread Hlacks. unfold fileToBase64. rewrite Hread.
  now rewrite (StrMore.split_lacks "," result Hlacks).
Qed.

Lemma fileToBase64_without_comma_witness :
  Str.lacks "," "data:" = true /\
  fst (fileToBase64
         {| promptValue := ""; files := [photo]; network := scripted [];
            reader := fun _ => Loaded "data:" |} photo blank)
  = Js.Ok None.
Proof.
  split; [reflexivity|].
  rewrite (fileToBase64_without_comma
             {| promptValue := ""; files := [photo]; network := scripted [];
                reader := fun _ => Loaded "data:" |} photo blank "data:"
             eq_refl eq_refl).
  reflexivity.
Defined.

(** X17.  When the data URL has a second comma, the encoder gives only the
    text between the first comma and the second: what follows the second
    comma is dropped. *)
Theorem fileToBase64_cut_at_second_comma
  (env : Env) (f : File) (w : World) (prefix middle tail : string) :
  reader env f = Loaded (prefix ++ "," ++ middle ++ "," ++ tail) ->
  Str.lacks "," prefix = true ->
  Str.lacks "," middle = true ->
  fileToBase64 env f w = (Js.Ok (Some middle), emit (EvReadAsDataURL f) w).
Proof.
  intros Hread Hprefix Hmiddle. unfold fileToBase64. rewrite Hread.
  change (prefix ++ "," ++ middle ++ "," ++ tail)
    with (prefix ++ String "," (middle ++ String "," tail)).
  destruct (StrMore.split_twice "," prefix middle tail Hprefix Hmiddle)
    as (rest & ->).
  reflexivity.
Qed.

Lemma fileToBase64_cut_at_second_comma_witness :
  Str.lacks "," "data:text/plain;charset=utf-8" = true /\
  fst (fileToBase64
         {| promptValue := ""; files := [photo]; network := scripted [];
            reader := fun _ => Loaded "data:text/plain;charset=utf-8,a,b" |}
         photo blank)
  = Js.Ok (Some "a").
Proof.
  split; [reflexivity|].
  rewrite (fileToBase64_cut_at_second_comma
             {| promptValue := ""; files := [photo]; network := scripted [];
                reader := fun _ => Loaded "data:text/plain;charset=utf-8,a,b" |}
             photo blank "data:text/plain;charset=utf-8" "a" "b"
             eq_refl eq_refl eq_refl).
  reflexivity.
Defined.

(** X18.  For a selected file, the label shows its name and the status line
    shows its size in KB with two decimals: the number of hundredths shown
    is the byte count divided by 10.24, rounded to the nearest integer
    (halves upwards).  Only the first selected file is described. *)
Theorem displayFileName_rounds_size (f : File) (others : list File) :
  let shown := displayFileName (f :: others) in
  let q := hundredths (size f) in
  fileNameDisplay shown = fileName f /\
  imageStatus shown
  = "File selected: " ++ fileName f ++ " (" ++ Str.of_nat (q / 100) ++ "."
    ++ two_digits (q mod 100) ++ " KB)" /\
  q mod 100 < 100 /\
  256 * q <= 25 * size f + 128 < 256 * (q + 1).
Proof.
  cbv zeta. split; [reflexivity|]. split.
  { unfold displayFileName, toFixed2. cbn [hd_error imageStatus].
    now rewrite !StrMore.append_assoc. }
  split; [apply Nat.mod_upper_bound; discriminate|].
  unfold hundredths.
  pose proof (Nat.div_mod_eq (25 * size f + 128) 256) as Hdiv.
  pose proof (Nat.mod_upper_bound (25 * size f + 128) 256 ltac:(discriminate)).
  lia.
Qed.

(** Whole and half kilobytes, and the file label without a selection. *)
Example displayFileName_examples :
  toFixed2 (hundredths 1024) = "1.00" /\
  toFixed2 (hundredths 1536) = "1.50" /\
  toFixed2 (hundredths 128) = "0.13" /\
  toFixed2 (hundredths 0) = "0.00" /\
  displayFileName []
  = {| fileNameDisplay := "Upload/Capture Photo";
       imageStatus := "No image selected." |}.
Proof. vm_compute. repeat split. Qed.

(** X19.  The connection test asks for the analysis URL with "/analyze"
    replaced by "/health", once, and never fails, whatever the answer: a
    success status is logged, a refused or failed request is reported as a
    warning with the error's message, and a non-success status leaves no
    message at all. *)
Theorem probe_never_fails (answer : string -> FetchOutcome) :
  healthUrl = "https://ingredient-analyzer-beta.vercel.app/api/health" /\
  fst (probe answer []) = Js.Ok tt /\
  snd (probe answer [])
  = Requested healthUrl
    :: match answer healthUrl with
       | Resolves r =>
           if ok r then [ConsoleLog "✅ Backend API is reachable"] else []
       | Rejects e =>
           [ConsoleWarn "⚠️ Could not reach backend API:" (message e)]
       end.
Proof.
  split; [reflexivity|].
  unfold probe, Js.try_catch, Js.bind, Js.effect, Js.ret.
  destruct (answer healthUrl) as [r|e]; [destruct (ok r)|]; split; reflexivity.
Qed.


(* ====================================================================== *)
(** * The markdown transform on whole classes of texts *)
(* ====================================================================== *)

Module MarkdownFacts.
Import Str StrFacts Regex Markdown.

(** Text in ASCII.  There a character of the model is a character of the
    script's string, and the line terminators the regular expressions know
    are LF and CR: the facts below are stated for such text. *)
Definition ascii_text (s : string) : bool :=
  forallb (fun c => (nat_of_ascii c <? 128)%nat) (chars s).

Lemma lacks_nth (c : ascii) (s : string) :
  lacks c s = true -> forall p, nth_error (chars s) p <> Some c.
Proof.
  unfold lacks. intros H p Hp.
  rewrite forallb_forall in H. specialize (H c (nth_error_In _ _ Hp)).
  now rewrite Ascii.eqb_refl in H.
Qed.

Lemma lacks_app (c : ascii) (a b : string) :
  lacks c (a ++ b) = lacks c a && lacks c b.
Proof. unfold lacks. now rewrite chars_app, forallb_app. Qed.

Lemma of_chars_app (a b : list ascii) :
  of_chars (a ++ b) = of_chars a ++ of_chars b.
Proof.
  unfold of_chars. induction a as [|c a IH]; [reflexivity|].
  cbn. now rewrite IH.
Qed.

(** ** Patterns that cannot match *)

(** The first character a match of the pattern must consume is [c]. *)
Inductive starts_with (c : ascii) : regex -> Prop :=
| sw_chr : starts_with c (Chr c)
| sw_seq r1 r2 : starts_with c r1 -> starts_with c (Seq r1 r2)
| sw_bol r : starts_with c r -> starts_with c (Seq Bol r)
| sw_group n r : starts_with c r -> starts_with c (Group n r).

Lemma rmatch_starts_with (fl : flags) (inp : list ascii) (c : ascii)
  (r : regex) :
  starts_with c r ->
  (forall p, nth_error inp p <> Some c) ->
  forall k s, rmatch fl inp r k s = None.
Proof.
  intros Hr Hinp. induction Hr; intros k s; cbn [rmatch].
  - destruct (nth_error inp (pos s)) as [c'|] eqn:Hn; [|reflexivity].
    destruct (Ascii.eqb_spec c c') as [->|]; [|reflexivity].
    now apply Hinp in Hn.
  - apply IHHr.
  - destruct (at_bol fl inp (pos s)); [apply IHHr|reflexivity].
  - apply IHHr.
Qed.

Lemma search_none (fl : flags) (inp : list ascii) (r : regex) :
  (forall p, match_at fl inp r p = None) ->
  forall fuel p, search fl inp r fuel p = None.
Proof.
  intros H. induction fuel as [|fuel IH]; intros p; cbn [search];
    rewrite H; [reflexivity|apply IH].
Qed.

(** A pattern that matches nowhere leaves the text as it is. *)
Lemma replace_all_id (fl : flags) (r : regex) (tpl : list titem) (s : string) :
  (forall p, match_at fl (chars s) r p = None) ->
  replace_all fl r tpl s = s.
Proof.
  intros H. unfold replace_all. rewrite Nat.add_comm. cbn [Nat.add replace_loop].
  unfold exec. destruct (length (chars s) <? 0)%nat; cbn [skipn];
    [apply of_chars_chars|].
  rewrite search_none by exact H. apply of_chars_chars.
Qed.

Lemma replace_all_lacks (fl : flags) (r : regex) (tpl : list titem)
  (c : ascii) (s : string) :
  starts_with c r -> lacks c s = true -> replace_all fl r tpl s = s.
Proof.
  intros Hr Hs. apply replace_all_id. intros p.
  apply (rmatch_starts_with fl _ c r Hr (lacks_nth c s Hs)).
Qed.


(** ** Text without markup characters *)

Lemma chars_of_chars (l : list ascii) : chars (of_chars l) = l.
Proof. apply list_ascii_of_string_of_list_ascii. Qed.

Lemma forallb_rev {A} (f : A -> bool) (l : list A) :
  forallb f (rev l) = forallb f l.
Proof.
  induction l as [|x l IH]; [reflexivity|].
  cbn. rewrite forallb_app, IH. cbn. rewrite andb_true_r. apply andb_comm.
Qed.

Lemma split_chars_lack (c sep : ascii) (l cur : list ascii) :
  forallb (fun x => negb (Ascii.eqb x c)) l = true ->
  forallb (fun x => negb (Ascii.eqb x c)) cur = true ->
  Forall (fun piece => lacks c piece = true) (split_chars sep cur l).
Proof.
  revert cur; induction l as [|x l IH]; intros cur Hl Hcur.
  - cbn. constructor; [|constructor].
    unfold lacks. rewrite chars_of_chars, forallb_rev. exact Hcur.
  - cbn in Hl. apply andb_true_iff in Hl as [Hx Hl].
    cbn [split_chars]. destruct (Ascii.eqb x sep).
    + constructor; [|now apply IH].
      unfold lacks. rewrite chars_of_chars, forallb_rev. exact Hcur.
    + apply IH; [exact Hl|]. cbn. now rewrite Hx.
Qed.

Lemma split_lack (c sep : ascii) (s : string) :
  lacks c s = true ->
  Forall (fun piece => lacks c piece = true) (split sep s).
Proof. intros H. now apply split_chars_lack. Qed.

Lemma startsWith_lacks (c : ascii) (s : string) :
  lacks c s = true -> startsWith (String c "") s = false.
Proof.
  destruct s as [|x s]; [reflexivity|].
  unfold lacks, startsWith. cbn. intros H.
  apply andb_true_iff in H as [Hx _].
  destruct (ascii_dec c x) as [->|]; [|reflexivity].
  now rewrite Ascii.eqb_refl in Hx.
Qed.

Ltac first_char :=
  cbv [re_heading re_item re_items re_rule re_bold re_italic Plus seqs lit];
  repeat first [apply sw_chr | apply sw_bol | apply sw_group | apply sw_seq].

Lemma starts_with_heading (hashes : string) :
  starts_with "#" (re_heading (String "#" hashes)).
Proof. first_char. Qed.

(** Text without [#], [*], [<] and [-] goes through the eight replacements
    unchanged. *)
Lemma plain_text_unchanged_by_replacements (text : string) :
  lacks "#" text = true -> lacks "*" text = true ->
  lacks "<" text = true -> lacks "-" text = true ->
  simpleMarkdownToHtml text
  = join nl (map paragraph (split lf text)).
Proof.
  intros Hhash Hstar Hlt Hdash. unfold simpleMarkdownToHtml. cbv zeta.
  rewrite (replace_all_lacks gm (re_heading "###") _ "#" text)
    by (assumption || apply starts_with_heading).
  rewrite (replace_all_lacks gm (re_heading "##") _ "#" text)
    by (assumption || apply starts_with_heading).
  rewrite (replace_all_lacks gm (re_heading "#") _ "#" text)
    by (assumption || apply starts_with_heading).
  rewrite (replace_all_lacks gm re_item _ "*" text)
    by (assumption || first_char).
  rewrite (replace_all_lacks gs re_items _ "<" text)
    by (assumption || first_char).
  rewrite (replace_all_lacks gm re_rule _ "-" text)
    by (assumption || first_char).
  rewrite (replace_all_lacks g re_bold _ "*" text)
    by (assumption || first_char).
  rewrite (replace_all_lacks g re_italic _ "*" text)
    by (assumption || first_char).
  reflexivity.
Qed.


(** ** Patterns anchored at the start of a line *)

Definition no_terminators (inp : list ascii) : Prop :=
  forall p c, nth_error inp p = Some c -> is_line_terminator c = false.

Lemma no_terminators_lacks (s : string) :
  lacks lf s = true -> lacks cr s = true -> no_terminators (chars s).
Proof.
  intros Hlf Hcr p c Hp. unfold is_line_terminator.
  destruct (Ascii.eqb_spec c lf) as [->|];
    [now apply (lacks_nth lf s Hlf) in Hp|].
  destruct (Ascii.eqb_spec c cr) as [->|];
    [now apply (lacks_nth cr s Hcr) in Hp|reflexivity].
Qed.

(** In a text of one line such a pattern can only match at its start. *)
Lemma match_at_anchored (fl : flags) (inp : list ascii) (r : regex) (p : nat) :
  no_terminators inp -> match_at fl inp (Seq Bol r) (S p) = None.
Proof.
  intros H. unfold match_at. cbn [rmatch pos at_bol].
  destruct (nth_error inp p) as [c|] eqn:Hp.
  - now rewrite (H _ _ Hp), andb_false_r.
  - now rewrite andb_false_r.
Qed.

Lemma replace_all_anchored_id (fl : flags) (r : regex) (tpl : list titem)
  (s : string) :
  no_terminators (chars s) ->
  match_at fl (chars s) (Seq Bol r) 0 = None ->
  replace_all fl (Seq Bol r) tpl s = s.
Proof.
  intros Hs H0. apply replace_all_id. intros [|p]; [exact H0|].
  now apply match_at_anchored.
Qed.

(** ** The loop of [r*], by name *)

Definition star_loop (fl : flags) (inp : list ascii) (greedy : bool)
  (r' : regex) (k : mstate -> option mstate)
  : nat -> mstate -> option mstate :=
  fix loop (n : nat) (s : mstate) {struct n} : option mstate :=
    match n with
    | O => k s
    | S n' =>
        let again (_ : unit) :=
          rmatch fl inp r'
            (fun s' => if (pos s <? pos s')%nat then loop n' s' else None)
            (clear_caps (groups_of r') s) in
        if greedy
        then match again tt with Some m => Some m | None => k s end
        else match k s with Some m => Some m | None => again tt end
    end.

Lemma rmatch_star (fl : flags) (inp : list ascii) (greedy : bool)
  (r' : regex) (k : mstate -> option mstate) (s : mstate) :
  rmatch fl inp (Star greedy r') k s
  = star_loop fl inp greedy r' k (length inp - pos s) s.
Proof. reflexivity. Qed.

Lemma filter_all {A} (f : A -> bool) (l : list A) :
  (forall x, f x = true) -> filter f l = l.
Proof.
  intros H. induction l as [|x l IH]; [reflexivity|].
  cbn. now rewrite H, IH.
Qed.

Lemma clear_no_caps (s : mstate) : clear_caps [] s = s.
Proof.
  destruct s as [p c]. unfold clear_caps. cbn [pos caps existsb negb].
  now rewrite filter_all.
Qed.

(** The characters [.] accepts: from [start] on, every one. *)
Definition dots_from (fl : flags) (inp : list ascii) (start : nat) : Prop :=
  forall q ch, start <= q -> nth_error inp q = Some ch ->
               dotAll fl || negb (is_line_terminator ch) = true.

(** Greedy [.*] runs to the end of the text when the rest of the pattern
    matches there. *)
Lemma star_dot_greedy (fl : flags) (inp : list ascii)
  (k : mstate -> option mstate) (m : mstate) (cs : list (nat * (nat * nat))) :
  k {| pos := length inp; caps := cs |} = Some m ->
  forall n p,
    length inp - p <= n -> p <= length inp -> dots_from fl inp p ->
    star_loop fl inp true Dot k n {| pos := p; caps := cs |} = Some m.
Proof.
  intros Hk. induction n as [|n IH]; intros p Hn Hp Hdots.
  - cbn [star_loop]. replace p with (length inp) by lia. exact Hk.
  - cbn [star_loop groups_of]. rewrite clear_no_caps.
    cbn [rmatch pos caps].
    destruct (nth_error inp p) as [ch|] eqn:Hch.
    + rewrite (Hdots p ch (le_n p) Hch).
      replace (p <? S p)%nat with true by (symmetry; apply Nat.ltb_lt; lia).
      assert (Hlt : p < length inp) by (apply nth_error_Some; congruence).
      rewrite IH; [reflexivity|lia|lia|].
      intros q c Hq. apply Hdots. lia.
    + apply nth_error_None in Hch. replace p with (length inp) by lia.
      exact Hk.
Qed.

Lemma rmatch_dot_hit (fl : flags) (inp : list ascii)
  (k : mstate -> option mstate) (p : nat) (cs : list (nat * (nat * nat)))
  (ch : ascii) :
  nth_error inp p = Some ch ->
  dotAll fl || negb (is_line_terminator ch) = true ->
  rmatch fl inp Dot k {| pos := p; caps := cs |}
  = k {| pos := S p; caps := cs |}.
Proof. intros H1 H2. cbn [rmatch pos caps]. now rewrite H1, H2. Qed.

(** [(.+)$] from [start] on takes the rest of the text as group 1. *)
Lemma capture_line (fl : flags) (inp : list ascii) (start : nat) :
  start < length inp -> dots_from fl inp start ->
  rmatch fl inp (Seq (Group 1 (Plus true Dot)) Eol) (fun s => Some s)
    {| pos := start; caps := [] |}
  = Some {| pos := length inp; caps := [(1, (start, length inp))] |}.
Proof.
  intros Hstart Hdots. unfold Plus.
  change (rmatch fl inp (Seq (Group 1 (Seq Dot (Star true Dot))) Eol)
            (fun s => Some s) {| pos := start; caps := [] |})
    with (rmatch fl inp Dot
            (rmatch fl inp (Star true Dot)
               (fun s' => rmatch fl inp Eol (fun s => Some s)
                            (set_cap 1 start (pos s') s')))
            {| pos := start; caps := [] |}).
  destruct (nth_error inp start) as [ch|] eqn:Hch;
    [|apply nth_error_None in Hch; lia].
  rewrite (rmatch_dot_hit fl inp _ start [] ch Hch
             (Hdots start ch (le_n start) Hch)).
  rewrite rmatch_star. cbn [pos].
  apply star_dot_greedy; [|lia|lia|intros q c Hq; apply Hdots; lia].
  cbn [rmatch pos caps]. unfold at_eol, set_cap. cbn [pos caps filter].
  replace (nth_error inp (length inp)) with (@None ascii)
    by (symmetry; apply nth_error_None; lia).
  reflexivity.
Qed.


(** ** A pattern that matches the whole text *)

Lemma length_chars (s : string) : length (chars s) = String.length s.
Proof. induction s as [|c s IH]; [reflexivity|]. cbn. now rewrite IH. Qed.

Lemma rmatch_lit (fl : flags) (inp : list ascii) (w : string)
  (k : mstate -> option mstate) (cs : list (nat * (nat * nat))) :
  forall pre post,
    inp = (pre ++ chars w ++ post)%list ->
    rmatch fl inp (lit w) k {| pos := length pre; caps := cs |}
    = k {| pos := length pre + String.length w; caps := cs |}.
Proof.
  induction w as [|c w IH]; intros pre post Hinp.
  - cbn. now rewrite Nat.add_0_r.
  - cbn [lit rmatch pos caps String.length].
    assert (Hc : nth_error inp (length pre) = Some c).
    { rewrite Hinp, nth_error_app2, Nat.sub_diag by lia. reflexivity. }
    rewrite Hc, Ascii.eqb_refl.
    specialize (IH (pre ++ [c])%list post).
    rewrite length_app in IH. cbn [length] in IH.
    replace (length pre + 1) with (S (length pre)) in IH by lia.
    rewrite IH; [f_equal; f_equal; lia|].
    rewrite Hinp, <- app_assoc. reflexivity.
Qed.

Lemma rmatch_chr_hit (fl : flags) (inp : list ascii) (c : ascii)
  (k : mstate -> option mstate) (p : nat) (cs : list (nat * (nat * nat))) :
  nth_error inp p = Some c ->
  rmatch fl inp (Chr c) k {| pos := p; caps := cs |}
  = k {| pos := S p; caps := cs |}.
Proof. intros H. cbn [rmatch pos caps]. now rewrite H, Ascii.eqb_refl. Qed.

(** The rest of a line pattern: [(.+)$]. *)
Definition rest_of_line : regex := Seq (Group 1 (Plus true Dot)) Eol.

Lemma slice_suffix (pre body : list ascii) :
  slice (pre ++ body) (length pre) (length (pre ++ body)) = body.
Proof.
  unfold slice. rewrite skipn_app, skipn_all, Nat.sub_diag. cbn [skipn app].
  rewrite length_app. replace (length pre + length body - length pre)
    with (length body) by lia.
  apply firstn_all.
Qed.

(** An anchored pattern that reads [pre] and then the rest of the line
    replaces a one-line text [pre ++ body] by the tagged [body]. *)
Lemma replace_line (fl : flags) (R : regex) (name attrs : string)
  (pre body : string) :
  no_terminators (chars (pre ++ body)) ->
  body <> "" ->
  (forall k,
     rmatch fl (chars (pre ++ body)) R k {| pos := 0; caps := [] |}
     = rmatch fl (chars (pre ++ body)) rest_of_line k
         {| pos := String.length pre; caps := [] |}) ->
  replace_all fl (Seq Bol R) (tag name attrs) (pre ++ body)
  = "<" ++ name ++ cls attrs ++ ">" ++ body ++ "</" ++ name ++ ">".
Proof.
  intros Hterm Hbody HR. unfold replace_all.
  set (inp := chars (pre ++ body)) in *.
  assert (Hlen : length inp = String.length pre + String.length body).
  { unfold inp. rewrite chars_app, length_app.
    now rewrite !length_chars. }
  assert (Hpos : 0 < String.length body)
    by (destruct body; [congruence|cbn; lia]).
  assert (Hm : match_at fl inp (Seq Bol R) 0
               = Some {| pos := length inp;
                         caps := [(1, (String.length pre, length inp))] |}).
  { unfold match_at.
    change (rmatch fl inp (Seq Bol R) (fun s => Some s)
              {| pos := 0; caps := [] |})
      with (rmatch fl inp R (fun s => Some s) {| pos := 0; caps := [] |}).
    rewrite HR. apply capture_line; [lia|].
    intros q ch _ Hq. now rewrite (Hterm q ch Hq), orb_true_r. }
  rewrite Nat.add_comm. cbn [Nat.add replace_loop].
  unfold exec at 1. replace (length inp <? 0)%nat with false by reflexivity.
  rewrite Nat.sub_0_r.
  replace (search fl inp (Seq Bol R) (length inp) 0)
    with (Some (0, {| pos := length inp;
                       caps := [(1, (String.length pre, length inp))] |}))
    by (destruct (length inp); cbn [search]; now rewrite Hm).
  cbn [pos]. replace (length inp =? 0)%nat with false
    by (symmetry; apply Nat.eqb_neq; lia).
  unfold exec. rewrite Nat.ltb_irrefl, Nat.sub_diag. cbn [search].
  replace (match_at fl inp (Seq Bol R) (length inp)) with (@None mstate).
  2:{ symmetry. destruct (length inp) eqn:E; [lia|].
      now apply match_at_anchored. }
  rewrite skipn_all. unfold slice at 1. cbn [Nat.sub firstn app].
  unfold tag, expand. cbn [flat_map expand_item find fst snd pos caps Nat.eqb].
  assert (Hslice : slice inp (String.length pre) (length inp) = chars body).
  { unfold inp. rewrite chars_app.
    rewrite <- (length_chars pre).
    apply slice_suffix. }
  rewrite Hslice, !app_nil_r, !of_chars_app, !of_chars_chars.
  now rewrite !StrMore.append_assoc.
Qed.


(** ** One-line texts that start with a tag *)

Lemma rmatch_first_char (fl : flags) (inp : list ascii) (c : ascii)
  (r : regex) :
  starts_with c r ->
  forall k s, nth_error inp (pos s) <> Some c -> rmatch fl inp r k s = None.
Proof.
  intros Hr. induction Hr; intros k s Hs; cbn [rmatch].
  - destruct (nth_error inp (pos s)) as [c'|] eqn:Hn; [|reflexivity].
    destruct (Ascii.eqb_spec c c') as [->|]; [congruence|reflexivity].
  - now apply IHHr.
  - destruct (at_bol fl inp (pos s)); [now apply IHHr|reflexivity].
  - now apply IHHr.
Qed.

(** An anchored pattern does nothing to a one-line text whose first
    character is not the one the pattern starts with. *)
Lemma replace_all_other_start (fl : flags) (R : regex) (tpl : list titem)
  (c x : ascii) (rest : string) :
  starts_with c R -> x <> c ->
  no_terminators (chars (String x rest)) ->
  replace_all fl (Seq Bol R) tpl (String x rest) = String x rest.
Proof.
  intros HR Hx Hterm. apply replace_all_anchored_id; [exact Hterm|].
  unfold match_at. apply rmatch_first_char with (c := c).
  - now apply sw_bol.
  - cbn. congruence.
Qed.

(** [w] is a prefix of [l]. *)
Fixpoint occurs_at (w l : list ascii) : bool :=
  match w, l with
  | [], _ => true
  | _ :: _, [] => false
  | c :: w', x :: l' => Ascii.eqb c x && occurs_at w' l'
  end.

(** [w] occurs nowhere in [l]. *)
Fixpoint word_free (w l : list ascii) : bool :=
  negb (occurs_at w l)
  && match l with
     | [] => true
     | _ :: l' => word_free w l'
     end.

Lemma word_free_skipn (w l : list ascii) :
  word_free w l = true -> forall p, occurs_at w (skipn p l) = false.
Proof.
  revert w. induction l as [|x l IH]; intros w H p.
  - rewrite skipn_nil. cbn in H. rewrite andb_true_r in H.
    now apply negb_true_iff in H.
  - cbn [word_free] in H. apply andb_true_iff in H as [H0 Hl].
    destruct p as [|p]; [now apply negb_true_iff in H0|].
    cbn [skipn]. now apply IH.
Qed.

Lemma word_free_app_lacks (c : ascii) (w x y : list ascii) :
  forallb (fun a => negb (Ascii.eqb a c)) x = true ->
  word_free (c :: w) y = true ->
  word_free (c :: w) (x ++ y) = true.
Proof.
  intros Hx Hy. induction x as [|a x IH]; [exact Hy|].
  cbn in Hx. apply andb_true_iff in Hx as [Ha Hx].
  cbn [app word_free occurs_at]. apply negb_true_iff in Ha.
  rewrite Ascii.eqb_sym, Ha. now apply IH.
Qed.

Lemma skipn_nth_error {A} (l : list A) (p : nat) (x : A) :
  nth_error l p = Some x -> skipn p l = x :: skipn (S p) l.
Proof.
  revert p. induction l as [|a l IH]; intros [|p] H; try discriminate.
  - now injection H as ->.
  - cbn in H. cbn [skipn]. rewrite (IH p H). reflexivity.
Qed.

(** A literal fails where its text does not stand. *)
Lemma rmatch_lit_miss (fl : flags) (inp : list ascii) (w : string) :
  forall k s,
    occurs_at (chars w) (skipn (pos s) inp) = false ->
    rmatch fl inp (lit w) k s = None.
Proof.
  induction w as [|c w IH]; intros k s H; [discriminate|].
  cbn [lit rmatch].
  destruct (nth_error inp (pos s)) as [x|] eqn:Hx; [|reflexivity].
  rewrite (skipn_nth_error inp (pos s) x Hx) in H.
  cbn [chars list_ascii_of_string occurs_at] in H.
  destruct (Ascii.eqb c x); [|reflexivity].
  apply IH. exact H.
Qed.

(** The wrapping step leaves a text alone in which [<li>] does not occur. *)
Lemma replace_all_items_id (tpl : list titem) (s : string) :
  word_free (chars "<li>") (chars s) = true ->
  replace_all gs re_items tpl s = s.
Proof.
  intros H. apply replace_all_id. intros p.
  unfold match_at, re_items, Plus. cbn [seqs rmatch].
  apply rmatch_lit_miss. cbn [pos]. now apply word_free_skipn.
Qed.

(** What is left of the transform for a one-line text that starts with a
    tag and has no [*] and no [<l]: nothing changes it any more. *)
Record settled (t : string) : Prop := {
  settled_heading : forall hashes tpl,
    replace_all gm (re_heading (String "#" hashes)) tpl t = t;
  settled_item : forall tpl, replace_all gm re_item tpl t = t;
  settled_items : forall tpl, replace_all gs re_items tpl t = t;
  settled_rule : forall tpl, replace_all gm re_rule tpl t = t;
  settled_bold : forall tpl, replace_all g re_bold tpl t = t;
  settled_italic : forall tpl, replace_all g re_italic tpl t = t;
  settled_paragraph : join nl (map paragraph (split lf t)) = t
}.

Lemma tagged_line_settled (rest : string) :
  lacks lf (String "<" rest) = true ->
  lacks cr (String "<" rest) = true ->
  lacks "*" (String "<" rest) = true ->
  word_free (chars "<li>") (chars (String "<" rest)) = true ->
  settled (String "<" rest).
Proof.
  intros Hlf Hcr Hstar Hpair.
  pose proof (no_terminators_lacks _ Hlf Hcr) as Hterm.
  split.
  - intros hashes tpl.
    apply (replace_all_other_start gm _ tpl "#" "<" rest);
      [|discriminate|exact Hterm].
    cbv [seqs lit]. apply sw_seq, sw_seq, sw_chr.
  - intros tpl.
    apply (replace_all_other_start gm _ tpl "*" "<" rest);
      [|discriminate|exact Hterm].
    cbv [seqs lit]. apply sw_seq, sw_seq, sw_chr.
  - intros tpl. now apply replace_all_items_id.
  - intros tpl.
    apply (replace_all_other_start gm _ tpl "-" "<" rest);
      [|discriminate|exact Hterm].
    cbv [seqs lit]. apply sw_seq, sw_seq, sw_chr.
  - intros tpl. apply (replace_all_lacks g re_bold tpl "*"); [first_char|].
    exact Hstar.
  - intros tpl. apply (replace_all_lacks g re_italic tpl "*"); [first_char|].
    exact Hstar.
  - rewrite (StrMore.split_lacks lf _ Hlf). cbn [map join].
    unfold paragraph. replace (startsWith "<" (String "<" rest)) with true
      by (now destruct rest).
    now rewrite andb_false_r.
Qed.


(** [re_heading] and [re_item] without their anchor. *)
Definition heading_body (hashes : string) : regex :=
  seqs [lit hashes; Chr " "; Group 1 (Plus true Dot); Eol].

Definition item_body : regex := seqs [lit "* "; Group 1 (Plus true Dot); Eol].

Section Line.
Variable title : string.
Hypothesis Hne : title <> "".
Hypothesis Hlf : lacks lf title = true.
Hypothesis Hcr : lacks cr title = true.
Hypothesis Hstar : lacks "*" title = true.
Hypothesis Hlt : lacks "<" title = true.

(** A text [opening ++ title ++ closing] with fixed tags. *)
Ltac settle opening closing :=
  match goal with
  | |- settled ?t => change t with (opening ++ title ++ closing)
  end;
  apply tagged_line_settled;
  [ change (lacks lf (opening ++ title ++ closing) = true);
    now rewrite !lacks_app, Hlf
  | change (lacks cr (opening ++ title ++ closing) = true);
    now rewrite !lacks_app, Hcr
  | change (lacks "*" (opening ++ title ++ closing) = true);
    now rewrite !lacks_app, Hstar
  | change (word_free (chars "<li>")
              (chars opening ++ chars (title ++ closing)) = true);
    cbn; rewrite chars_app; now apply word_free_app_lacks ].

Lemma h1_settled :
  settled ("<" ++ "h1" ++ cls "text-3xl font-extrabold mt-8 mb-4"
           ++ ">" ++ title ++ "</" ++ "h1" ++ ">").
Proof.
  settle ("<h1" ++ cls "text-3xl font-extrabold mt-8 mb-4" ++ ">") "</h1>".
Qed.

Lemma h2_settled :
  settled ("<" ++ "h2" ++ cls "text-2xl font-bold mt-6 mb-3 text-blue-800"
           ++ ">" ++ title ++ "</" ++ "h2" ++ ">").
Proof.
  settle ("<h2" ++ cls "text-2xl font-bold mt-6 mb-3 text-blue-800" ++ ">")
         "</h2>".
Qed.

Lemma h3_settled :
  settled ("<" ++ "h3" ++ cls "text-xl font-semibold mt-4 mb-2"
           ++ ">" ++ title ++ "</" ++ "h3" ++ ">").
Proof.
  settle ("<h3" ++ cls "text-xl font-semibold mt-4 mb-2" ++ ">") "</h3>".
Qed.

Lemma li_settled :
  settled ("<" ++ "li" ++ cls "ml-6" ++ ">" ++ title ++ "</" ++ "li" ++ ">").
Proof. settle ("<li" ++ cls "ml-6" ++ ">") "</li>". Qed.

Lemma one_line (pre : string) :
  lacks lf pre = true -> lacks cr pre = true ->
  no_terminators (chars (pre ++ title)).
Proof.
  intros H1 H2. apply no_terminators_lacks; rewrite lacks_app.
  - now rewrite H1, Hlf.
  - now rewrite H2, Hcr.
Qed.

Lemma h1_rendered :
  simpleMarkdownToHtml ("# " ++ title)
  = "<h1" ++ cls "text-3xl font-extrabold mt-8 mb-4" ++ ">"
    ++ title ++ "</h1>".
Proof.
  unfold simpleMarkdownToHtml. cbv zeta.
  pose proof (one_line "# " eq_refl eq_refl) as Hterm.
  rewrite (replace_all_anchored_id gm (heading_body "###") _ ("# " ++ title))
    by (exact Hterm || reflexivity).
  rewrite (replace_all_anchored_id gm (heading_body "##") _ ("# " ++ title))
    by (exact Hterm || reflexivity).
  change (re_heading "#") with (Seq Bol (heading_body "#")).
  rewrite (replace_line gm (heading_body "#") "h1" _ "# " title Hterm Hne)
    by (intros k; reflexivity).
  destruct h1_settled as [Hh Hi His Hr Hb Hit Hp].
  now rewrite Hi, His, Hr, Hb, Hit, Hp.
Qed.

Lemma h2_rendered :
  simpleMarkdownToHtml ("## " ++ title)
  = "<h2" ++ cls "text-2xl font-bold mt-6 mb-3 text-blue-800" ++ ">"
    ++ title ++ "</h2>".
Proof.
  unfold simpleMarkdownToHtml. cbv zeta.
  pose proof (one_line "## " eq_refl eq_refl) as Hterm.
  rewrite (replace_all_anchored_id gm (heading_body "###") _ ("## " ++ title))
    by (exact Hterm || reflexivity).
  change (re_heading "##") with (Seq Bol (heading_body "##")).
  rewrite (replace_line gm (heading_body "##") "h2" _ "## " title Hterm Hne)
    by (intros k; reflexivity).
  destruct h2_settled as [Hh Hi His Hr Hb Hit Hp].
  now rewrite (Hh ""), Hi, His, Hr, Hb, Hit, Hp.
Qed.

Lemma h3_rendered :
  simpleMarkdownToHtml ("### " ++ title)
  = "<h3" ++ cls "text-xl font-semibold mt-4 mb-2" ++ ">"
    ++ title ++ "</h3>".
Proof.
  unfold simpleMarkdownToHtml. cbv zeta.
  pose proof (one_line "### " eq_refl eq_refl) as Hterm.
  change (re_heading "###") with (Seq Bol (heading_body "###")).
  rewrite (replace_line gm (heading_body "###") "h3" _ "### " title Hterm Hne)
    by (intros k; reflexivity).
  destruct h3_settled as [Hh Hi His Hr Hb Hit Hp].
  now rewrite (Hh "#"), (Hh ""), Hi, His, Hr, Hb, Hit, Hp.
Qed.

Lemma li_rendered :
  simpleMarkdownToHtml ("* " ++ title)
  = "<li" ++ cls "ml-6" ++ ">" ++ title ++ "</li>".
Proof.
  unfold simpleMarkdownToHtml. cbv zeta.
  pose proof (one_line "* " eq_refl eq_refl) as Hterm.
  rewrite (replace_all_anchored_id gm (heading_body "###") _ ("* " ++ title))
    by (exact Hterm || reflexivity).
  rewrite (replace_all_anchored_id gm (heading_body "##") _ ("* " ++ title))
    by (exact Hterm || reflexivity).
  rewrite (replace_all_anchored_id gm (heading_body "#") _ ("* " ++ title))
    by (exact Hterm || reflexivity).
  change re_item with (Seq Bol item_body).
  rewrite (replace_line gm item_body "li" _ "* " title Hterm Hne)
    by (intros k; reflexivity).
  destruct li_settled as [Hh Hi His Hr Hb Hit Hp].
  now rewrite His, Hr, Hb, Hit, Hp.
Qed.

End Line.

End MarkdownFacts.

Import MarkdownFacts.

(** X20.  An ASCII text without [#], [*], [<] and [-] is not touched by any of
    the eight replacements: the result is the text with every line that is
    not blank wrapped in a paragraph, and blank lines kept as they are. *)
Theorem plain_text_becomes_paragraphs (text : string) :
  ascii_text text = true ->
  Str.lacks "#" text = true -> Str.lacks "*" text = true ->
  Str.lacks "<" text = true -> Str.lacks "-" text = true ->
  simpleMarkdownToHtml text
  = Str.join Str.nl
      (map (fun line =>
              if Str.truthy (Str.trim line)
              then "<p" ++ Str.cls "mb-2" ++ ">" ++ line ++ "</p>"
              else line)
         (Str.split Str.lf text)).
Proof.
  intros _ Hhash Hstar Hlt Hdash.
  rewrite plain_text_unchanged_by_replacements by assumption.
  f_equal. apply map_ext_in. intros line Hline.
  pose proof (split_lack "<" Str.lf text Hlt) as Hall.
  rewrite Forall_forall in Hall. specialize (Hall line Hline).
  unfold paragraph. rewrite (startsWith_lacks "<" line Hall).
  now rewrite andb_true_r.
Qed.

Lemma plain_text_becomes_paragraphs_witness :
  Str.lacks "#" ("Boil the eggs." ++ Str.nl ++ "  " ++ Str.nl ++ "Serve.")
  = true /\
  simpleMarkdownToHtml ("Boil the eggs." ++ Str.nl ++ "  " ++ Str.nl ++ "Serve.")
  = "<p" ++ Str.cls "mb-2" ++ ">Boil the eggs.</p>" ++ Str.nl ++ "  "
    ++ Str.nl ++ "<p" ++ Str.cls "mb-2" ++ ">Serve.</p>".
Proof.
  split; [reflexivity|].
  rewrite (plain_text_becomes_paragraphs
             ("Boil the eggs." ++ Str.nl ++ "  " ++ Str.nl ++ "Serve.")
             eq_refl eq_refl eq_refl eq_refl eq_refl).
  reflexivity.
Defined.

(** X21.  A text of one line that is a heading mark ([#], [##] or [###]), a
    space and a title renders as exactly the heading element of that level
    around the title, for every non-empty ASCII title without line break,
    [*] and [<]; it is not wrapped in a paragraph. *)
Theorem heading_line_rendered (title : string) :
  ascii_text title = true ->
  title <> "" ->
  Str.lacks Str.lf title = true -> Str.lacks Str.cr title = true ->
  Str.lacks "*" title = true -> Str.lacks "<" title = true ->
  simpleMarkdownToHtml ("# " ++ title)
  = "<h1" ++ Str.cls "text-3xl font-extrabold mt-8 mb-4" ++ ">"
    ++ title ++ "</h1>" /\
  simpleMarkdownToHtml ("## " ++ title)
  = "<h2" ++ Str.cls "text-2xl font-bold mt-6 mb-3 text-blue-800" ++ ">"
    ++ title ++ "</h2>" /\
  simpleMarkdownToHtml ("### " ++ title)
  = "<h3" ++ Str.cls "text-xl font-semibold mt-4 mb-2" ++ ">"
    ++ title ++ "</h3>".
Proof.
  intros _ Hne Hlf Hcr Hstar Hlt.
  split; [|split].
  - now apply h1_rendered.
  - now apply h2_rendered.
  - now apply h3_rendered.
Qed.

Lemma heading_line_rendered_witness :
  "Pancakes # 1" <> "" /\
  simpleMarkdownToHtml "### Pancakes # 1"
  = "<h3" ++ Str.cls "text-xl font-semibold mt-4 mb-2" ++ ">Pancakes # 1</h3>".
Proof.
  split; [discriminate|].
  exact (proj2 (proj2 (heading_line_rendered "Pancakes # 1" eq_refl
                         ltac:(discriminate) eq_refl eq_refl eq_refl
                         eq_refl))).
Defined.

(** X22.  A text of one line that is [*], a space and an item renders as
    the list item element around the item and nothing else, for every
    non-empty ASCII item without line break, [*] and [<]: the step that wraps
    items in a list container looks for [<li>] and so never applies to the
    [<li class="ml-6">] the item step writes. *)
Theorem item_line_rendered (item : string) :
  ascii_text item = true ->
  item <> "" ->
  Str.lacks Str.lf item = true -> Str.lacks Str.cr item = true ->
  Str.lacks "*" item = true -> Str.lacks "<" item = true ->
  simpleMarkdownToHtml ("* " ++ item)
  = "<li" ++ Str.cls "ml-6" ++ ">" ++ item ++ "</li>".
Proof. intros. now apply li_rendered. Qed.

Lemma item_line_rendered_witness :
  "2 eggs" <> "" /\
  simpleMarkdownToHtml "* 2 eggs" = "<li" ++ Str.cls "ml-6" ++ ">2 eggs</li>".
Proof.
  split; [discriminate|].
  exact (item_line_rendered "2 eggs" eq_refl ltac:(discriminate)
           eq_refl eq_refl eq_refl eq_refl).
Defined.


(* ====================================================================== *)
(** * The markdown transform: emphasis inside a line *)
(* ====================================================================== *)

Module EmphasisFacts.
Import Str StrFacts Regex Markdown MarkdownFacts.

(** ** A pattern that matches once *)

Lemma search_first (fl : flags) (inp : list ascii) (r : regex) (b : nat)
  (m : mstate) :
  (forall p, p < b -> match_at fl inp r p = None) ->
  match_at fl inp r b = Some m ->
  forall fuel p, p <= b -> b - p <= fuel ->
                 search fl inp r fuel p = Some (b, m).
Proof.
  intros Hbefore Hb. induction fuel as [|fuel IH]; intros p Hp Hfuel.
  - assert (p = b) by lia. subst p. cbn [search]. now rewrite Hb.
  - cbn [search]. destruct (Nat.eq_dec p b) as [->|Hne].
    + now rewrite Hb.
    + rewrite Hbefore by lia. apply IH; lia.
Qed.

Lemma search_none_from (fl : flags) (inp : list ascii) (r : regex) (e : nat) :
  (forall p, e <= p -> match_at fl inp r p = None) ->
  forall fuel p, e <= p -> search fl inp r fuel p = None.
Proof.
  intros H. induction fuel as [|fuel IH]; intros p Hp; cbn [search];
    rewrite H by lia; [reflexivity|apply IH; lia].
Qed.

(** The pattern matches first at [b], up to [pos m], and nowhere after:
    that one match is replaced. *)
Lemma replace_all_once (fl : flags) (r : regex) (tpl : list titem)
  (s : string) (b : nat) (m : mstate) :
  (forall p, p < b -> match_at fl (chars s) r p = None) ->
  match_at fl (chars s) r b = Some m ->
  b < pos m <= length (chars s) ->
  (forall p, pos m <= p -> match_at fl (chars s) r p = None) ->
  replace_all fl r tpl s
  = of_chars (slice (chars s) 0 b ++ expand (chars s) b m tpl
              ++ skipn (pos m) (chars s)).
Proof.
  intros Hbefore Hb Hpos Hafter. unfold replace_all.
  set (inp := chars s) in *.
  rewrite Nat.add_comm. cbn [Nat.add replace_loop].
  unfold exec at 1. replace (length inp <? 0)%nat with false by reflexivity.
  rewrite (search_first fl inp r b m Hbefore Hb) by lia.
  replace (pos m =? b)%nat with false by (symmetry; apply Nat.eqb_neq; lia).
  unfold exec.
  replace (length inp <? pos m)%nat with false
    by (symmetry; apply Nat.ltb_ge; lia).
  rewrite (search_none_from fl inp r (pos m) Hafter) by lia.
  reflexivity.
Qed.

(** Lazy [.*?] stops at the first place where the rest of the pattern
    matches. *)
Lemma star_dot_lazy (fl : flags) (inp : list ascii)
  (k : mstate -> option mstate) (m : mstate) (cs : list (nat * (nat * nat)))
  (e : nat) :
  k {| pos := e; caps := cs |} = Some m ->
  forall n p,
    e - p <= n -> p <= e ->
    (forall q, p <= q < e -> k {| pos := q; caps := cs |} = None) ->
    (forall q, p <= q < e ->
               exists ch, nth_error inp q = Some ch /\
                          dotAll fl || negb (is_line_terminator ch) = true) ->
    star_loop fl inp false Dot k n {| pos := p; caps := cs |} = Some m.
Proof.
  intros Hk. induction n as [|n IH]; intros p Hn Hp Hmiss Hdots.
  - cbn [star_loop]. replace p with e by lia. exact Hk.
  - cbn [star_loop groups_of]. rewrite clear_no_caps.
    destruct (Nat.eq_dec p e) as [->|Hne]; [now rewrite Hk|].
    rewrite Hmiss by lia.
    destruct (Hdots p) as (ch & Hch & Hok); [lia|].
    rewrite (rmatch_dot_hit fl inp _ p cs ch Hch Hok). cbn [pos].
    replace (p <? S p)%nat with true by (symmetry; apply Nat.ltb_lt; lia).
    apply IH; [lia|lia| |]; intros q Hq; [apply Hmiss|apply Hdots]; lia.
Qed.


(** ** Emphasis: a delimiter, text, the delimiter again *)

(** [/\*\*(.+?)\*\*/] and [/\*(.+?)\*/] by their delimiter. *)
Definition emphasis (d : string) : regex :=
  seqs [lit d; Group 1 (Plus false Dot); lit d].

Definition star_free (l : list ascii) : bool :=
  forallb (fun x => negb (Ascii.eqb x "*")) l.

Lemma star_free_nth (l : list ascii) (p : nat) :
  star_free l = true -> nth_error l p <> Some "*"%char.
Proof.
  intros H Hp. unfold star_free in H. rewrite forallb_forall in H.
  specialize (H _ (nth_error_In _ _ Hp)). discriminate H.
Qed.

Lemma nth_error_mid {A} (L X R : list A) (i : nat) :
  i < length X -> nth_error (L ++ X ++ R) (length L + i) = nth_error X i.
Proof.
  intros Hi. rewrite nth_error_app2 by lia.
  replace (length L + i - length L) with i by lia.
  now apply nth_error_app1.
Qed.

Lemma starts_with_star (d : string) (r : regex) :
  starts_with "*" (Seq (lit (String "*" d)) r).
Proof. cbn [lit]. apply sw_seq, sw_seq, sw_chr. Qed.

Section Emphasis.
Variables (d' : string) (A X P : list ascii).
Let d : string := String "*" d'.
Let inp : list ascii := (A ++ chars d ++ X ++ chars d ++ P)%list.
Let start : nat := length A + String.length d.
Hypothesis HX : X <> [].
Hypothesis HXstar : star_free X = true.
Hypothesis HXline :
  forall ch, In ch X -> is_line_terminator ch = false.

Lemma emphasis_match :
  match_at g inp (emphasis d) (length A)
  = Some {| pos := start + length X + String.length d;
            caps := [(1, (start, start + length X))] |}.
Proof.
  unfold match_at, emphasis.
  change (rmatch g inp (seqs [lit d; Group 1 (Plus false Dot); lit d])
            (fun s => Some s) {| pos := length A; caps := [] |})
    with (rmatch g inp (lit d)
            (rmatch g inp (Group 1 (Plus false Dot))
               (rmatch g inp (lit d) (fun s => Some s)))
            {| pos := length A; caps := [] |}).
  rewrite (rmatch_lit g inp d _ [] A (X ++ chars d ++ P)) by reflexivity.
  fold start.
  change (rmatch g inp (Group 1 (Plus false Dot))
            (rmatch g inp (lit d) (fun s => Some s))
            {| pos := start; caps := [] |})
    with (rmatch g inp Dot
            (rmatch g inp (Star false Dot)
               (fun s' => rmatch g inp (lit d) (fun s => Some s)
                            (set_cap 1 start (pos s') s')))
            {| pos := start; caps := [] |}).
  assert (Hinp : inp = ((A ++ chars d) ++ X ++ chars d ++ P)%list)
    by (unfold inp; now rewrite <- app_assoc).
  assert (Hstart : start = length (A ++ chars d))
    by (unfold start; now rewrite length_app, length_chars).
  assert (Hnth : forall i, i < length X ->
                           nth_error inp (start + i) = nth_error X i).
  { intros i Hi. rewrite Hinp, Hstart. now apply nth_error_mid. }
  assert (Hlen : 0 < length X).
  { destruct (Nat.eq_dec (length X) 0) as [E|]; [|lia].
    apply length_zero_iff_nil in E. congruence. }
  destruct (nth_error X 0) as [x0|] eqn:E0;
    [|apply nth_error_None in E0; lia].
  assert (Hx0 : nth_error inp start = Some x0).
  { now rewrite <- (Nat.add_0_r start), Hnth. }
  rewrite (rmatch_dot_hit g inp _ start [] x0 Hx0).
  2:{ now rewrite (HXline x0 (nth_error_In _ _ E0)). }
  rewrite rmatch_star. cbn [pos].
  apply (star_dot_lazy g inp _ _ [] (start + length X)).
  - unfold set_cap. cbn [pos caps filter].
    assert (Hpre : start + length X = length (A ++ chars d ++ X))
      by (rewrite !length_app, length_chars; unfold start; lia).
    rewrite Hpre.
    rewrite (rmatch_lit g inp d _ _ (A ++ chars d ++ X) P)
      by (unfold inp; now rewrite <- !app_assoc).
    now rewrite <- Hpre.
  - unfold inp. rewrite !length_app, !length_chars. unfold start. lia.
  - lia.
  - intros q Hq. unfold set_cap. cbn [pos caps filter].
    apply rmatch_first_char with (c := "*"%char).
    + unfold d. cbn [lit]. apply sw_seq, sw_chr.
    + cbn [pos]. replace q with (start + (q - start)) by lia.
      rewrite Hnth by lia. now apply star_free_nth.
  - intros q Hq. replace q with (start + (q - start)) by lia.
    rewrite Hnth by lia.
    destruct (nth_error X (q - start)) as [ch|] eqn:Hch.
    + exists ch. split; [reflexivity|].
      now rewrite (HXline ch (nth_error_In _ _ Hch)).
    + apply nth_error_None in Hch. lia.
Qed.

End Emphasis.


Lemma skipn_exact {A} (L R : list A) : skipn (length L) (L ++ R) = R.
Proof.
  rewrite skipn_app, skipn_all, Nat.sub_diag. reflexivity.
Qed.

Lemma firstn_exact {A} (L R : list A) : firstn (length L) (L ++ R) = L.
Proof.
  rewrite firstn_app, firstn_all, Nat.sub_diag. cbn. apply app_nil_r.
Qed.

Lemma slice_mid (L X R : list ascii) :
  slice (L ++ X ++ R) (length L) (length L + length X) = X.
Proof.
  unfold slice. rewrite skipn_exact.
  replace (length L + length X - length L) with (length X) by lia.
  apply firstn_exact.
Qed.

Lemma lacks_line (s : string) :
  lacks lf s = true -> lacks cr s = true ->
  forall ch, In ch (chars s) -> is_line_terminator ch = false.
Proof.
  intros Hlf Hcr ch Hin. apply In_nth_error in Hin as (p & Hp).
  exact (no_terminators_lacks s Hlf Hcr p ch Hp).
Qed.

(** One emphasised stretch in a text that has no other [*]. *)
Lemma emphasis_replaced (d' opening closing pre x post : string) :
  lacks "*" pre = true -> lacks "*" x = true -> lacks "*" post = true ->
  x <> "" -> lacks lf x = true -> lacks cr x = true ->
  replace_all g (emphasis (String "*" d'))
    [TLit opening; TGroup 1; TLit closing]
    (pre ++ String "*" d' ++ x ++ String "*" d' ++ post)
  = pre ++ opening ++ x ++ closing ++ post.
Proof.
  intros Hpre Hx Hpost Hne Hlf Hcr.
  set (d := String "*" d').
  assert (HX : chars x <> []) by (destruct x; [congruence|discriminate]).
  pose proof (emphasis_match d' (chars pre) (chars x) (chars post) HX Hx
                (lacks_line x Hlf Hcr)) as Hm.
  fold d in Hm. cbv zeta in Hm.
  assert (Hinp : chars (pre ++ d ++ x ++ d ++ post)
                 = (chars pre ++ chars d ++ chars x ++ chars d
                    ++ chars post)%list)
    by now rewrite !chars_app.
  set (start := length (chars pre) + String.length d) in *.
  rewrite (replace_all_once g (emphasis d) _ _ (length (chars pre))
             {| pos := start + length (chars x) + String.length d;
                caps := [(1, (start, start + length (chars x)))] |}).
  - rewrite Hinp. cbn [pos].
    unfold slice at 1. cbn [skipn]. rewrite Nat.sub_0_r, firstn_exact.
    unfold expand.
    cbn [flat_map expand_item find fst snd pos caps Nat.eqb].
    replace (slice (chars pre ++ chars d ++ chars x ++ chars d ++ chars post)
               start (start + length (chars x)))
      with (chars x).
    2:{ symmetry.
        replace start with (length (chars pre ++ chars d))
          by (unfold start; rewrite length_app, !length_chars; reflexivity).
        replace (chars pre ++ chars d ++ chars x ++ chars d ++ chars post)%list
          with ((chars pre ++ chars d) ++ chars x ++ chars d ++ chars post)%list
          by now rewrite <- app_assoc.
        apply slice_mid. }
    replace (skipn (start + length (chars x) + String.length d)
               (chars pre ++ chars d ++ chars x ++ chars d ++ chars post))
      with (chars post).
    2:{ symmetry.
        replace (start + length (chars x) + String.length d)
          with (length (((chars pre ++ chars d) ++ chars x) ++ chars d))
          by (unfold start; rewrite !length_app, !length_chars; reflexivity).
        replace (chars pre ++ chars d ++ chars x ++ chars d ++ chars post)%list
          with ((((chars pre ++ chars d) ++ chars x) ++ chars d)
                ++ chars post)%list by now rewrite <- !app_assoc.
        apply skipn_exact. }
    rewrite app_nil_r, !of_chars_app, !of_chars_chars.
    now rewrite !StrMore.append_assoc.
  - intros p Hp. unfold match_at.
    apply rmatch_first_char with (c := "*"%char);
      [apply starts_with_star|].
    cbn [pos]. rewrite Hinp, nth_error_app1 by exact Hp.
    now apply star_free_nth.
  - rewrite Hinp. exact Hm.
  - cbn [pos]. rewrite Hinp, !length_app, !length_chars.
    unfold start. rewrite !length_chars. unfold d. cbn [String.length]. lia.
  - intros p Hp. cbn [pos] in Hp. unfold match_at.
    apply rmatch_first_char with (c := "*"%char);
      [apply starts_with_star|].
    cbn [pos]. rewrite Hinp.
    replace (chars pre ++ chars d ++ chars x ++ chars d ++ chars post)%list
      with ((((chars pre ++ chars d) ++ chars x) ++ chars d)
            ++ chars post)%list by now rewrite <- !app_assoc.
    rewrite nth_error_app2
      by (rewrite !length_app, !length_chars; unfold start in Hp;
          rewrite !length_chars in Hp; lia).
    now apply star_free_nth.
Qed.


(** ** The steps around the emphasis *)

(** ASCII text with none of the characters the transform reacts to, and no
    line break. *)
Definition plain (s : string) : bool :=
  ascii_text s
  && (lacks "#" s && lacks "*" s && lacks "<" s && lacks "-" s
      && lacks lf s && lacks cr s).

Lemma plain_spec (s : string) :
  plain s = true ->
  lacks "#" s = true /\ lacks "*" s = true /\ lacks "<" s = true /\
  lacks "-" s = true /\ lacks lf s = true /\ lacks cr s = true.
Proof.
  unfold plain. intros H. apply andb_true_iff in H as [_ H].
  repeat (apply andb_true_iff in H as [H ?]). now repeat split.
Qed.

(** A character of ASCII that is not white space. *)
Definition solid (c : ascii) : bool :=
  negb (is_space c) && (nat_of_ascii c <? 128)%nat.

(** Such a character is no byte of a white space character, so stripping
    white space keeps it. *)
Lemma strip_keeps
  (sp2 : ascii -> ascii -> bool) (sp3 : ascii -> ascii -> ascii -> bool)
  (c : ascii) :
  is_space c = false ->
  (forall b, sp2 c b = false) -> (forall a, sp2 a c = false) ->
  (forall a b, sp3 c a b = false) -> (forall a b, sp3 a c b = false) ->
  (forall a b, sp3 a b c = false) ->
  forall n l, length l <= n -> In c l -> In c (strip sp2 sp3 l).
Proof.
  intros Hc H21 H22 H31 H32 H33.
  induction n as [|n IH]; intros l Hlen Hin.
  { destruct l; [contradiction|cbn in Hlen; lia]. }
  destruct l as [|a l1]; [contradiction|]. cbn [strip]. cbn in Hlen.
  destruct (is_space a) eqn:Ha.
  { destruct Hin as [->|Hin]; [congruence|]. apply IH; [lia|exact Hin]. }
  destruct l1 as [|b l2]; [exact Hin|]. cbn in Hlen.
  destruct (sp2 a b) eqn:H2.
  { destruct Hin as [->|[->|Hin]].
    - now rewrite H21 in H2.
    - now rewrite H22 in H2.
    - apply IH; [lia|exact Hin]. }
  destruct l2 as [|d l3]; [exact Hin|]. cbn in Hlen.
  destruct (sp3 a b d) eqn:H3; [|exact Hin].
  destruct Hin as [->|[->|[->|Hin]]].
  - now rewrite H31 in H3.
  - now rewrite H32 in H3.
  - now rewrite H33 in H3.
  - apply IH; [lia|exact Hin].
Qed.

Lemma solid_spec (c : ascii) :
  solid c = true -> is_space c = false /\ nat_of_ascii c < 128.
Proof.
  unfold solid. intros H. apply andb_true_iff in H as [H1 H2].
  split; [now apply negb_true_iff|now apply Nat.ltb_lt].
Qed.

Lemma is_space2_ascii_l (c b : ascii) :
  nat_of_ascii c < 128 -> is_space2 c b = false.
Proof.
  intros H. unfold is_space2.
  destruct (Nat.eqb_spec (nat_of_ascii c) 194); [lia|reflexivity].
Qed.

Lemma is_space2_ascii_r (a c : ascii) :
  nat_of_ascii c < 128 -> is_space2 a c = false.
Proof.
  intros H. unfold is_space2.
  destruct (Nat.eqb_spec (nat_of_ascii c) 160); [lia|].
  now rewrite andb_false_r.
Qed.

Ltac byte_cases :=
  repeat match goal with
         | |- context [(?x =? ?y)%nat] =>
             destruct (Nat.eqb_spec x y); try lia
         | |- context [(?x <=? ?y)%nat] =>
             destruct (Nat.leb_spec x y); try lia
         end;
  try reflexivity.

Lemma is_space3_ascii_1 (c a b : ascii) :
  nat_of_ascii c < 128 -> is_space3 c a b = false.
Proof. intros H. unfold is_space3. cbv zeta. byte_cases. Qed.

Lemma is_space3_ascii_2 (a c b : ascii) :
  nat_of_ascii c < 128 -> is_space3 a c b = false.
Proof. intros H. unfold is_space3. cbv zeta. byte_cases. Qed.

Lemma is_space3_ascii_3 (a b c : ascii) :
  nat_of_ascii c < 128 -> is_space3 a b c = false.
Proof. intros H. unfold is_space3. cbv zeta. byte_cases. Qed.

Lemma trim_start_keeps (c : ascii) (l : list ascii) :
  In c l -> solid c = true -> In c (trim_start l).
Proof.
  intros Hin Hc. apply solid_spec in Hc as [Hs Ha].
  apply (strip_keeps _ _ c) with (n := length l);
    auto using is_space2_ascii_l, is_space2_ascii_r, is_space3_ascii_1,
      is_space3_ascii_2, is_space3_ascii_3.
Qed.

Lemma trim_end_rev_keeps (c : ascii) (l : list ascii) :
  In c l -> solid c = true -> In c (trim_end_rev l).
Proof.
  intros Hin Hc. apply solid_spec in Hc as [Hs Ha].
  apply (strip_keeps _ _ c) with (n := length l);
    auto using is_space2_ascii_l, is_space2_ascii_r, is_space3_ascii_1,
      is_space3_ascii_2, is_space3_ascii_3.
Qed.

(** A text with an ASCII character that is not white space does not trim
    to the empty string. *)
Lemma trim_truthy (c : ascii) (s : string) :
  In c (chars s) -> solid c = true -> truthy (trim s) = true.
Proof.
  intros Hin Hc. unfold trim.
  assert (H : In c (rev (trim_end_rev (rev (trim_start (chars s)))))).
  { apply in_rev. rewrite rev_involutive.
    apply trim_end_rev_keeps; [|exact Hc].
    apply -> in_rev. now apply trim_start_keeps. }
  destruct (rev (trim_end_rev (rev (trim_start (chars s)))));
    [contradiction|reflexivity].
Qed.

(** The last step on one line that has a tag inside: a paragraph, unless
    the line starts with the tag. *)
Lemma tagged_text_paragraph (pre mid post : string) :
  lacks lf pre = true -> lacks lf (String "<" mid) = true ->
  lacks lf post = true -> lacks "<" pre = true ->
  join nl (map paragraph (split lf (pre ++ String "<" mid ++ post)))
  = if truthy pre
    then "<p" ++ cls "mb-2" ++ ">" ++ (pre ++ String "<" mid ++ post)
         ++ "</p>"
    else pre ++ String "<" mid ++ post.
Proof.
  intros Hpre Hmid Hpost Hlt.
  rewrite StrMore.split_lacks
    by (now rewrite !lacks_app, Hpre, Hmid, Hpost).
  cbn [map join]. unfold paragraph.
  destruct pre as [|c pre'].
  - cbn [append truthy].
    replace (startsWith "<" (String "<" (mid ++ post))) with true
      by (now destruct (mid ++ post)).
    now rewrite andb_false_r.
  - cbn [truthy].
    rewrite (trim_truthy "<" (String c pre' ++ String "<" mid ++ post)).
    + replace (startsWith "<" (String c pre' ++ String "<" mid ++ post))
        with false; [reflexivity|].
      symmetry. unfold startsWith. cbn [append prefix].
      destruct (ascii_dec "<" c) as [<-|]; [|reflexivity].
      unfold lacks in Hlt. cbn in Hlt. discriminate Hlt.
    + rewrite chars_app. apply in_or_app. right. now left.
    + reflexivity.
Qed.


Ltac lacking :=
  rewrite ?lacks_app;
  repeat match goal with H : lacks _ _ = true |- _ => rewrite H end;
  reflexivity.

(** The item step does nothing to one line that does not start with
    [* ]. *)
Lemma replace_all_item_id (tpl : list titem) (text : string) :
  no_terminators (chars text) ->
  occurs_at (chars "* ") (chars text) = false ->
  replace_all gm re_item tpl text = text.
Proof.
  intros Hterm Hmiss. change re_item with (Seq Bol item_body).
  apply replace_all_anchored_id; [exact Hterm|].
  unfold match_at.
  change (rmatch gm (chars text) (Seq Bol item_body) (fun s => Some s)
            {| pos := 0; caps := [] |})
    with (rmatch gm (chars text) (lit "* ")
            (rmatch gm (chars text) (Seq (Group 1 (Plus true Dot)) Eol)
               (fun s => Some s))
            {| pos := 0; caps := [] |}).
  now apply rmatch_lit_miss.
Qed.

(** A pattern that starts with a literal does nothing to a text in which
    the literal does not occur. *)
Lemma replace_all_word_free (fl : flags) (w : string) (r : regex)
  (tpl : list titem) (text : string) :
  word_free (chars w) (chars text) = true ->
  replace_all fl (Seq (lit w) r) tpl text = text.
Proof.
  intros H. apply replace_all_id. intros p. unfold match_at.
  change (rmatch fl (chars text) (Seq (lit w) r) (fun s => Some s)
            {| pos := p; caps := [] |})
    with (rmatch fl (chars text) (lit w)
            (rmatch fl (chars text) r (fun s => Some s))
            {| pos := p; caps := [] |}).
  apply rmatch_lit_miss. cbn [pos]. now apply word_free_skipn.
Qed.

Lemma word_free_lacks (c : ascii) (w l : list ascii) :
  forallb (fun a => negb (Ascii.eqb a c)) l = true ->
  word_free (c :: w) l = true.
Proof.
  intros H. rewrite <- (app_nil_r l).
  apply word_free_app_lacks; [exact H|reflexivity].
Qed.

(** Two single [*] around text without [*] never stand side by side. *)
Lemma word_free_double_star (A X P : list ascii) :
  star_free A = true -> star_free X = true -> star_free P = true ->
  X <> [] ->
  word_free ["*"; "*"]%char (A ++ "*"%char :: X ++ "*"%char :: P) = true.
Proof.
  intros HA HX HP Hne. apply word_free_app_lacks; [exact HA|].
  destruct X as [|x0 X']; [congruence|].
  cbn in HX. apply andb_true_iff in HX as [H0 HX'].
  assert (Hx0 : Ascii.eqb "*" x0 = false).
  { apply negb_true_iff in H0. now rewrite Ascii.eqb_sym. }
  cbn [app word_free occurs_at]. rewrite Ascii.eqb_refl, Hx0.
  cbn [andb negb].
  apply word_free_app_lacks; [exact HX'|].
  destruct P as [|p0 P']; [reflexivity|].
  cbn in HP. apply andb_true_iff in HP as [H1 HP'].
  assert (Hp0 : Ascii.eqb "*" p0 = false).
  { apply negb_true_iff in H1. now rewrite Ascii.eqb_sym. }
  cbn [word_free occurs_at]. rewrite Ascii.eqb_refl, Hp0. cbn [andb negb].
  apply word_free_lacks. exact HP'.
Qed.

Section Inline.
Variables pre x post : string.
Hypothesis Hpre : plain pre = true.
Hypothesis Hx : plain x = true.
Hypothesis Hpost : plain post = true.
Hypothesis Hne : x <> "".

Lemma bold_rendered :
  simpleMarkdownToHtml (pre ++ "**" ++ x ++ "**" ++ post)
  = if truthy pre
    then "<p" ++ cls "mb-2" ++ ">"
         ++ (pre ++ "<strong>" ++ x ++ "</strong>" ++ post) ++ "</p>"
    else pre ++ "<strong>" ++ x ++ "</strong>" ++ post.
Proof.
  destruct (plain_spec pre Hpre) as (? & ? & ? & ? & ? & ?).
  destruct (plain_spec x Hx) as (? & ? & ? & ? & ? & ?).
  destruct (plain_spec post Hpost) as (? & ? & ? & ? & ? & ?).
  set (text := pre ++ "**" ++ x ++ "**" ++ post).
  assert (Hterm : no_terminators (chars text))
    by (apply no_terminators_lacks; unfold text; lacking).
  unfold simpleMarkdownToHtml. cbv zeta.
  rewrite (replace_all_lacks gm (re_heading "###") _ "#" text)
    by (first_char || (unfold text; lacking)).
  rewrite (replace_all_lacks gm (re_heading "##") _ "#" text)
    by (first_char || (unfold text; lacking)).
  rewrite (replace_all_lacks gm (re_heading "#") _ "#" text)
    by (first_char || (unfold text; lacking)).
  rewrite (replace_all_item_id _ text Hterm).
  2:{ unfold text. destruct pre as [|c pre']; [reflexivity|].
      cbn [append chars list_ascii_of_string occurs_at].
      replace (Ascii.eqb "*" c) with false; [reflexivity|].
      symmetry. apply Ascii.eqb_neq. intros <-.
      match goal with H : lacks "*" (String "*" pre') = true |- _ =>
        discriminate H end. }
  rewrite (replace_all_lacks gs re_items _ "<" text)
    by (first_char || (unfold text; lacking)).
  rewrite (replace_all_lacks gm re_rule _ "-" text)
    by (first_char || (unfold text; lacking)).
  change re_bold with (emphasis "**"). unfold text.
  rewrite (emphasis_replaced "*" "<strong>" "</strong>" pre x post)
    by assumption.
  rewrite (replace_all_lacks g re_italic _ "*")
    by (first_char || lacking).
  apply (tagged_text_paragraph pre "strong>" (x ++ "</strong>" ++ post));
    try assumption; lacking.
Qed.

Lemma no_double_star :
  word_free (chars "**") (chars (pre ++ "*" ++ x ++ "*" ++ post)) = true.
Proof.
  destruct (plain_spec pre Hpre) as (_ & Hp & _).
  destruct (plain_spec x Hx) as (_ & Hxs & _).
  destruct (plain_spec post Hpost) as (_ & Hps & _).
  rewrite chars_app.
  change (chars ("*" ++ x ++ "*" ++ post))
    with ("*"%char :: chars (x ++ String "*" post)).
  rewrite chars_app.
  apply word_free_double_star; try assumption.
  destruct x; [congruence|discriminate].
Qed.

Lemma italic_rendered :
  truthy pre = true \/ startsWith " " x = false ->
  simpleMarkdownToHtml (pre ++ "*" ++ x ++ "*" ++ post)
  = if truthy pre
    then "<p" ++ cls "mb-2" ++ ">"
         ++ (pre ++ "<em>" ++ x ++ "</em>" ++ post) ++ "</p>"
    else pre ++ "<em>" ++ x ++ "</em>" ++ post.
Proof.
  intros Hitem.
  pose proof no_double_star as Hfree.
  destruct (plain_spec pre Hpre) as (? & ? & ? & ? & ? & ?).
  destruct (plain_spec x Hx) as (? & ? & ? & ? & ? & ?).
  destruct (plain_spec post Hpost) as (? & ? & ? & ? & ? & ?).
  set (text := pre ++ "*" ++ x ++ "*" ++ post) in *.
  assert (Hterm : no_terminators (chars text))
    by (apply no_terminators_lacks; unfold text; lacking).
  unfold simpleMarkdownToHtml. cbv zeta.
  rewrite (replace_all_lacks gm (re_heading "###") _ "#" text)
    by (first_char || (unfold text; lacking)).
  rewrite (replace_all_lacks gm (re_heading "##") _ "#" text)
    by (first_char || (unfold text; lacking)).
  rewrite (replace_all_lacks gm (re_heading "#") _ "#" text)
    by (first_char || (unfold text; lacking)).
  rewrite (replace_all_item_id _ text Hterm).
  2:{ unfold text. destruct pre as [|c pre'].
      - destruct Hitem as [Hitem|Hitem]; [discriminate Hitem|].
        destruct x as [|x0 x']; [congruence|].
        cbn [append chars list_ascii_of_string occurs_at].
        replace (Ascii.eqb " " x0) with false; [reflexivity|].
        symmetry. apply Ascii.eqb_neq. intros <-.
        unfold startsWith in Hitem. cbn [prefix] in Hitem.
        destruct (ascii_dec " " " "); [|congruence].
        now destruct x'.
      - cbn [append chars list_ascii_of_string occurs_at].
        replace (Ascii.eqb "*" c) with false; [reflexivity|].
        symmetry. apply Ascii.eqb_neq. intros <-.
        match goal with H : lacks "*" (String "*" pre') = true |- _ =>
          discriminate H end. }
  rewrite (replace_all_lacks gs re_items _ "<" text)
    by (first_char || (unfold text; lacking)).
  rewrite (replace_all_lacks gm re_rule _ "-" text)
    by (first_char || (unfold text; lacking)).
  change re_bold
    with (Seq (lit "**") (seqs [Group 1 (Plus false Dot); lit "**"])).
  rewrite (replace_all_word_free g "**" _ _ text Hfree).
  change re_italic with (emphasis "*"). unfold text.
  rewrite (emphasis_replaced "" "<em>" "</em>" pre x post) by assumption.
  apply (tagged_text_paragraph pre "em>" (x ++ "</em>" ++ post));
    try assumption; lacking.
Qed.

End Inline.

End EmphasisFacts.

Import EmphasisFacts.

(** X23.  In a text of one line, [**x**] between two stretches of plain
    text becomes a strong-emphasis span around [x], the text around it is
    kept, and the line is wrapped in a paragraph, unless the line starts
    with the emphasis: then the result starts with the tag and no paragraph
    is formed.  Plain means ASCII text without [#], [*], [<], [-] and line
    breaks. *)
Theorem bold_span_rendered (before x after : string) :
  plain before = true -> plain x = true -> plain after = true ->
  x <> "" ->
  simpleMarkdownToHtml (before ++ "**" ++ x ++ "**" ++ after)
  = if Str.truthy before
    then "<p" ++ Str.cls "mb-2" ++ ">"
         ++ (before ++ "<strong>" ++ x ++ "</strong>" ++ after) ++ "</p>"
    else before ++ "<strong>" ++ x ++ "</strong>" ++ after.
Proof. intros. now apply bold_rendered. Qed.

Lemma bold_span_rendered_witness :
  plain "Add " = true /\
  simpleMarkdownToHtml "Add **two** eggs"
  = "<p" ++ Str.cls "mb-2" ++ ">Add <strong>two</strong> eggs</p>".
Proof.
  split; [reflexivity|].
  exact (bold_span_rendered "Add " "two" " eggs" eq_refl eq_refl eq_refl
           ltac:(discriminate)).
Defined.

(** X24.  In a text of one line, [*x*] between two stretches of plain text
    becomes an italic span around [x] in the same way, provided the line
    does not start with "* " (a line that starts with the emphasis and
    whose [x] starts with a space is a list item instead). *)
Theorem italic_span_rendered (before x after : string) :
  plain before = true -> plain x = true -> plain after = true ->
  x <> "" ->
  Str.truthy before = true \/ Str.startsWith " " x = false ->
  simpleMarkdownToHtml (before ++ "*" ++ x ++ "*" ++ after)
  = if Str.truthy before
    then "<p" ++ Str.cls "mb-2" ++ ">"
         ++ (before ++ "<em>" ++ x ++ "</em>" ++ after) ++ "</p>"
    else before ++ "<em>" ++ x ++ "</em>" ++ after.
Proof. intros. now apply italic_rendered. Qed.

Lemma italic_span_rendered_witness :
  plain "" = true /\
  simpleMarkdownToHtml "*Optional* garnish" = "<em>Optional</em> garnish".
Proof.
  split; [reflexivity|].
  exact (italic_span_rendered "" "Optional" " garnish" eq_refl eq_refl
           eq_refl ltac:(discriminate) (or_intror eq_refl)).
Defined.

(** A line that starts with a star, a space and text ending in a star is a
    list item, not an italic span. *)
Example star_space_is_an_item :
  simpleMarkdownToHtml "* eggs*" = "<li" ++ Str.cls "ml-6" ++ ">eggs*</li>".
Proof. vm_compute. reflexivity. Qed.


(* ====================================================================== *)
(** * The recipe card *)
(* ====================================================================== *)

Module CardFacts.
Import Str StrFacts MarkdownFacts Browser Render.

(** The opening of a list item. *)
Definition li : string := "<li".

(** No list item opens in [a], whatever text follows [a]: every [<] of [a]
    is followed, in [a], by a character other than [l]. *)
Fixpoint safe (a : string) : bool :=
  match a with
  | EmptyString => true
  | String c a' =>
      negb (Ascii.eqb c "<"
            && match a' with
               | EmptyString => true
               | String d _ => Ascii.eqb d "l"
               end)
      && safe a'
  end.

Lemma safe_app (a b : string) :
  safe a = true -> safe b = true -> safe (a ++ b) = true.
Proof.
  intros Ha Hb. induction a as [|c a IH]; [exact Hb|].
  cbn [safe append] in *. apply andb_true_iff in Ha as [Hc Ha].
  rewrite (IH Ha), andb_true_r.
  destruct (Ascii.eqb c "<"); [|reflexivity].
  destruct a as [|d a']; [discriminate Hc|exact Hc].
Qed.

Lemma lacks_safe (a : string) : lacks "<" a = true -> safe a = true.
Proof.
  unfold lacks. induction a as [|c a IH]; [reflexivity|].
  cbn [chars list_ascii_of_string forallb safe]. intros H.
  apply andb_true_iff in H as [Hc Ha]. rewrite (IH Ha), andb_true_r.
  apply negb_true_iff in Hc. now rewrite Hc.
Qed.

Lemma length_append (a b : string) :
  String.length (a ++ b) = String.length a + String.length b.
Proof. induction a as [|c a IH]; [reflexivity|]. cbn. now rewrite IH. Qed.

Lemma append_nil_r (a : string) : a ++ "" = a.
Proof. induction a as [|c a IH]; [reflexivity|]. cbn. now rewrite IH. Qed.

Lemma substring_all (s : string) : substring 0 (String.length s) s = s.
Proof. induction s as [|c s IH]; [reflexivity|]. cbn. now rewrite IH. Qed.

Lemma substring_skip (a s : string) (n m : nat) :
  substring (String.length a + n) m (a ++ s) = substring n m s.
Proof. induction a as [|c a IH]; [reflexivity|]. exact IH. Qed.

Lemma index_skip (a s : string) :
  safe a = true ->
  index 0 li (a ++ s) = option_map (Nat.add (String.length a)) (index 0 li s).
Proof.
  intros Ha. induction a as [|c a IH].
  - cbn [append String.length]. now destruct (index 0 li s).
  - cbn [safe] in Ha. apply andb_true_iff in Ha as [Hc Ha].
    cbn [append index].
    replace (prefix li (String c (a ++ s))) with false.
    + rewrite (IH Ha). now destruct (index 0 li s).
    + symmetry. unfold li. cbn [prefix].
      destruct (ascii_dec "<" c) as [<-|]; [|reflexivity].
      destruct a as [|d a']; [discriminate Hc|].
      cbn [append prefix]. destruct (ascii_dec "l" d) as [<-|]; [|reflexivity].
      discriminate Hc.
Qed.

(** A safe stretch of text in front does not change the count. *)
Lemma count_skip (f : nat) (a s : string) :
  safe a = true -> count_from f li (a ++ s) = count_from f li s.
Proof.
  intros Ha. destruct f as [|f]; [reflexivity|].
  cbn [count_from]. rewrite (index_skip a s Ha).
  destruct (index 0 li s) as [i|]; [|reflexivity].
  cbn [option_map]. f_equal. f_equal.
  rewrite length_append, <- Nat.add_assoc, substring_skip.
  f_equal. lia.
Qed.

Lemma prefix_append (p b : string) : prefix p (p ++ b) = true.
Proof.
  induction p as [|c p IH]; [now destruct b|]. cbn [append prefix].
  destruct (ascii_dec c c); [exact IH|contradiction].
Qed.

Lemma index_hit (p s : string) : index 0 p (p ++ s) = Some 0.
Proof.
  destruct p as [|c p]; [now destruct s|].
  cbn [append index]. change (String c (p ++ s)) with (String c p ++ s).
  now rewrite prefix_append.
Qed.

Lemma count_hit (f : nat) (s : string) :
  count_from (S f) li (li ++ s) = S (count_from f li s).
Proof.
  cbn [count_from]. rewrite index_hit. f_equal. f_equal.
  change (0 + Nat.max 1 (String.length li)) with (String.length li + 0).
  rewrite substring_skip, length_append.
  replace (String.length li + String.length s - (String.length li + 0))
    with (String.length s) by lia.
  apply substring_all.
Qed.

Lemma count_none (f : nat) (a : string) :
  safe a = true -> count_from f li a = 0.
Proof.
  intros Ha. rewrite <- (append_nil_r a), (count_skip f a "" Ha).
  now destruct f.
Qed.

Lemma concat_cons (x : string) (l : list string) :
  String.concat "" (x :: l) = x ++ String.concat "" l.
Proof. destruct l; [now rewrite append_nil_r|reflexivity]. Qed.

(** The lines of a list, each opened by [<li] and safe after it, are
    counted one by one. *)
Lemma count_lines (line : string -> string) (body : string -> string)
  (l : list string) :
  (forall x, line x = li ++ body x) ->
  Forall (fun x => safe (body x) = true) l ->
  forall f s,
    count_from (length l + f) li (String.concat "" (map line l) ++ s)
    = length l + count_from f li s.
Proof.
  intros Hline Hl. induction Hl as [|x l Hx Hl IH]; intros f s.
  - reflexivity.
  - cbn [map length]. rewrite concat_cons, Hline, !StrMore.append_assoc.
    cbn [Nat.add]. rewrite count_hit, (count_skip _ _ _ Hx), IH.
    reflexivity.
Qed.

Lemma includes_prefix (p b : string) : includes p (p ++ b) = true.
Proof. unfold includes. now rewrite index_hit. Qed.

Lemma includes_skip (p a s : string) :
  includes p s = true -> includes p (a ++ s) = true.
Proof.
  unfold includes. intros H. induction a as [|c a IH]; [exact H|].
  cbn [append index]. destruct (prefix p (String c (a ++ s))); [reflexivity|].
  now destruct (index 0 p (a ++ s)).
Qed.

(** Every line of a list is in the text made of the lines. *)
Lemma includes_line (line : string -> string) (x : string)
  (l : list string) (s : string) :
  In x l -> includes (line x) (String.concat "" (map line l) ++ s) = true.
Proof.
  induction l as [|y l IH]; [contradiction|]. intros Hin.
  cbn [map]. rewrite concat_cons, StrMore.append_assoc.
  destruct Hin as [->|Hin]; [apply includes_prefix|].
  apply includes_skip. now apply IH.
Qed.

Lemma uint_safe (d : Decimal.uint) :
  lacks "<" (NilEmpty.string_of_uint d) = true.
Proof. induction d; [reflexivity|exact IHd ..]. Qed.

Lemma digits_safe (d : Decimal.uint) :
  lacks "<" (NilZero.string_of_uint d) = true.
Proof. destruct d; [reflexivity|exact (uint_safe _) ..]. Qed.

Lemma of_Z_safe (z : Z) : safe (of_Z z) = true.
Proof.
  apply lacks_safe. unfold of_Z.
  destruct z as [|p|p]; [reflexivity|apply digits_safe|].
  exact (digits_safe (Pos.to_uint p)).
Qed.

Lemma fuel_left (g n : nat) : n < g -> exists f, g = n + S f.
Proof. intros H. exists (g - n - 1). lia. Qed.

Lemma firstn_subset {A : Type} (n : nat) (l : list A) (x : A) :
  In x (firstn n l) -> In x l.
Proof.
  revert l. induction n as [|n IH]; intros [|y l] H; try contradiction.
  destruct H as [->|H]; [now left|right; now apply IH].
Qed.

End CardFacts.

Import CardFacts.

(** A recipe with ten ingredients. *)
Definition stew : Recipe :=
  {| title := "Stew";
     recipe_ingredients :=
       Some ["a"; "b"; "c"; "d"; "e"; "f"; "g"; "h"; "i"; "j"] |}.

Ltac safe_text :=
  repeat apply safe_app;
  first [ reflexivity | apply of_Z_safe | apply lacks_safe; assumption ].

(** X15.  In a recipe card no ingredient is lost.  Each of the first eight
    ingredients has its line in the card; when there are more than eight,
    the card has the line "+ N more ingredients" with N the number of the
    others; and, for a title and ingredients without [<], the card has one
    list item for each of the first eight ingredients, one more for the
    "more" line when there are more than eight, and no other. *)
Theorem card_lists_or_counts_every_ingredient (recipe : Recipe) (idx : nat) :
  let ings :=
    match recipe_ingredients recipe with Some l => l | None => [] end in
  let card := recipe_card recipe idx in
  (forall ing, In ing (firstn 8 ings) ->
     Str.includes (ingredient_line ing) card = true) /\
  (8 < length ings ->
     Str.includes (more_line (length ings - 8)) card = true) /\
  (Str.lacks "<" (title recipe) = true ->
   Forall (fun ing => Str.lacks "<" ing = true) ings ->
   Str.count "<li" card
   = Nat.min 8 (length ings) + (if (8 <? length ings)%nat then 1 else 0)).
Proof.
  intros ings card. subst card. unfold recipe_card. fold ings. cbv zeta.
  split; [|split].
  - intros ing Hin.
    repeat first [ apply (includes_line ingredient_line); exact Hin
                 | apply includes_skip ].
  - intros Hmore. unfold moreCount.
    destruct (Nat.ltb_spec 8 (length ings)) as [_|]; [|lia].
    destruct (Nat.ltb_spec 0 (length ings - 8)) as [_|]; [|lia].
    repeat first [ apply includes_prefix | apply includes_skip ].
  - intros Htitle Hings.
    match goal with
    | |- Str.count _ ?s = _ =>
        change (Str.count "<li" s) with (Str.count_from (String.length s) li s);
        assert (Hfuel : exists f,
                   String.length s = length (firstn 8 ings) + S f)
    end.
    { apply fuel_left. rewrite length_append, length_firstn.
      cbn [String.length]. lia. }
    destruct Hfuel as [f ->].
    repeat (rewrite count_skip by safe_text).
    rewrite (count_lines ingredient_line
               (fun ing => Str.cls "text-sm text-gray-600" ++ ">• " ++ ing ++ "</li>"));
      [|reflexivity|].
    + rewrite count_skip by reflexivity.
      rewrite length_firstn. f_equal. unfold moreCount.
      destruct (8 <? length ings)%nat eqn:E.
      * apply Nat.ltb_lt in E.
        destruct (Nat.ltb_spec 0 (length ings - 8)) as [_|]; [|lia].
        unfold more_line. rewrite !StrMore.append_assoc.
        rewrite count_hit. f_equal. apply count_none. safe_text.
      * cbn [Nat.ltb Nat.leb append]. apply count_none. reflexivity.
    + apply Forall_forall. intros x Hx. apply firstn_subset in Hx.
      rewrite Forall_forall in Hings. specialize (Hings x Hx). safe_text.
Qed.

Lemma card_lists_or_counts_every_ingredient_witness :
  Str.lacks "<" (title stew) = true /\
  Str.count "<li" (recipe_card stew 0) = 9.
Proof.
  split; [reflexivity|].
  exact (proj2 (proj2 (card_lists_or_counts_every_ingredient stew 0))
           eq_refl ltac:(repeat constructor)).
Defined.
